(** * API_SEARCH: task dispatch, result correlation, cache and liveness

    A shallow embedding of the coordination core of the repository:
    - [src/server/api_server.py]      the single-process gateway,
    - [src/workers/worker_pool_v3.py] the thread pool of executors,
    - [src/cluster/cluster_master.py] the multi-host gateway,
    - [src/cluster/cluster_worker.py] the multi-host executor,
    - [src/solvers/captcha_solver.py], [src/solvers/captcha_solver_free.py]
      the polling loop of the 2Captcha client and the rotation of the
      Wit.ai keys.

    Python [str] values are modelled as [string] (the ASCII fragment;
    the texts of exceptions, which the code only passes on, are kept as
    their UTF-8 bytes), Python [int] as [Z], dictionaries used as maps as
    [gmap], queues and Redis lists as [list].  Clock readings are integers
    (milliseconds for the thread pool, whole seconds for Redis
    time-to-live values).  What the code cannot decide is an input of the
    model: what a browser shows, which Redis call raises, which keys a scan
    yields twice, in what order the threads run. *)

From Stdlib Require Import ZArith String Ascii List Lia Bool.
From Stdlib Require Import DecimalString DecimalZ Permutation.
From stdpp Require Import base option gmap list strings.

Open Scope string_scope.
Open Scope Z_scope.

(* ===================================================================== *)
(** * Part I: definitions                                                 *)
(* ===================================================================== *)

(** ** Python string primitives used by the gateways *)
Module PyStr.

(** [str.lower] on one character (ASCII letters only). *)
Definition lower_ascii (c : ascii) : ascii :=
  let n := nat_of_ascii c in
  if (Nat.leb 65 n && Nat.leb n 90)%bool then ascii_of_nat (n + 32) else c.

(** [str.lower()] *)
Fixpoint lower (s : string) : string :=
  match s with
  | EmptyString => EmptyString
  | String c s' => String (lower_ascii c) (lower s')
  end.

(** [str.isspace] on one character: TAB, LF, VT, FF, CR, the four
    separators FS GS RS US, and the blank. *)
Definition is_space (c : ascii) : bool :=
  let n := nat_of_ascii c in
  ((Nat.leb 9 n && Nat.leb n 13) || (Nat.leb 28 n && Nat.leb n 32))%bool.

(** [str.lstrip()] *)
Fixpoint lstrip (s : string) : string :=
  match s with
  | EmptyString => EmptyString
  | String c s' => if is_space c then lstrip s' else s
  end.

(** [str.rstrip()] *)
Definition rstrip (s : string) : string :=
  String.rev (lstrip (String.rev s)).

(** [str.strip()] *)
Definition strip (s : string) : string := rstrip (lstrip s).

(** [s[n:]] for [n >= 0] *)
Fixpoint drop (n : nat) (s : string) : string :=
  match n, s with
  | O, _ => s
  | S n', String _ s' => drop n' s'
  | S _, EmptyString => EmptyString
  end.

(** Truth value of a string: [bool(s)], false only for the empty one. *)
Definition truthy (s : string) : bool :=
  match s with EmptyString => false | _ => true end.

(** [str(n)] for an [int]. *)
Definition str_of_int (n : Z) : string :=
  NilZero.string_of_int (Z.to_int n).

(** Value of a decimal digit character. *)
Definition digit_value (c : ascii) : option Z :=
  let n := nat_of_ascii c in
  if (Nat.leb 48 n && Nat.leb n 57)%bool then Some (Z.of_nat (n - 48)) else None.

(** Digits of an [int] literal: a digit, then digits each optionally
    preceded by one underscore.  [acc] is the value read so far and
    [after_us] tells that the previous character was an underscore. *)
Fixpoint parse_digits (acc : Z) (after_us : bool) (s : string) : option Z :=
  match s with
  | EmptyString => if after_us then None else Some acc
  | String c s' =>
      match digit_value c with
      | Some d => parse_digits (10 * acc + d) false s'
      | None =>
          if (Ascii.eqb c "_" && negb after_us)%bool
          then parse_digits acc true s'
          else None
      end
  end.

(** The white space that [int()] skips around the number: TAB, LF, VT,
    FF, CR and the blank.  The separators FS GS RS US, which [str.strip]
    removes, are not skipped: [int] raises on them. *)
Definition is_int_space (c : ascii) : bool :=
  let n := nat_of_ascii c in
  ((Nat.leb 9 n && Nat.leb n 13) || Nat.eqb n 32)%bool.

Fixpoint int_lstrip (s : string) : string :=
  match s with
  | EmptyString => EmptyString
  | String c s' => if is_int_space c then int_lstrip s' else s
  end.

Definition int_strip (s : string) : string :=
  String.rev (int_lstrip (String.rev (int_lstrip s))).

(** The number of digit characters of a text. *)
Fixpoint digit_count (s : string) : nat :=
  match s with
  | EmptyString => O
  | String c s' =>
      match digit_value c with
      | Some _ => S (digit_count s')
      | None => digit_count s'
      end
  end.

(** The default of [sys.int_max_str_digits]. *)
Definition int_max_str_digits : nat := 4300.

(** [int(s)] for a string [s]: surrounding white space is ignored, one
    sign is allowed, the rest is a digit group of at most
    [int_max_str_digits] digits.  [None] stands for the [ValueError]
    Python raises. *)
Definition int_of_str (s : string) : option Z :=
  if Nat.ltb int_max_str_digits (digit_count s) then None else
  match int_strip s with
  | EmptyString => None
  | String c s' =>
      if Ascii.eqb c "-" then
        match s' with
        | EmptyString => None
        | String d _ =>
            match digit_value d with
            | Some _ => Z.opp <$> parse_digits 0 false s'
            | None => None
            end
        end
      else if Ascii.eqb c "+" then
        match s' with
        | EmptyString => None
        | String d _ =>
            match digit_value d with
            | Some _ => parse_digits 0 false s'
            | None => None
            end
        end
      else
        match digit_value c with
        | Some _ => parse_digits 0 false (String c s')
        | None => None
        end
  end.

(** [s * n] *)
Fixpoint times (n : nat) (s : string) : string :=
  match n with
  | O => EmptyString
  | S n' => s ++ times n' s
  end.

(** [c in s] for a character [c] *)
Fixpoint has_char (c : ascii) (s : string) : bool :=
  match s with
  | EmptyString => false
  | String d s' => Ascii.eqb d c || has_char c s'
  end.

End PyStr.

(** ** The executor pool of the single-process gateway
       ([src/workers/worker_pool_v3.py]) *)
Module Pool.

(** An anchor element found on the results page, reduced to what
    [_extract_place_data_from_any_anchor] reads for the fields kept
    here.  [stale] stands for an element whose attribute reads raise. *)
Record Anchor := mkAnchor {
  aria_label : option string;
  href : option string;
  stale : bool }.

(** One entry of [local_results.places].  The optional fields that the
    source derives from the card text by regular expressions (rating,
    reviews, price, address, hours, type, thumbnail, place ids) are left
    out: no operation below reads them. *)
Record Place := mkPlace {
  position : Z;
  title : string;
  maps_url : option string }.

Inductive Status := StSuccess | StError.

(** The result dictionary.  [task_id] is [None] until [_worker_loop]
    tags the dictionary; [error] is set on error results only. *)
Record Result := mkResult {
  status : Status;
  task_id : option string;
  places : list Place;
  error : option string;
  worker_id : option Z;
  from_cache : bool }.

(** The task dictionary built by [submit_task]; [limit] is the keyword
    argument, absent when the caller gave none. *)
Record Task := mkTask {
  id : string;
  query : string;
  location : string;
  limit : option Z }.

(** The counters of a [SeleniumWorker]; [looping] tells that the thread
    running [_worker_loop] for it has not left the loop. *)
Record Worker := mkWorker {
  wid : Z;
  is_busy : bool;
  total_searches : Z;
  successful_searches : Z;
  failed_searches : Z;
  looping : bool }.

(** What the browser shows during one call of [_perform_search].
    [nav_error] is set when an operation that the call performs on the
    driver outside the extraction helpers raises (a page load, the search
    for the Maps anchors): the call then fails with this text. *)
Record Browser := mkBrowser {
  nav_error : option string;
  lcl_captcha_ok : bool;
  lcl_anchors : list Anchor;
  serp_captcha_ok : bool;
  serp_anchors : list Anchor;
  maps_captcha_ok : bool;
  maps_anchors : list Anchor }.

(** [l[:n]] *)
Definition py_slice_to {A} (n : Z) (l : list A) : list A :=
  if 0 <=? n then firstn (Z.to_nat n) l
  else firstn (length l - Z.to_nat (- n)) l.

(** [_extract_place_data_from_any_anchor] *)
Definition extract_place_data (a : Anchor) (pos : Z) : option Place :=
  if stale a then None
  else
    let t := PyStr.strip (default "" (aria_label a)) in
    if PyStr.truthy t then
      Some {| position := pos; title := t;
              maps_url := match href a with
                          | Some h => if PyStr.truthy h then Some h else None
                          | None => None
                          end |}
    else None.

(** The loop shared by [_extract_local_results_lcl],
    [_extract_local_results_serp] and the Maps fallback:
    [pos = 1; for a in anchors: if pos > limit: break; ...]. *)
Fixpoint extract_from (lim pos : Z) (anchors : list Anchor) : list Place :=
  match anchors with
  | [] => []
  | a :: rest =>
      if lim <? pos then []
      else match extract_place_data a pos with
           | Some item => item :: extract_from lim (pos + 1) rest
           | None => extract_from lim pos rest
           end
  end.

Definition extract_local_results (lim : Z) (anchors : list Anchor) : list Place :=
  extract_from lim 1 anchors.

Definition is_empty {A} (l : list A) : bool :=
  match l with [] => true | _ => false end.

(** [SeleniumWorker._perform_search]: [inl msg] is the exception it
    raises, [inr r] the dictionary it returns. *)
Definition perform_search (w : Worker) (lim : Z) (b : Browser) : string + Result :=
  let ok (ps : list Place) :=
    inr {| status := StSuccess; task_id := None;
           places := py_slice_to lim ps; error := None;
           worker_id := Some (wid w); from_cache := false |} in
  match nav_error b with
  | Some e => inl e
  | None =>
      if negb (lcl_captcha_ok b) then inl "Falha ao resolver CAPTCHA"
      else
        let ps := extract_local_results lim (lcl_anchors b) in
        if negb (is_empty ps) then ok ps
        else if negb (serp_captcha_ok b)
        then inl "Falha ao resolver CAPTCHA (fallback SERP)"
        else
          let ps := extract_local_results lim (serp_anchors b) in
          if negb (is_empty ps) then ok ps
          else if negb (maps_captcha_ok b)
          then inl "Falha ao resolver CAPTCHA (maps fallback)"
          else ok (ps ++ extract_local_results lim (maps_anchors b))%list
  end.

Definition set_counters (w : Worker) (busy : bool) (tot suc fai : Z) : Worker :=
  {| wid := wid w; is_busy := busy; total_searches := tot;
     successful_searches := suc; failed_searches := fai;
     looping := looping w |}.

(** The [for attempt in range(max_retries)] loop of
    [SeleniumWorker.search].  [n] iterations remain, [k] calls of
    [_perform_search] have been made, [session k] is what the browser
    shows during call number [k].  The third component of the answer
    counts the calls made. *)
Fixpoint search_attempts (n k : nat) (last_err : option string)
    (w : Worker) (lim : Z) (session : nat -> Browser)
    : Result * Worker * nat :=
  match n with
  | O =>
      ({| status := StError; task_id := None; places := [];
          error := Some (default "erro desconhecido" last_err);
          worker_id := Some (wid w); from_cache := false |},
       set_counters w false (total_searches w) (successful_searches w)
                    (failed_searches w + 1),
       k)
  | S n' =>
      match perform_search w lim (session k) with
      | inr r =>
          (r,
           set_counters w false (total_searches w)
                        (successful_searches w + 1) (failed_searches w),
           S k)
      | inl e => search_attempts n' (S k) (Some e) w lim session
      end
  end.

(** [SeleniumWorker.search] *)
Definition search (w : Worker) (lim max_retries : Z) (session : nat -> Browser)
    : Result * Worker * nat :=
  search_attempts (Z.to_nat max_retries) 0 None
    (set_counters w true (total_searches w + 1) (successful_searches w)
                  (failed_searches w))
    lim session.

(** The [WorkerPool] object.  [None] in [task_queue] is the sentinel
    that [stop] enqueues. *)
Record WorkerPool := mkPool {
  workers : list Worker;
  task_queue : list (option Task);
  result_queue : list Result;
  is_running : bool;
  max_retries : Z;
  default_limit : Z }.

Definition set_workers (p : WorkerPool) (ws : list Worker) : WorkerPool :=
  {| workers := ws; task_queue := task_queue p;
     result_queue := result_queue p; is_running := is_running p;
     max_retries := max_retries p; default_limit := default_limit p |}.

Definition set_task_queue (p : WorkerPool) (q : list (option Task)) : WorkerPool :=
  {| workers := workers p; task_queue := q;
     result_queue := result_queue p; is_running := is_running p;
     max_retries := max_retries p; default_limit := default_limit p |}.

Definition set_result_queue (p : WorkerPool) (q : list Result) : WorkerPool :=
  {| workers := workers p; task_queue := task_queue p;
     result_queue := q; is_running := is_running p;
     max_retries := max_retries p; default_limit := default_limit p |}.

Definition tag (r : Result) (t : string) : Result :=
  {| status := status r; task_id := Some t; places := places r;
     error := error r; worker_id := worker_id r;
     from_cache := from_cache r |}.

Definition leave_loop (w : Worker) : Worker :=
  {| wid := wid w; is_busy := is_busy w; total_searches := total_searches w;
     successful_searches := successful_searches w;
     failed_searches := failed_searches w; looping := false |}.

(** [WorkerPool.submit_task] *)
Definition submit_task (q l t : string) (lim : option Z) (p : WorkerPool) : WorkerPool :=
  set_task_queue p
    (task_queue p ++ [Some {| id := t; query := q; location := l; limit := lim |}])%list.

(** One turn of [_worker_loop] for the thread of worker number [i], run
    from the head of the loop to its end with no other thread in between:
    test [is_running], take the head of [task_queue] (one indivisible
    [Queue.get]), leave on the sentinel, else search, tag the result
    with the task id and put it on [result_queue].  The second component
    is the task the thread took from the queue in this turn, if any.  The
    threads of a pool run side by side; the operations between which they
    interleave are [take_task], [begin_search] and [end_search] below, of
    which this turn is the composition. *)
Definition worker_turn (i : nat) (session : nat -> Browser) (p : WorkerPool)
    : WorkerPool * option Task :=
  match workers p !! i with
  | None => (p, None)
  | Some w =>
      if negb (looping w) then (p, None)
      else if negb (is_running p)
      then (set_workers p (<[i := leave_loop w]> (workers p)), None)
      else
        match task_queue p with
        | [] => (p, None)
        | None :: q =>
            (set_task_queue (set_workers p (<[i := leave_loop w]> (workers p))) q,
             None)
        | Some t :: q =>
            let '(r, w', _) :=
              search w (default (default_limit p) (limit t)) (max_retries p) session in
            (set_result_queue
               (set_task_queue (set_workers p (<[i := w']> (workers p))) q)
               (result_queue p ++ [tag r (id t)])%list,
             Some t)
        end
  end.

(** What the thread of a worker holds between the operations of a turn
    of [_worker_loop]: nothing, the task it took from [task_queue], or the
    task for which [SeleniumWorker.search] is running. *)
Inductive Hand :=
| Idle
| Holding (t : Task)
| Searching (t : Task).

(** The pool with its threads: [hands] lists what each thread holds, in
    the order of [workers]. *)
Record Threads := mkThreads {
  tpool : WorkerPool;
  hands : list Hand }.

Definition idle_threads (p : WorkerPool) : Threads :=
  {| tpool := p; hands := map (fun _ => Idle) (workers p) |}.

(** The head of the loop for the thread of worker [i]: the test of
    [is_running], [task_queue.get] and the test for the sentinel.  The
    second component is the task taken. *)
Definition take_task (i : nat) (st : Threads) : Threads * option Task :=
  let p := tpool st in
  match workers p !! i, hands st !! i with
  | Some w, Some Idle =>
      if negb (looping w) then (st, None)
      else if negb (is_running p)
      then ({| tpool := set_workers p (<[i := leave_loop w]> (workers p));
               hands := hands st |}, None)
      else
        match task_queue p with
        | [] => (st, None)
        | None :: q =>
            ({| tpool := set_task_queue
                           (set_workers p (<[i := leave_loop w]> (workers p))) q;
                hands := hands st |}, None)
        | Some t :: q =>
            ({| tpool := set_task_queue p q;
                hands := <[i := Holding t]> (hands st) |}, Some t)
        end
  | _, _ => (st, None)
  end.

(** The entry of [SeleniumWorker.search] for the task in hand:
    [is_busy = True; total_searches += 1]. *)
Definition begin_search (i : nat) (st : Threads) : Threads :=
  let p := tpool st in
  match workers p !! i, hands st !! i with
  | Some w, Some (Holding t) =>
      {| tpool := set_workers p
                    (<[i := set_counters w true (total_searches w + 1)
                                         (successful_searches w)
                                         (failed_searches w)]> (workers p));
         hands := <[i := Searching t]> (hands st) |}
  | _, _ => st
  end.

(** The rest of the turn: the attempts of [SeleniumWorker.search] with
    the counter of their outcome, the tag and [result_queue.put]. *)
Definition end_search (i : nat) (session : nat -> Browser) (st : Threads)
    : Threads :=
  let p := tpool st in
  match workers p !! i, hands st !! i with
  | Some w, Some (Searching t) =>
      let '(r, w', _) :=
        search_attempts (Z.to_nat (max_retries p)) 0 None w
                        (default (default_limit p) (limit t)) session in
      {| tpool := set_result_queue (set_workers p (<[i := w']> (workers p)))
                                   (result_queue p ++ [tag r (id t)])%list;
         hands := <[i := Idle]> (hands st) |}
  | _, _ => st
  end.

(** The tasks in the hands of the threads. *)
Definition in_hands (st : Threads) : list Task :=
  omap (fun h => match h with
                 | Idle => None
                 | Holding t | Searching t => Some t
                 end) (hands st).


(** [WorkerPool.get_stats], the three entries the gateway reads. *)
Definition total_workers (p : WorkerPool) : Z := Z.of_nat (length (workers p)).
Definition busy_workers (p : WorkerPool) : Z :=
  Z.of_nat (length (filter (fun w => is_busy w = true) (workers p))).
Definition available_workers (p : WorkerPool) : Z :=
  total_workers p - busy_workers p.

(** [WorkerPool.start] on a pool built for [num_workers] workers:
    [init_ok i] tells whether [initialize] of worker number [i + 1]
    succeeds; the workers that start are appended with their threads
    running. *)
Definition new_worker (i : nat) : Worker :=
  {| wid := Z.of_nat i + 1; is_busy := false; total_searches := 0;
     successful_searches := 0; failed_searches := 0; looping := true |}.

Definition start (num_workers : nat) (init_ok : nat -> bool) (p : WorkerPool)
    : WorkerPool :=
  {| workers := (workers p
                 ++ map new_worker (List.filter init_ok (seq 0 num_workers)))%list;
     task_queue := task_queue p; result_queue := result_queue p;
     is_running := true;
     max_retries := max_retries p; default_limit := default_limit p |}.

(** [WorkerPool.stop]: the flag is cleared and one sentinel per worker is
    put on the task queue. *)
Definition stop (p : WorkerPool) : WorkerPool :=
  {| workers := workers p;
     task_queue := (task_queue p ++ map (fun _ => None) (workers p))%list;
     result_queue := result_queue p;
     is_running := false;
     max_retries := max_retries p; default_limit := default_limit p |}.

(** The sums of [get_stats] over the workers. *)
Definition sum_of (f : Worker -> Z) (p : WorkerPool) : Z :=
  fold_right Z.add 0 (map f (workers p)).

(** A worker at rest: not busy, each search counted as a success or as a
    failure. *)
Definition settled (w : Worker) : Prop :=
  is_busy w = false /\
  total_searches w = successful_searches w + failed_searches w.



(** The pool at run time: the process clock [now] in milliseconds, the
    time [op_cost] that one queue operation which does not block takes,
    and [inflight], the results the executor threads are about to put on
    [result_queue], in order, each with the clock reading of its put. *)
Record World := mkWorld {
  now : Z;
  op_cost : positive;
  inflight : list (Z * Result);
  pool : WorkerPool }.

(** The puts whose time has come, and the ones still to come. *)
Fixpoint land (t : Z) (fl : list (Z * Result)) : list Result * list (Z * Result) :=
  match fl with
  | [] => ([], [])
  | (at_, r) :: fl' =>
      if at_ <=? t
      then let '(rs, rest) := land t fl' in (r :: rs, rest)
      else ([], fl)
  end.

(** [Queue.get(timeout=wait)] on [result_queue]: the head when there is
    one; else the call blocks until the next put, for at most [wait]
    milliseconds, after which it raises [queue.Empty] ([None]). *)
Definition queue_get (wait : Z) (w : World) : option Result * World :=
  let '(landed, fl) := land (now w) (inflight w) in
  match (result_queue (pool w) ++ landed)%list with
  | r :: q =>
      (Some r,
       {| now := now w + Z.pos (op_cost w); op_cost := op_cost w;
          inflight := fl; pool := set_result_queue (pool w) q |})
  | [] =>
      match fl with
      | (at_, r) :: fl' =>
          if at_ <=? now w + wait
          then (Some r,
                {| now := at_ + Z.pos (op_cost w); op_cost := op_cost w;
                   inflight := fl'; pool := set_result_queue (pool w) [] |})
          else (None,
                {| now := now w + wait; op_cost := op_cost w;
                   inflight := fl; pool := set_result_queue (pool w) [] |})
      | [] =>
          (None,
           {| now := now w + wait; op_cost := op_cost w;
              inflight := []; pool := set_result_queue (pool w) [] |})
      end
  end.

(** The results that are on [result_queue] or on their way to it: what
    the callers of [get_result] can still receive. *)
Definition pending (w : World) : list Result :=
  (result_queue (pool w) ++ map snd (inflight w))%list.


(** [Queue.put] on [result_queue] *)
Definition queue_put (r : Result) (w : World) : World :=
  {| now := now w; op_cost := op_cost w; inflight := inflight w;
     pool := set_result_queue (pool w) (result_queue (pool w) ++ [r])%list |}.

(** [(not task_id) or (item.get("task_id") == task_id)] *)
Definition wanted (tid : option string) (item : Result) : bool :=
  match tid with
  | None => true
  | Some s => negb (PyStr.truthy s) || bool_decide (task_id item = Some s)
  end.

(** The [while time.time() < end_time] loop of [get_result].  The
    outer [None] says that [fuel] turns were not enough. *)
Fixpoint get_result_loop (fuel : nat) (tid : option string) (end_time : Z)
    (w : World) : option (option Result * World) :=
  if now w <? end_time then
    match fuel with
    | O => None
    | S fuel' =>
        match queue_get 500 w with
        | (Some item, w1) =>
            if wanted tid item then Some (Some item, w1)
            else get_result_loop fuel' tid end_time (queue_put item w1)
        | (None, w1) => get_result_loop fuel' tid end_time w1
        end
    end
  else Some (None, w).

(** [WorkerPool.get_result]; [timeout] is in milliseconds.  Every turn
    of the loop moves the clock by one millisecond at least, hence
    [timeout] turns are enough ([get_result_returns] below). *)
Definition get_result (tid : option string) (timeout : Z) (w : World)
    : option (option Result * World) :=
  get_result_loop (Z.to_nat timeout) tid (now w + timeout) w.

End Pool.

(** ** The single-process gateway ([src/server/api_server.py]) *)
Module Gateway.
Import Pool.

(** [get_cache_key] *)
Definition get_cache_key (query location : string) : string :=
  PyStr.strip (PyStr.lower (query ++ "|" ++ location)).

(** The query string of a request to [/api/search]. *)
Record Args := mkArgs {
  arg_query : option string;
  arg_location : option string;
  arg_limit : option string }.

(** The module state: [cache_memory], the global [worker_pool] ([None]
    before [init_worker_pool]), and the two environment settings. *)
Record Server := mkServer {
  cache_memory : gmap string Result;
  worker_pool : option World;
  env_default_limit : option string;       (* DEFAULT_LIMIT *)
  max_response_time : Z }.                 (* MAX_RESPONSE_TIME, seconds *)

Inductive Response :=
| BadRequest400                 (* query or location missing *)
| Ok200 (r : Result)
| NotInitialised503             (* worker_pool is None *)
| NoWorker503                   (* "Nenhum worker ativo no momento" *)
| Timeout504 (elapsed : Z)      (* status timeout, elapsed_time *)
| Error500 (r : Result)         (* the error result of the executor *)
| Unhandled500                  (* int() raised ValueError *)
| NoAnswer.                     (* the model of the wait ran out of turns *)

Definition set_from_cache (r : Result) (b : bool) : Result :=
  {| status := status r; task_id := task_id r; places := places r;
     error := error r; worker_id := worker_id r; from_cache := b |}.

Definition set_cache (s : Server) (c : gmap string Result) : Server :=
  {| cache_memory := c; worker_pool := worker_pool s;
     env_default_limit := env_default_limit s;
     max_response_time := max_response_time s |}.

Definition set_world (s : Server) (w : World) : Server :=
  {| cache_memory := cache_memory s; worker_pool := Some w;
     env_default_limit := env_default_limit s;
     max_response_time := max_response_time s |}.

Definition set_pool (w : World) (p : WorkerPool) : World :=
  {| now := now w; op_cost := op_cost w; inflight := inflight w; pool := p |}.

(** [int(request.args.get('limit', os.getenv('DEFAULT_LIMIT', 20)))] *)
Definition read_limit (a : Args) (s : Server) : option Z :=
  match arg_limit a with
  | Some v => PyStr.int_of_str v
  | None =>
      match env_default_limit s with
      | Some v => PyStr.int_of_str v
      | None => Some 20
      end
  end.

(** The view function [search].  [uuid] is the value that
    [str(uuid.uuid4())] draws in this call. *)
Definition search (uuid : string) (a : Args) (s : Server) : Response * Server :=
  let query := PyStr.strip (default "" (arg_query a)) in
  let location := PyStr.strip (default "" (arg_location a)) in
  match read_limit a s with
  | None => (Unhandled500, s)
  | Some lim =>
      if negb (PyStr.truthy query) || negb (PyStr.truthy location)
      then (BadRequest400, s)
      else
        let cache_key := get_cache_key query location in
        match cache_memory s !! cache_key with
        | Some hit =>
            (* the copy shares [search_metadata] with the cached entry *)
            (Ok200 (set_from_cache hit true),
             set_cache s (<[cache_key := set_from_cache hit true]> (cache_memory s)))
        | None =>
            match worker_pool s with
            | None => (NotInitialised503, s)
            | Some w =>
                if (available_workers (pool w) =? 0) && (total_workers (pool w) =? 0)
                then (NoWorker503, s)
                else
                  let task_id := uuid in
                  let w1 := set_pool w (submit_task query location task_id (Some lim) (pool w)) in
                  let start_time := now w1 in
                  match get_result (Some task_id) (1000 * max_response_time s) w1 with
                  | None => (NoAnswer, set_world s w1)
                  | Some (None, w2) =>
                      (Timeout504 (now w2 - start_time), set_world s w2)
                  | Some (Some result, w2) =>
                      match status result with
                      | StError => (Error500 result, set_world s w2)
                      | StSuccess =>
                          (Ok200 (set_from_cache result false),
                           set_cache (set_world s w2)
                             (<[cache_key := set_from_cache result false]> (cache_memory s)))
                      end
                  end
            end
        end
  end.

End Gateway.


(** ** The Redis server shared by the cluster, as far as the cluster uses it *)
Module Redis.

Section Store.
(** [V] is what string values hold, [T] what list elements hold. *)
Context {V T : Type}.

Record Entry := mkEntry {
  value : V;
  expires : option Z }.         (* clock reading at which the key dies *)

(** [clock] counts whole seconds, the unit of [TTL] and [SETEX]. *)
Record Store := mkStore {
  clock : Z;
  strings : gmap string Entry;
  lists : gmap string (list T) }.

Definition alive (now : Z) (e : Entry) : bool :=
  match expires e with
  | Some t => now <? t
  | None => true
  end.

Definition lookup_live (key : string) (r : Store) : option Entry :=
  match strings r !! key with
  | Some e => if alive (clock r) e then Some e else None
  | None => None
  end.

(** [GET key] *)
Definition get (key : string) (r : Store) : option V :=
  value <$> lookup_live key r.

(** [SETEX key seconds value]; [None] is the error reply to a time to
    live that is not positive. *)
Definition setex (key : string) (seconds : Z) (v : V) (r : Store) : option Store :=
  if 0 <? seconds
  then Some {| clock := clock r;
               strings := <[key := {| value := v;
                                      expires := Some (clock r + seconds) |}]> (strings r);
               lists := lists r |}
  else None.

(** [TTL key]: seconds left, [-1] without expiry, [-2] without key. *)
Definition ttl (key : string) (r : Store) : Z :=
  match lookup_live key r with
  | Some e => match expires e with
              | Some t => t - clock r
              | None => -1
              end
  | None => -2
  end.

(** [DEL key] *)
Definition del (key : string) (r : Store) : Store :=
  {| clock := clock r; strings := delete key (strings r); lists := lists r |}.

(** [LPUSH key x]: [x] becomes the head of the list. *)
Definition lpush (key : string) (x : T) (r : Store) : Store :=
  {| clock := clock r; strings := strings r;
     lists := <[key := x :: default [] (lists r !! key)]> (lists r) |}.

(** [LLEN key] *)
Definition llen (key : string) (r : Store) : Z :=
  Z.of_nat (length (default [] (lists r !! key))).

(** [BRPOP key timeout]: one indivisible pop of the last element;
    [None] when the list stayed empty for the whole timeout. *)
Definition brpop (key : string) (r : Store) : option T * Store :=
  match last (default [] (lists r !! key)) with
  | Some x =>
      (Some x,
       {| clock := clock r; strings := strings r;
          lists := <[key := removelast (default [] (lists r !! key))]> (lists r) |})
  | None => (None, r)
  end.

(** The live keys of the form [prefix*suffix]. *)
Definition scan_keys (prefix suffix : string) (r : Store) : list string :=
  List.filter
    (fun k =>
       String.prefix prefix k
       && String.prefix (String.rev suffix)
                        (String.rev (PyStr.drop (String.length prefix) k))
       && bool_decide (is_Some (lookup_live k r)))%bool
    (map fst (map_to_list (strings r))).

(** [scan_iter(match=prefix*suffix)]: the cursor of [SCAN] yields every
    live key of that form once at least and may yield a key again;
    [again k] is the number of times it yields [k] again in this
    iteration.  No order is promised. *)
Definition scan_iter (prefix suffix : string) (again : string -> nat)
    (r : Store) : list string :=
  flat_map (fun k => replicate (S (again k)) k) (scan_keys prefix suffix r).

(** [seconds] pass. *)
Definition elapse (seconds : Z) (r : Store) : Store :=
  {| clock := clock r + seconds; strings := strings r; lists := lists r |}.

End Store.
Arguments Entry : clear implicits.
Arguments Store : clear implicits.

End Redis.

(** ** The cluster: [src/cluster/cluster_worker.py] and
       [src/cluster/cluster_master.py] *)
Module Cluster.

(** A card as [_extract_places_from_dom] returns it; [rating] is the
    parsed number in tenths. *)
Record Card := mkCard {
  card_title : option string;
  card_rating : option Z }.

Record Place := mkPlace {
  position : Z;
  title : option string;
  rating : option Z }.

Inductive Status := StSuccess | StError.

Record Result := mkResult {
  status : Status;
  task_id : option string;
  places : list Place;
  error : option string;
  search_q : option string;       (* search_parameters.q *)
  worker_id : string;
  captchas_solved : Z;
  from_cache : bool }.

(** The task dictionary the master serialises. *)
Record Task := mkTask {
  id : string;
  query : string;
  location : string;
  limit : Z }.

(** An element of the list [scraper:tasks]: the JSON text of a task, or
    text that [json.loads] rejects. *)
Inductive Raw :=
| Json (t : Task)
| Garbage (text : string).

(** A string value of the store: plain text (a heartbeat time stamp)
    or the JSON text of a result. *)
Inductive Stored :=
| Text (s : string)
| Res (r : Result).

Abbreviation Store := (Redis.Store Stored Raw).

(** *** The executor *)

(** An exception that [safe_get] lets out: one of the four types that
    [google_local_search] catches around it ([RemoteDisconnected],
    [WebDriverException], [TimeoutException],
    [InvalidSessionIdException]), or any other exception. *)
Inductive LoadFailure :=
| SessionLost (e : string)
| OtherFailure (e : string).

(** What the site shows during one call of [google_local_search]:
    the exception of the first [safe_get], the exception of [init_chrome]
    when the browser is restarted, the exception of the [safe_get] after
    the restart, whether a captcha blocks the page, and the cards in the
    page at each pass of the scroll loop. *)
Record Site := mkSite {
  first_get : option LoadFailure;
  reinit : option string;
  retry_get : option LoadFailure;
  blocked : bool;
  dom : nat -> list Card }.

(** The [for it in current] pass of the scroll loop. *)
Fixpoint absorb (lim : Z) (current : list Card) (seen : gset string)
    (collected : list Card) : gset string * list Card :=
  match current with
  | [] => (seen, collected)
  | it :: rest =>
      let t := PyStr.strip (default "" (card_title it)) in
      if negb (PyStr.truthy t) then absorb lim rest seen collected
      else if bool_decide (t ∈ seen) then absorb lim rest seen collected
      else
        let collected' := (collected ++ [it])%list in
        if lim <=? Z.of_nat (length collected')
        then ({[t]} ∪ seen, collected')
        else absorb lim rest ({[t]} ∪ seen) collected'
  end.

(** [while len(collected) < limit and scrolls < MAX_SCROLLS]; [left]
    is [MAX_SCROLLS - scrolls] and [k] is [scrolls]. *)
Fixpoint scroll_loop (left k : nat) (lim : Z) (page : nat -> list Card)
    (seen : gset string) (collected : list Card) : list Card :=
  if Z.of_nat (length collected) <? lim then
    match left with
    | O => collected
    | S left' =>
        let '(seen', collected') := absorb lim (page k) seen collected in
        if lim <=? Z.of_nat (length collected') then collected'
        else scroll_loop left' (S k) lim page seen' collected'
    end
  else collected.

(** [enumerate(items, start=pos)] into the payload. *)
Fixpoint number_from (pos : Z) (items : list Card) : list Place :=
  match items with
  | [] => []
  | it :: rest =>
      {| position := pos; title := card_title it; rating := card_rating it |}
      :: number_from (pos + 1) rest
  end.

(** [google_local_search]: [inl msg] is the exception raised. *)
Definition google_local_search (me : string) (max_scrolls : nat)
    (site : Site) (query location : string) (lim : Z) : string + Result :=
  let body :=
    if blocked site
    then inl "Captcha ou consentimento bloqueando a página."
    else
      let collected := scroll_loop max_scrolls 0 lim (dom site) ∅ [] in
      inr {| status := StSuccess; task_id := None;
             places := number_from 1 (Pool.py_slice_to lim collected);
             error := None; search_q := Some (query ++ " " ++ location);
             worker_id := me; captchas_solved := 0;
             from_cache := false |} in
  match first_get site with
  | None => body
  | Some (OtherFailure e) => inl e
  | Some (SessionLost _) =>
      (* allow_reinit_once: quit, init_chrome, one more call *)
      match reinit site with
      | Some e => inl e
      | None =>
          match retry_get site with
          | None => body
          | Some (SessionLost e) | Some (OtherFailure e) => inl e
          end
      end
  end.

(** [handle_task] *)
Definition handle_task (me : string) (max_scrolls : nat) (site : Site)
    (task : Task) : string + Result :=
  let q := PyStr.strip (query task) in
  let l := PyStr.strip (location task) in
  if negb (PyStr.truthy q) || negb (PyStr.truthy l)
  then inl "Parâmetros incompletos na tarefa (query/location)."
  else
    match google_local_search me max_scrolls site q l (limit task) with
    | inl e => inl e
    | inr r =>
        inr {| status := status r; task_id := Some (id task);
               places := places r; error := error r;
               search_q := search_q r; worker_id := me;
               captchas_solved := captchas_solved r;
               from_cache := from_cache r |}
    end.

Definition result_key (task_id : string) : string :=
  "scraper:result:" ++ task_id.

(** One turn of the [while True] loop of [main]: pop a task from the
    tail of [queue_key], run it, publish the result for 180 seconds.
    The second component is the task taken in this turn, if any. *)
Definition worker_turn (me queue_key : string) (max_scrolls : nat)
    (site : Site) (r : Store) : Store * option Task :=
  match Redis.brpop queue_key r with
  | (None, r1) => (r1, None)
  | (Some (Garbage _), r1) => (r1, None)
  | (Some (Json task), r1) =>
      let res :=
        match handle_task me max_scrolls site task with
        | inr res => res
        | inl e =>
            {| status := StError; task_id := Some (id task); places := [];
               error := Some e; search_q := None; worker_id := me;
               captchas_solved := 0;
               from_cache := false |}
        end in
      (default r1 (Redis.setex (result_key (id task)) 180 (Res res) r1),
       Some task)
  end.

(** The result that [main] publishes for a task it has taken: the one
    [handle_task] returns, or the error dictionary built from the exception
    it raises. *)
Definition published_for (me : string) (max_scrolls : nat) (site : Site)
    (task : Task) : Result :=
  match handle_task me max_scrolls site task with
  | inr res => res
  | inl e =>
      {| status := StError; task_id := Some (id task); places := [];
         error := Some e; search_q := None; worker_id := me;
         captchas_solved := 0; from_cache := false |}
  end.

Definition heartbeat_key (me : string) : string :=
  "worker:" ++ me ++ ":heartbeat".

(** One turn of [heartbeat_loop]: refresh the lease, then wait
    [interval] seconds.  An error reply of [SETEX] is logged only. *)
Definition heartbeat (me : string) (hb_ttl : Z) (stamp : string) (r : Store) : Store :=
  default r (Redis.setex (heartbeat_key me) hb_ttl (Text stamp) r).

(** What one try of [safe_get] meets: the page loads, or the session
    test or the load raises one of the exceptions that [safe_get] catches,
    or the load raises another exception. *)
Inductive GetOutcome :=
| Loaded
| Caught (msg : string)
| Uncaught (msg : string).

Inductive SafeGet :=
| Returned
| Raised (msg : string).

(** The [for i in range(1, tries + 1)] loop of [safe_get]: [left] tries
    remain, [k] have been made, [attempt k] is what try number [k + 1]
    meets.  The answer also gives the number of tries made and the time
    slept, in the unit of [backoff]. *)
Fixpoint safe_get_tries (left k : nat) (last_err : option string)
    (backoff slept : Z) (attempt : nat -> GetOutcome) : SafeGet * nat * Z :=
  match left with
  | O => (Raised (default "Falha desconhecida no safe_get" last_err), k, slept)
  | S left' =>
      match attempt k with
      | Loaded => (Returned, S k, slept)
      | Caught e =>
          safe_get_tries left' (S k) (Some e) backoff
                         (slept + backoff * Z.of_nat (S k)) attempt
      | Uncaught e => (Raised e, S k, slept)
      end
  end.

(** [safe_get] *)
Definition safe_get (tries backoff : Z) (attempt : nat -> GetOutcome)
    : SafeGet * nat * Z :=
  safe_get_tries (Z.to_nat tries) 0 None backoff 0 attempt.


End Cluster.

Module Master.
Import Cluster.

(** The value handed to [_normalize_limit]: the text of the query
    parameter, or the integer default. *)
Inductive PyVal :=
| PyInt (n : Z)
| PyText (s : string).

(** [int(v)]; [None] when it raises. *)
Definition py_int (v : PyVal) : option Z :=
  match v with
  | PyInt n => Some n
  | PyText s => PyStr.int_of_str s
  end.

(** [_normalize_limit] *)
Definition _normalize_limit (limit_raw : PyVal) : Z :=
  let n := match py_int limit_raw with
           | Some n => n
           | None => 10
           end in
  Z.max 1 (Z.min 50 n).

(** The text that [generate_cache_key] hashes. *)
Definition key_string (query location : string) (limit : Z) : string :=
  query ++ ":" ++ location ++ ":" ++ PyStr.str_of_int limit.

Record Stats := mkStats {
  total_requests : Z;
  successful : Z;
  failed : Z;
  cache_hits : Z;
  captchas_total : Z }.

(** The module state of the master: the Redis connection and [stats]. *)
Record State := mkState {
  redis : Store;
  stats : Stats }.

Record Args := mkArgs {
  arg_query : option string;
  arg_location : option string;
  arg_limit : option string;
  arg_use_cache : option string }.

Inductive Response :=
| BadRequest400
| Ok200 (r : Result)
| Timeout504              (* "Request timeout - no worker available" *)
| Error500.

Definition set_from_cache (r : Result) (b : bool) : Result :=
  {| status := status r; task_id := task_id r; places := places r;
     error := error r; search_q := search_q r; worker_id := worker_id r;
     captchas_solved := captchas_solved r; from_cache := b |}.

Definition bump_total (s : Stats) : Stats :=
  {| total_requests := total_requests s + 1; successful := successful s;
     failed := failed s; cache_hits := cache_hits s;
     captchas_total := captchas_total s |}.

Definition bump_hits (s : Stats) : Stats :=
  {| total_requests := total_requests s; successful := successful s;
     failed := failed s; cache_hits := cache_hits s + 1;
     captchas_total := captchas_total s |}.

Definition bump_failed (s : Stats) : Stats :=
  {| total_requests := total_requests s; successful := successful s;
     failed := failed s + 1; cache_hits := cache_hits s;
     captchas_total := captchas_total s |}.

Definition bump_successful (solved : Z) (s : Stats) : Stats :=
  {| total_requests := total_requests s; successful := successful s + 1;
     failed := failed s; cache_hits := cache_hits s;
     captchas_total :=
       if 0 <? solved then captchas_total s + solved else captchas_total s |}.

Definition tasks_key : string := "scraper:tasks".

(** The Redis calls that [search] makes, in program order: the [GET] of
    [get_cached_result], the [LPUSH] of the task, the [GET] of turn [k] of
    the wait, the [DELETE] of the result found, the [SETEX] of
    [set_cached_result].  A call can raise (the connection is lost, the
    server answers with an error); [search] has one handler for every
    exception. *)
Inductive Call :=
| CacheGet
| Push
| Poll (k : nat)
| Delete
| CacheSet.

(** [raises fault c]: the call [c] is the one that raises in this
    request; [fault = None] when every call answers. *)
Definition raises (fault : option Call) (c : Call) : bool :=
  match fault, c with
  | Some CacheGet, CacheGet => true
  | Some Push, Push => true
  | Some (Poll j), Poll k => Nat.eqb j k
  | Some Delete, Delete => true
  | Some CacheSet, CacheSet => true
  | _, _ => false
  end.

(** How the wait ends: a value found under the result key, an exception
    of a Redis call, or the 120 seconds used up. *)
Inductive Waited :=
| Found (v : Stored)
| CallFailed
| Expired.

(** The [while time.time() - start_time < timeout] loop of [search]:
    [left] seconds remain and [k] turns were made; each turn reads the
    result key and, when it is empty, sleeps one second, during which the
    store changes by [meanwhile] (the work of the executors) and its clock
    moves on.  A result found is deleted and returned.  Plain text under a
    result key, which no executor writes, is returned as found:
    [json.loads] raises on it. *)
Fixpoint await (left k : nat) (fault : option Call) (meanwhile : Store -> Store)
    (key : string) (r : Store) : Waited * Store :=
  match left with
  | O => (Expired, r)
  | S left' =>
      if raises fault (Poll k) then (CallFailed, r)
      else
        match Redis.get key r with
        | Some (Res res) =>
            if raises fault Delete then (CallFailed, r)
            else (Found (Res res), Redis.del key r)
        | Some (Text s) =>
            if PyStr.truthy s then (Found (Text s), r)
            else await left' (S k) fault meanwhile key (Redis.elapse 1 (meanwhile r))
        | None => await left' (S k) fault meanwhile key (Redis.elapse 1 (meanwhile r))
        end
  end.

(** What [get_cached_result] gives: the result found, [None], or the
    exception of [json.loads] on a text that is not JSON. *)
Inductive Cached :=
| Hit (r : Result)
| Miss
| BadJson.

Section Hash.
(** [md5_hex s] is [hashlib.md5(s.encode()).hexdigest()]. *)
Variable md5_hex : string -> string.

(** [generate_cache_key] *)
Definition generate_cache_key (query location : string) (limit : Z) : string :=
  "cache:" ++ md5_hex (key_string query location limit).

(** [get_cached_result]: a value that is not empty counts as a hit
    before it is parsed. *)
Definition get_cached_result (query location : string) (limit : Z)
    (st : State) : Cached * State :=
  match Redis.get (generate_cache_key query location limit) (redis st) with
  | Some (Res r) => (Hit r, {| redis := redis st; stats := bump_hits (stats st) |})
  | Some (Text s) =>
      if PyStr.truthy s
      then (BadJson, {| redis := redis st; stats := bump_hits (stats st) |})
      else (Miss, st)
  | None => (Miss, st)
  end.

(** [set_cached_result], with the default [ttl] of 24 hours. *)
Definition set_cached_result (query location : string) (limit : Z)
    (result : Result) (r : Store) : Store :=
  default r (Redis.setex (generate_cache_key query location limit) 86400
                         (Res result) r).

(** The task [search] enqueues; [clock_ms] is the reading
    [int(time.time() * 1000)] taken at that point. *)
Definition new_task (clock_ms : Z) (query location : string) (limit : Z) : Task :=
  {| id := "task:" ++ PyStr.str_of_int clock_ms;
     query := query; location := location; limit := limit |}.

(** The view function [search].  [fault] is the Redis call that raises
    during this request, if any; the handler [except Exception] counts a
    failure and answers 500. *)
Definition search (fault : option Call) (clock_ms : Z) (meanwhile : Store -> Store)
    (a : Args) (st : State) : Response * State :=
  let limit := _normalize_limit (match arg_limit a with
                                 | Some v => PyText v
                                 | None => PyInt 10
                                 end) in
  let use_cache :=
    String.eqb (PyStr.lower (default "true" (arg_use_cache a))) "true" in
  let handler (r : Store) (s : Stats) : Response * State :=
    (Error500, {| redis := r; stats := bump_failed s |}) in
  match arg_query a, arg_location a with
  | Some query, Some location =>
      if negb (PyStr.truthy query) || negb (PyStr.truthy location)
      then (BadRequest400, st)
      else
        let st1 := {| redis := redis st; stats := bump_total (stats st) |} in
        if use_cache && raises fault CacheGet then handler (redis st1) (stats st1)
        else
        let '(cached, st2) :=
          if use_cache then get_cached_result query location limit st1
          else (Miss, st1) in
        match cached with
        | Hit hit => (Ok200 (set_from_cache hit true), st2)
        | BadJson => handler (redis st2) (stats st2)
        | Miss =>
            if raises fault Push then handler (redis st2) (stats st2)
            else
            let task := new_task clock_ms query location limit in
            let r1 := Redis.lpush tasks_key (Json task) (redis st2) in
            match await 120 0 fault meanwhile (result_key (id task)) r1 with
            | (Found (Res result_data), r2) =>
                match status result_data with
                | StSuccess =>
                    let counted :=
                      bump_successful (captchas_solved result_data) (stats st2) in
                    if raises fault CacheSet then handler r2 counted
                    else
                      (Ok200 (set_from_cache result_data false),
                       {| redis := set_cached_result query location limit result_data r2;
                          stats := counted |})
                | StError =>
                    (Ok200 (set_from_cache result_data false),
                     {| redis := r2; stats := bump_failed (stats st2) |})
                end
            | (Found (Text _), r2) => handler r2 (stats st2)
            | (CallFailed, r2) => handler r2 (stats st2)
            | (Expired, r2) =>
                (Timeout504, {| redis := r2; stats := bump_failed (stats st2) |})
            end
        end
  | _, _ => (BadRequest400, st)
  end.

(** A request gets as far as the queue: its parameters are there and
    the cache does not answer. *)
Definition reaches_queue (a : Args) (st : State) (q l : string) : Prop :=
  arg_query a = Some q /\ arg_location a = Some l /\
  PyStr.truthy q = true /\ PyStr.truthy l = true /\
  (String.eqb (PyStr.lower (default "true" (arg_use_cache a))) "true" = false \/
   Redis.get (generate_cache_key q l
                (_normalize_limit (match arg_limit a with
                                   | Some v => PyText v
                                   | None => PyInt 10
                                   end)))
             (redis st) = None).

End Hash.

(** [key.split(':')] *)
Fixpoint split_colon (s : string) : list string :=
  match s with
  | EmptyString => [EmptyString]
  | String c s' =>
      if Ascii.eqb c ":" then EmptyString :: split_colon s'
      else match split_colon s' with
           | p :: ps => String c p :: ps
           | [] => [String c EmptyString]
           end
  end.

(** [':'.join(parts)] *)
Fixpoint join_colon (parts : list string) : string :=
  match parts with
  | [] => EmptyString
  | [p] => p
  | p :: rest => p ++ ":" ++ join_colon rest
  end.

Record WorkerInfo := mkInfo {
  info_id : string;
  last_seen : option Stored;
  ttl_seconds : Z;
  active : bool }.

(** The body of the loop of [get_workers] for one key. *)
Definition worker_info (r : Store) (key : string) : WorkerInfo :=
  let parts := split_colon key in
  let ttl := Redis.ttl key r in
  {| info_id := if (3 <=? length parts)%nat
                then join_colon (removelast (tail parts)) else key;
     last_seen := Redis.get key r;
     ttl_seconds := ttl;
     active := negb (ttl =? 0) && (0 <? ttl) |}.

(** [get_workers]: the entries of the active workers. *)
Definition get_workers (again : string -> nat) (r : Store) : list WorkerInfo :=
  List.filter active
    (map (worker_info r) (Redis.scan_iter "worker:" ":heartbeat" again r)).

(** [is_active] of the specification, read off [get_workers]: the
    executor has an entry in the answer. *)
Definition is_active (again : string -> nat) (executor_id : string) (r : Store)
    : bool :=
  existsb (fun w => String.eqb (info_id w) executor_id) (get_workers again r).

(** [get_stats]: [active_workers] and [queue_size]. *)
Definition active_workers (again : string -> nat) (r : Store) : Z :=
  Z.of_nat (length (List.filter
                      (fun key => negb (Redis.ttl key r =? 0) && (0 <? Redis.ttl key r))
                      (Redis.scan_iter "worker:" ":heartbeat" again r))).

Definition queue_size (r : Store) : Z := Redis.llen tasks_key r.

(** [clear_cache]: every key the scan of [cache:*] yields is deleted and
    counted, a key yielded twice counted twice. *)
Definition clear_cache (again : string -> nat) (r : Store) : Z * Store :=
  let found := Redis.scan_iter "cache:" "" again r in
  (Z.of_nat (length found), fold_left (fun acc key => Redis.del key acc) found r).

(** The counters of [stats] add up: every request counted was answered
    from the cache, or by a success, or by a failure. *)
Definition balanced (s : Stats) : Prop :=
  total_requests s = cache_hits s + successful s + failed s.

End Master.

(** ** The rotation of the Wit.ai keys
       ([src/solvers/captcha_solver_free.py]) *)
Module Solver.

Record FreeCaptchaSolver := mkSolver {
  wit_api_keys : list string;
  current_key_index : nat }.

(** [_get_next_wit_key]; [None] is the [IndexError] on an index out of
    range. *)
Definition _get_next_wit_key (s : FreeCaptchaSolver)
    : option (string * FreeCaptchaSolver) :=
  match wit_api_keys s !! current_key_index s with
  | None => None
  | Some key =>
      Some (key,
            {| wit_api_keys := wit_api_keys s;
               current_key_index :=
                 (current_key_index s + 1) mod length (wit_api_keys s) |})
  end.

(** [n] calls in a row: the keys drawn, in order, and the solver left. *)
Fixpoint draw (n : nat) (s : FreeCaptchaSolver)
    : option (list string * FreeCaptchaSolver) :=
  match n with
  | O => Some ([], s)
  | S n' =>
      match _get_next_wit_key s with
      | None => None
      | Some (key, s1) =>
          match draw n' s1 with
          | None => None
          | Some (more, s2) => Some (key :: more, s2)
          end
      end
  end.

End Solver.

(** ** The 2Captcha client ([src/solvers/captcha_solver.py]) *)
Module TwoCaptcha.

(** What the request to [in.php] gives: a captcha id with status 1, an
    answer with another status and its [request] text, or an exception of
    the HTTP client. *)
Inductive SubmitAnswer :=
| Accepted (captcha_id : option string)
| Refused (request : option string)
| SubmitRaised (e : string).

(** What one request to [res.php] gives: status 1 with its [request]
    entry ([None] when the entry is missing), [CAPCHA_NOT_READY], another
    answer, or an exception of the HTTP client. *)
Inductive PollAnswer :=
| Ready (token : option string)
| NotReady
| Failed (request : option string)
| PollRaised (e : string).

Inductive Outcome :=
| Token (t : string)
| Raises (e : string)
| TimedOut.                      (* TimeoutError *)

(** The polling loop of [solve_recaptcha_v2].  [elapsed] is
    [time.time() - start_time] at the test of the loop, in seconds; turn
    number [k] sleeps 5 seconds and its request takes [latency k].  The
    exception raised on a [Failed] answer, and the one that slicing a
    missing token raises, are caught by the [except Exception] of the loop
    body like those of the HTTP client.  The second component counts the
    requests made; the outer [None] says that [fuel] turns were not
    enough. *)
Fixpoint poll (fuel k : nat) (elapsed timeout : Z) (latency : nat -> Z)
    (answer : nat -> PollAnswer) : option (Outcome * nat) :=
  if elapsed <? timeout then
    match fuel with
    | O => None
    | S fuel' =>
        match answer k with
        | Ready (Some token) => Some (Token token, S k)
        | Ready None | NotReady | Failed _ | PollRaised _ =>
            poll fuel' (S k) (elapsed + 5 + latency k) timeout latency answer
        end
    end
  else Some (TimedOut, k).

(** [CaptchaSolver.solve_recaptcha_v2] *)
Definition solve_recaptcha_v2 (timeout : Z) (submit : SubmitAnswer)
    (latency : nat -> Z) (answer : nat -> PollAnswer) : option (Outcome * nat) :=
  match submit with
  | SubmitRaised e => Some (Raises e, O)
  | Refused request =>
      Some (Raises ("2Captcha error: " ++ default "Unknown error" request), O)
  | Accepted _ => poll (Z.to_nat timeout) 0 0 timeout latency answer
  end.

End TwoCaptcha.

(** ** Executors polling one queue

    Threads and processes are interleaved at the grain of the queue
    operations: [Queue.get], [Queue.put], [LPUSH] and [BRPOP] are each one
    indivisible step, as the queue and the Redis server guarantee.  A
    schedule lists the steps in the order in which they take effect. *)
Module Interleaving.

(** Steps on the queue of the thread pool in which every turn of a
    worker loop runs to its end before another thread acts: worker number
    [i] makes one turn of its loop, or a caller submits a task. *)
Inductive PoolStep :=
| Poll (i : nat) (session : nat -> Pool.Browser)
| Submit (t : Pool.Task).

(** Runs a schedule; the log lists who took which task, in order. *)
Fixpoint run_pool (steps : list PoolStep) (p : Pool.WorkerPool)
    : Pool.WorkerPool * list (nat * Pool.Task) :=
  match steps with
  | [] => (p, [])
  | Poll i session :: rest =>
      let '(p1, got) := Pool.worker_turn i session p in
      let '(p2, log) := run_pool rest p1 in
      (p2, match got with
           | Some t => (i, t) :: log
           | None => log
           end)
  | Submit t :: rest =>
      run_pool rest
        (Pool.submit_task (Pool.query t) (Pool.location t) (Pool.id t)
                          (Pool.limit t) p)
  end.

(** Steps of the threads of the pool, at the grain at which they
    interleave: the thread of worker [i] takes a task from the queue,
    enters the search for the task in its hand, or ends the search and
    puts the result; or a caller submits a task. *)
Inductive ThreadStep :=
| TTake (i : nat)
| TBegin (i : nat)
| TEnd (i : nat) (session : nat -> Pool.Browser)
| TSubmit (t : Pool.Task).

(** Runs a schedule of thread steps; the log lists who took which task,
    in order. *)
Fixpoint run_threads (steps : list ThreadStep) (st : Pool.Threads)
    : Pool.Threads * list (nat * Pool.Task) :=
  match steps with
  | [] => (st, [])
  | TTake i :: rest =>
      let '(st1, got) := Pool.take_task i st in
      let '(st2, log) := run_threads rest st1 in
      (st2, match got with
            | Some t => (i, t) :: log
            | None => log
            end)
  | TBegin i :: rest => run_threads rest (Pool.begin_search i st)
  | TEnd i session :: rest => run_threads rest (Pool.end_search i session st)
  | TSubmit t :: rest =>
      run_threads rest
        {| Pool.tpool :=
             Pool.submit_task (Pool.query t) (Pool.location t) (Pool.id t)
                              (Pool.limit t) (Pool.tpool st);
           Pool.hands := Pool.hands st |}
  end.

(** The tasks a schedule of thread steps submits. *)
Definition tsubmitted (steps : list ThreadStep) : list Pool.Task :=
  omap (fun s => match s with TSubmit t => Some t | _ => None end) steps.

(** The tasks a schedule submits. *)
Definition submitted (steps : list PoolStep) : list Pool.Task :=
  omap (fun s => match s with Submit t => Some t | Poll _ _ => None end) steps.

(** The tasks waiting on the queue, oldest first (sentinels left out). *)
Definition waiting (p : Pool.WorkerPool) : list Pool.Task :=
  omap (fun x => x) (Pool.task_queue p).

(** Steps on the Redis list: the worker process [me] makes one turn of
    its loop, or the master pushes a task. *)
Inductive ClusterStep :=
| CPoll (me : string) (site : Cluster.Site)
| CPush (t : Cluster.Task).

Fixpoint run_cluster (queue_key : string) (max_scrolls : nat)
    (steps : list ClusterStep) (r : Cluster.Store)
    : Cluster.Store * list (string * Cluster.Task) :=
  match steps with
  | [] => (r, [])
  | CPoll me site :: rest =>
      let '(r1, got) := Cluster.worker_turn me queue_key max_scrolls site r in
      let '(r2, log) := run_cluster queue_key max_scrolls rest r1 in
      (r2, match got with
           | Some t => (me, t) :: log
           | None => log
           end)
  | CPush t :: rest =>
      run_cluster queue_key max_scrolls rest
                  (Redis.lpush queue_key (Cluster.Json t) r)
  end.

Definition pushed (steps : list ClusterStep) : list Cluster.Task :=
  omap (fun s => match s with CPush t => Some t | CPoll _ _ => None end) steps.

Definition task_of (x : Cluster.Raw) : option Cluster.Task :=
  match x with
  | Cluster.Json t => Some t
  | Cluster.Garbage _ => None
  end.

(** The tasks waiting in the Redis list, oldest first: [LPUSH] adds at
    the head and [BRPOP] takes from the tail. *)
Definition cwaiting (queue_key : string) (r : Cluster.Store) : list Cluster.Task :=
  omap task_of (rev (default [] (Redis.lists r !! queue_key))).

(** Callers of [get_result] sharing [result_queue], interleaved at the
    grain of the queue operations of its loop. *)
Inductive Caller :=
| Polling                        (* at the loop test, or blocked in [get] *)
| Holding (item : Pool.Result)   (* between [get] and the test of the id *)
| Served (item : Pool.Result)    (* has returned [item] *)
| GaveUp.                        (* has returned [None] *)

Record Waiters := mkWaiters {
  shared : list Pool.Result;                      (* [result_queue] *)
  callers : list (option string * Caller) }.      (* the id asked for, the state *)

Inductive WaitStep :=
| WGet (i : nat)              (* the [get] of caller [i] takes the head *)
| WJudge (i : nat)            (* caller [i] returns its item or puts it back *)
| WDeadline (i : nat)         (* caller [i] finds its deadline passed *)
| WPublish (r : Pool.Result). (* an executor puts [r] on the queue *)

Definition wait_step (s : WaitStep) (st : Waiters) : Waiters :=
  match s with
  | WGet i =>
      match callers st !! i, shared st with
      | Some (tid, Polling), r :: q =>
          {| shared := q; callers := <[i := (tid, Holding r)]> (callers st) |}
      | _, _ => st
      end
  | WJudge i =>
      match callers st !! i with
      | Some (tid, Holding r) =>
          if Pool.wanted tid r
          then {| shared := shared st;
                  callers := <[i := (tid, Served r)]> (callers st) |}
          else {| shared := (shared st ++ [r])%list;
                  callers := <[i := (tid, Polling)]> (callers st) |}
      | _ => st
      end
  | WDeadline i =>
      match callers st !! i with
      | Some (tid, Polling) =>
          {| shared := shared st; callers := <[i := (tid, GaveUp)]> (callers st) |}
      | _ => st
      end
  | WPublish r => {| shared := (shared st ++ [r])%list; callers := callers st |}
  end.

Definition run_waiters (steps : list WaitStep) (st : Waiters) : Waiters :=
  fold_left (fun st s => wait_step s st) steps st.

(** The result a caller has in hand, if any. *)
Definition in_hand (c : option string * Caller) : list Pool.Result :=
  match snd c with
  | Holding r | Served r => [r]
  | Polling | GaveUp => []
  end.

(** All results of the system: on the queue or in the hands of a caller. *)
Definition all_results (st : Waiters) : list Pool.Result :=
  (shared st ++ concat (map in_hand (callers st)))%list.

Definition published (steps : list WaitStep) : list Pool.Result :=
  omap (fun s => match s with WPublish r => Some r | _ => None end) steps.

(** A caller is served only what it asked for. *)
Definition served_right (st : Waiters) : Prop :=
  forall i tid item,
    callers st !! i = Some (tid, Served item) -> Pool.wanted tid item = true.

End Interleaving.

(** ** What the payload is made of

    The records the collaborator hands over, described apart from the
    loops that collect them; the theorems of the section [Payloads] relate
    the two. *)
Module Payload.

(** The record read off an anchor: title and link, when it has a title. *)
Definition record_of (a : Pool.Anchor) : option (string * option string) :=
  (fun p => (Pool.title p, Pool.maps_url p)) <$> Pool.extract_place_data a 0.

Definition records (anchors : list Pool.Anchor) : list (string * option string) :=
  omap record_of anchors.

(** Records numbered from [pos] on. *)
Fixpoint numbered (pos : Z) (recs : list (string * option string)) : list Pool.Place :=
  match recs with
  | [] => []
  | (t, u) :: rest =>
      {| Pool.position := pos; Pool.title := t; Pool.maps_url := u |}
      :: numbered (pos + 1) rest
  end.

(** The stage of [_perform_search] whose records make the answer: the
    local pack, else the ordinary result page, else Maps. *)
Definition answering_stage (lim : Z) (b : Pool.Browser) : list Pool.Anchor :=
  if negb (Pool.is_empty (take (Z.to_nat lim) (records (Pool.lcl_anchors b))))
  then Pool.lcl_anchors b
  else if negb (Pool.is_empty (take (Z.to_nat lim) (records (Pool.serp_anchors b))))
  then Pool.serp_anchors b
  else Pool.maps_anchors b.

(** The title under which the scroll loop remembers a card. *)
Definition card_key (c : Cluster.Card) : string :=
  PyStr.strip (default "" (Cluster.card_title c)).

(** The cards with a title, each title once, first occurrence kept. *)
Fixpoint first_by_title (seen : gset string) (cards : list Cluster.Card)
    : list Cluster.Card :=
  match cards with
  | [] => []
  | c :: rest =>
      if negb (PyStr.truthy (card_key c)) || bool_decide (card_key c ∈ seen)
      then first_by_title seen rest
      else c :: first_by_title ({[card_key c]} ∪ seen) rest
  end.

Definition keys (cards : list Cluster.Card) : gset string :=
  list_to_set (map card_key cards).

(** The cards of the first [passes] passes of the scroll loop. *)
Definition shown (passes : nat) (page : nat -> list Cluster.Card) : list Cluster.Card :=
  concat (map page (seq 0 passes)).

End Payload.

(** ** Sample data for the worked runs *)
Module Sample.
Import Pool.

Definition anchor (t : string) : Anchor :=
  {| aria_label := Some t; href := Some ("https://maps.example/" ++ t);
     stale := false |}.

(** A results page with four places in the local pack. *)
Definition pizza_page : Browser :=
  {| nav_error := None; lcl_captcha_ok := true;
     lcl_anchors := map anchor ["Pizza A"; "Pizza B"; "Pizza C"; "Pizza D"];
     serp_captcha_ok := true; serp_anchors := [];
     maps_captcha_ok := true; maps_anchors := [] |}.

(** A page load that raises. *)
Definition broken_page (msg : string) : Browser :=
  {| nav_error := Some msg; lcl_captcha_ok := true; lcl_anchors := [];
     serp_captcha_ok := true; serp_anchors := [];
     maps_captcha_ok := true; maps_anchors := [] |}.

(** A scan that yields every key once, and one that yields every key
    twice. *)
Definition once : string -> nat := fun _ => 0%nat.
Definition twice : string -> nat := fun _ => 1%nat.

Definition fresh_worker : Worker :=
  {| wid := 1; is_busy := false; total_searches := 0;
     successful_searches := 0; failed_searches := 0; looping := true |}.

Definition one_worker_pool : WorkerPool :=
  {| workers := [fresh_worker]; task_queue := []; result_queue := [];
     is_running := true; max_retries := 2; default_limit := 20 |}.

Definition empty_pool : WorkerPool :=
  {| workers := []; task_queue := []; result_queue := [];
     is_running := true; max_retries := 2; default_limit := 20 |}.

(** The result the worker publishes for a task [tid] with limit [lim]
    when it sees [pizza_page]. *)
Definition answer (lim : Z) (tid : string) : Result :=
  tag (fst (fst (search fresh_worker lim 2 (fun _ => pizza_page)))) tid.

(** A gateway whose worker is about to publish the answer to task
    [id-1], asked with limit 2, 700 ms from now. *)
Definition server0 : Gateway.Server :=
  {| Gateway.cache_memory := ∅;
     Gateway.worker_pool :=
       Some {| now := 0; op_cost := 1;
               inflight := [(700, answer 2 "id-1")];
               pool := one_worker_pool |};
     Gateway.env_default_limit := None;
     Gateway.max_response_time := 120 |}.

(** The pool while two callers wait: the answer to another caller's
    task [id-9] is on the queue, the answer to [id-1] is on its way. *)
Definition two_waiters : World :=
  {| now := 0; op_cost := 1;
     inflight := [(700, answer 2 "id-1")];
     pool := set_result_queue one_worker_pool [answer 3 "id-9"] |}.

(** What the caller waiting for [id-1] gets, and the pool it leaves. *)
Definition waited : option Result * World :=
  default (None, two_waiters) (get_result (Some "id-1") 120000 two_waiters).

(** A gateway whose pool started no worker. *)
Definition unstaffed_world : World :=
  {| now := 0; op_cost := 1; inflight := []; pool := empty_pool |}.

Definition unstaffed_server : Gateway.Server :=
  {| Gateway.cache_memory := ∅;
     Gateway.worker_pool := Some unstaffed_world;
     Gateway.env_default_limit := None;
     Gateway.max_response_time := 120 |}.

(** A gateway whose only worker is stuck: nothing will be published. *)
Definition silent_world : World :=
  {| now := 0; op_cost := 1; inflight := []; pool := one_worker_pool |}.

Definition silent_server : Gateway.Server :=
  {| Gateway.cache_memory := ∅;
     Gateway.worker_pool := Some silent_world;
     Gateway.env_default_limit := None;
     Gateway.max_response_time := 120 |}.

Definition request (lim : string) : Gateway.Args :=
  {| Gateway.arg_query := Some "pizza";
     Gateway.arg_location := Some "Boston";
     Gateway.arg_limit := Some lim |}.

(** The cluster before any worker has started: an empty Redis. *)
Definition empty_store : Cluster.Store :=
  {| Redis.clock := 1700000000; Redis.strings := ∅; Redis.lists := ∅ |}.

Definition idle_master : Master.State :=
  {| Master.redis := empty_store;
     Master.stats := {| Master.total_requests := 0; Master.successful := 0;
                        Master.failed := 0; Master.cache_hits := 0;
                        Master.captchas_total := 0 |} |}.

Definition ask (q l : string) (lim : option string) : Master.Args :=
  {| Master.arg_query := Some q; Master.arg_location := Some l;
     Master.arg_limit := lim; Master.arg_use_cache := None |}.

(** A stand-in for the digest in the worked runs, none of which depends
    on its values. *)
Definition plain_digest (text : string) : string := text.

(** A site that shows the same three cards at every pass. *)
Definition pizza_site : Cluster.Site :=
  {| Cluster.first_get := None; Cluster.reinit := None;
     Cluster.retry_get := None;
     Cluster.blocked := false;
     Cluster.dom := fun _ =>
       [ {| Cluster.card_title := Some "Pizza A"; Cluster.card_rating := Some 45 |};
         {| Cluster.card_title := Some "Pizza B"; Cluster.card_rating := None |};
         {| Cluster.card_title := Some "Pizza C"; Cluster.card_rating := Some 39 |} ] |}.

(** One worker process, making one turn of its loop per second. *)
Definition one_worker (r : Cluster.Store) : Cluster.Store :=
  fst (Cluster.worker_turn "node-a:worker-0" Master.tasks_key 30 pizza_site r).

(** The master while a first caller, who asked for pizza in Boston at
    the clock reading 1700000000123 ms, waits for its answer. *)
Definition first_caller_waiting : Master.State :=
  {| Master.redis :=
       Redis.lpush Master.tasks_key
         (Cluster.Json (Master.new_task 1700000000123 "pizza" "Boston" 10))
         empty_store;
     Master.stats := Master.bump_total (Master.stats idle_master) |}.

(** Eight cards, two of them branches of one chain under one name. *)
Definition chain_site : Cluster.Site :=
  {| Cluster.first_get := None; Cluster.reinit := None;
     Cluster.retry_get := None;
     Cluster.blocked := false;
     Cluster.dom := fun _ =>
       map (fun t => {| Cluster.card_title := Some t; Cluster.card_rating := None |})
           ["Pizza A"; "Pizza Hut"; "Pizza B"; "Pizza C"; "Pizza Hut";
            "Pizza D"; "Pizza E"; "Pizza F"] |}.

(** What [_perform_search] returns on [pizza_page] with limit 10. *)
Definition pizza_answer : Result :=
  {| status := StSuccess; task_id := None;
     places := Payload.numbered 1
                 [("Pizza A", Some "https://maps.example/Pizza A");
                  ("Pizza B", Some "https://maps.example/Pizza B");
                  ("Pizza C", Some "https://maps.example/Pizza C");
                  ("Pizza D", Some "https://maps.example/Pizza D")];
     error := None; worker_id := Some 1; from_cache := false |}.

(** What [google_local_search] returns on [chain_site] with limit 10. *)
Definition chain_answer : Cluster.Result :=
  {| Cluster.status := Cluster.StSuccess; Cluster.task_id := None;
     Cluster.places :=
       Cluster.number_from 1
         (map (fun t => {| Cluster.card_title := Some t; Cluster.card_rating := None |})
              ["Pizza A"; "Pizza Hut"; "Pizza B"; "Pizza C";
               "Pizza D"; "Pizza E"; "Pizza F"]);
     Cluster.error := None; Cluster.search_q := Some "pizza Boston";
     Cluster.worker_id := "node-a:worker-0"; Cluster.captchas_solved := 0;
     Cluster.from_cache := false |}.

End Sample.

(* ===================================================================== *)
(** * Part II: theorems                                                   *)
(* ===================================================================== *)

(** ** Strings *)

Example lower_demo : PyStr.lower "Pizza|Boston" = "pizza|boston".
Proof. reflexivity. Qed.

Example strip_demo : PyStr.strip "  a b  " = "a b".
Proof. reflexivity. Qed.

Example int_of_str_demo :
  PyStr.int_of_str " 12 " = Some 12 /\ PyStr.int_of_str "-7" = Some (-7) /\
  PyStr.int_of_str "1_000" = Some 1000 /\ PyStr.int_of_str "3.5" = None /\
  PyStr.int_of_str "" = None /\ PyStr.int_of_str "_1" = None /\
  PyStr.int_of_str "1__0" = None /\ PyStr.int_of_str "+5" = Some 5 /\
  PyStr.int_of_str "abc" = None /\ PyStr.int_of_str "1_" = None.
Proof. repeat split; reflexivity. Qed.

(** [int()] and [str.strip()] differ on white space: the separators
    FS, GS, RS and US next to the digits make [int] raise, while tabs,
    line ends and blanks are skipped; and a text of more than 4300 digits
    makes it raise, leading zeros counted, underscores and sign not. *)
Example int_of_str_edges :
  PyStr.int_of_str (String (ascii_of_nat 28) "7") = None /\
  PyStr.int_of_str ("7" ++ String (ascii_of_nat 31) "") = None /\
  PyStr.strip (String (ascii_of_nat 28) "7") = "7" /\
  PyStr.int_of_str (String (ascii_of_nat 9) ("7" ++ String (ascii_of_nat 10) ""))
  = Some 7 /\
  PyStr.int_of_str (String (ascii_of_nat 11) ("7" ++ String (ascii_of_nat 12) " "))
  = Some 7 /\
  PyStr.int_of_str (PyStr.times 4301 "9") = None /\
  PyStr.int_of_str (PyStr.times 4301 "0") = None /\
  PyStr.int_of_str (PyStr.times 4300 "0") = Some 0 /\
  PyStr.int_of_str ("-" ++ PyStr.times 4300 "0") = Some 0 /\
  PyStr.int_of_str ("- 7") = None /\ PyStr.int_of_str "00012" = Some 12.
Proof. vm_compute. repeat split; reflexivity. Qed.

Lemma append_cancel_l (p x y : string) : p ++ x = p ++ y -> x = y.
Proof.
  induction p as [|c p IH]; cbn; [tauto|].
  intros H. injection H as H. auto.
Qed.

Lemma to_int_not_nil (z : Z) :
  Z.to_int z <> Decimal.Pos Decimal.Nil /\ Z.to_int z <> Decimal.Neg Decimal.Nil.
Proof.
  destruct z as [|q|q]; cbn; split; try discriminate;
    intros H; injection H as H;
    exact (DecimalPos.Unsigned.to_uint_nonnil q H).
Qed.

(** [str] is one-to-one on integers. *)
Lemma str_of_int_inj (a b : Z) : PyStr.str_of_int a = PyStr.str_of_int b -> a = b.
Proof.
  unfold PyStr.str_of_int. intros H.
  destruct (to_int_not_nil a) as [Ha1 Ha2], (to_int_not_nil b) as [Hb1 Hb2].
  pose proof (NilZero.isi _ Ha1 Ha2) as Ea.
  pose proof (NilZero.isi _ Hb1 Hb2) as Eb.
  rewrite H in Ea. rewrite Ea in Eb. injection Eb as Eb.
  now apply DecimalZ.to_int_inj.
Qed.

(** ** The cache fingerprint *)

(** The text hashed by the multi-host gateway tells any two limits apart. *)
Lemma key_string_limit_inj (q l : string) (a b : Z) :
  Master.key_string q l a = Master.key_string q l b -> a = b.
Proof.
  unfold Master.key_string. intros H.
  apply str_of_int_inj.
  do 4 apply append_cancel_l in H. exact H.
Qed.

(** Hence the keys of the multi-host gateway differ as soon as the digest
    does not collide on the two texts. *)
Lemma generate_cache_key_limit (md5_hex : string -> string) (q l : string) (a b : Z) :
  md5_hex (Master.key_string q l a) <> md5_hex (Master.key_string q l b) ->
  Master.generate_cache_key md5_hex q l a <> Master.generate_cache_key md5_hex q l b.
Proof.
  unfold Master.generate_cache_key. intros H E.
  apply append_cancel_l in E. contradiction.
Qed.

(** In the single-process gateway a cached answer is served whatever
    limit the request carries. *)
Lemma cache_hit_whatever_limit (uuid : string) (q l : option string)
    (lim1 lim2 : string) (n1 n2 : Z) (s : Gateway.Server) (hit : Pool.Result) :
  PyStr.int_of_str lim1 = Some n1 ->
  PyStr.int_of_str lim2 = Some n2 ->
  PyStr.truthy (PyStr.strip (default "" q)) = true ->
  PyStr.truthy (PyStr.strip (default "" l)) = true ->
  Gateway.cache_memory s
    !! Gateway.get_cache_key (PyStr.strip (default "" q)) (PyStr.strip (default "" l))
    = Some hit ->
  Gateway.search uuid (Gateway.mkArgs q l (Some lim1)) s
  = Gateway.search uuid (Gateway.mkArgs q l (Some lim2)) s.
Proof.
  intros H1 H2 Hq Hl Hhit. unfold Gateway.search, Gateway.read_limit.
  cbn [Gateway.arg_query Gateway.arg_location Gateway.arg_limit].
  now rewrite H1, H2, Hq, Hl, Hhit.
Qed.

(** C1 (defect of the single-process gateway).  [get_cache_key] reads the
    query and the location only: the requests "pizza in Boston, limit 2"
    and "pizza in Boston, limit 4" share the key [pizza|boston], and the
    second one is answered from the cache with the two places computed for
    the first, although four were asked for and the page has four. *)
Theorem single_process_key_ignores_limit :
  Gateway.get_cache_key "pizza" "Boston" = "pizza|boston" /\
  let '(first, s1) := Gateway.search "id-1" (Sample.request "2") Sample.server0 in
  let '(second, _) := Gateway.search "id-2" (Sample.request "4") s1 in
  first = Gateway.Ok200 (Gateway.set_from_cache (Sample.answer 2 "id-1") false) /\
  second = Gateway.Ok200 (Gateway.set_from_cache (Sample.answer 2 "id-1") true) /\
  length (Pool.places (Sample.answer 2 "id-1")) = 2%nat /\
  length (Pool.places (Sample.answer 4 "id-2")) = 4%nat.
Proof. vm_compute. repeat split; reflexivity. Qed.

(** ** Waiting for a result: [WorkerPool.get_result] *)
Section GetResult.
Import Pool.

Lemma land_split (t : Z) (fl : list (Z * Result)) :
  map snd fl = (fst (land t fl) ++ map snd (snd (land t fl)))%list.
Proof.
  induction fl as [|[at_ r] fl IH]; cbn; [reflexivity|].
  destruct (at_ <=? t); cbn; [|reflexivity].
  destruct (land t fl) as [rs rest]; cbn in *. now rewrite IH.
Qed.

Lemma land_future (t : Z) (fl : list (Z * Result)) a r rest :
  snd (land t fl) = (a, r) :: rest -> t < a.
Proof.
  induction fl as [|[at_ x] fl IH]; cbn; [discriminate|].
  destruct (at_ <=? t) eqn:Hat.
  - destruct (land t fl) as [rs rest']; cbn in *. exact IH.
  - cbn. intros [= <- _ _]. lia.
Qed.

(** A successful [get] takes the oldest pending result and nothing
    else; it lasts between one millisecond and the time allowed plus the
    cost of the operation. *)
Lemma queue_get_item (wait : Z) (w w1 : World) (r : Result) :
  0 <= wait ->
  queue_get wait w = (Some r, w1) ->
  pending w = r :: pending w1 /\ op_cost w1 = op_cost w /\
  now w < now w1 <= now w + wait + Z.pos (op_cost w).
Proof.
  intros Hwait. unfold queue_get, pending.
  pose proof (land_split (now w) (inflight w)) as Hsplit.
  pose proof (land_future (now w) (inflight w)) as Hfut.
  destruct (land (now w) (inflight w)) as [landed fl]; cbn in Hsplit, Hfut.
  destruct (result_queue (pool w) ++ landed)%list as [|x q] eqn:Hq.
  - destruct fl as [|[at_ x] fl'].
    + intros [=].
    + destruct (at_ <=? now w + wait) eqn:Hat; intros [= <- <-]; cbn.
      apply app_eq_nil in Hq as [Hq1 ->]. rewrite Hq1, Hsplit. cbn.
      (* the put had not landed yet: it lies in the future *)
      specialize (Hfut _ _ _ eq_refl).
      repeat split; lia.
  - intros [= <- <-]; cbn.
    rewrite Hsplit, app_assoc, Hq. cbn. repeat split; lia.
Qed.

Lemma queue_get_empty (wait : Z) (w w1 : World) :
  queue_get wait w = (None, w1) ->
  pending w1 = pending w /\ op_cost w1 = op_cost w /\ now w1 = now w + wait.
Proof.
  unfold queue_get, pending.
  pose proof (land_split (now w) (inflight w)) as Hsplit.
  destruct (land (now w) (inflight w)) as [landed fl]; cbn in Hsplit.
  destruct (result_queue (pool w) ++ landed)%list as [|x q] eqn:Hq; [|intros [=]].
  apply app_eq_nil in Hq as [Hq1 ->]. rewrite Hq1, Hsplit.
  destruct fl as [|[at_ x] fl'].
  - intros [= <-]; cbn. auto.
  - destruct (at_ <=? now w + wait); intros [= <-]; cbn. auto.
Qed.

Lemma queue_put_pending (r : Result) (w : World) :
  pending (queue_put r w) ≡ₚ r :: pending w.
Proof.
  unfold pending, queue_put; cbn.
  rewrite <- app_assoc. cbn.
  rewrite <- Permutation_middle. reflexivity.
Qed.

(** What one run of the loop guarantees, given fuel for the time left. *)
Lemma get_result_loop_spec (fuel : nat) :
  forall (tid : option string) (end_time : Z) (w : World),
    end_time - now w <= Z.of_nat fuel ->
    exists res w',
      get_result_loop fuel tid end_time w = Some (res, w') /\
      op_cost w' = op_cost w /\
      match res with
      | Some r => wanted tid r = true /\ pending w ≡ₚ r :: pending w'
      | None =>
          pending w ≡ₚ pending w' /\ end_time <= now w' /\
          now w' < Z.max (now w + 1) (end_time + 500 + Z.pos (op_cost w))
      end.
Proof.
  induction fuel as [|fuel IH]; intros tid end_time w Hfuel; cbn [get_result_loop].
  - destruct (now w <? end_time) eqn:Hnow; [lia|].
    exists None, w. repeat split; try reflexivity; lia.
  - destruct (now w <? end_time) eqn:Hnow.
    2:{ exists None, w. repeat split; try reflexivity; lia. }
    destruct (queue_get 500 w) as [[item|] w1] eqn:Hget.
    + apply queue_get_item in Hget as (Hpend & Hcost & Htime); [|lia].
      destruct (wanted tid item) eqn:Hwant.
      * exists (Some item), w1. repeat split; auto. now rewrite Hpend.
      * destruct (IH tid end_time (queue_put item w1)) as (res & w' & Hrun & Hc & Hres).
        { cbn. lia. }
        exists res, w'. split; [exact Hrun|]. split; [cbn in Hc; congruence|].
        assert (Hperm : pending w ≡ₚ pending (queue_put item w1)).
        { rewrite Hpend. symmetry. apply queue_put_pending. }
        destruct res as [r|].
        -- destruct Hres as [? Hres]. split; [assumption|].
           now rewrite Hperm.
        -- destruct Hres as (Hres & ? & Hlt). cbn in Hlt, Hc.
           split; [now rewrite Hperm|]. split; [assumption|].
           rewrite Hcost in Hlt. lia.
    + apply queue_get_empty in Hget as (Hpend & Hcost & Htime).
      destruct (IH tid end_time w1) as (res & w' & Hrun & Hc & Hres); [lia|].
      exists res, w'. split; [exact Hrun|]. split; [congruence|].
      rewrite Hpend in Hres.
      destruct res as [r|]; [exact Hres|].
      destruct Hres as (? & ? & Hlt). repeat split; try assumption.
      rewrite Hcost in Hlt. lia.
Qed.

(** *** The deadline *)





(** [get_result] always returns. *)
Lemma get_result_returns (tid : option string) (timeout : Z) (w : World) :
  exists res w', get_result tid timeout w = Some (res, w').
Proof.
  destruct (get_result_loop_spec (Z.to_nat timeout) tid (now w + timeout) w)
    as (res & w' & H & _); [lia|]. eauto.
Qed.

Lemma wanted_task_id (tid : string) (r : Result) :
  PyStr.truthy tid = true -> wanted (Some tid) r = true -> task_id r = Some tid.
Proof.
  unfold wanted. intros ->. cbn. intros H. now apply bool_decide_eq_true in H.
Qed.

(** C2 as the code has it.  A call of [get_result] that asks for a task
    id that is not empty and returns a result returns one that carries
    this id; every other result it took
    from the queue is back on it: the results pending after the call are
    the ones pending before, less the one returned, and the results of
    the other callers are all still there. *)
Theorem get_result_correlates (tid : string) (timeout : Z) (w w' : World)
    (res : option Result) :
  PyStr.truthy tid = true ->
  get_result (Some tid) timeout w = Some (res, w') ->
  match res with
  | Some r => task_id r = Some tid /\ pending w ≡ₚ r :: pending w'
  | None => pending w ≡ₚ pending w'
  end /\
  filter (fun x => task_id x <> Some tid) (pending w)
    ≡ₚ filter (fun x => task_id x <> Some tid) (pending w').
Proof.
  intros Htid Hrun.
  destruct (get_result_loop_spec (Z.to_nat timeout) (Some tid) (now w + timeout) w)
    as (res0 & w0 & Hrun0 & _ & Hspec); [lia|].
  unfold get_result in Hrun. rewrite Hrun0 in Hrun. injection Hrun as -> ->.
  destruct res as [r|].
  - destruct Hspec as [Hwant Hperm].
    apply wanted_task_id in Hwant; [|exact Htid].
    split; [split; assumption|].
    rewrite Hperm. rewrite filter_cons_False; [reflexivity|].
    intros Hne. contradiction.
  - destruct Hspec as (Hperm & _). split; [assumption|]. now rewrite Hperm.
Qed.

Lemma get_result_correlates_witness :
  match fst Sample.waited with
  | Some r =>
      task_id r = Some "id-1" /\
      pending Sample.two_waiters ≡ₚ r :: pending (snd Sample.waited)
  | None => pending Sample.two_waiters ≡ₚ pending (snd Sample.waited)
  end /\
  filter (fun x => task_id x <> Some "id-1") (pending Sample.two_waiters)
    ≡ₚ filter (fun x => task_id x <> Some "id-1") (pending (snd Sample.waited)).
Proof.
  apply (get_result_correlates "id-1" 120000 Sample.two_waiters
           (snd Sample.waited) (fst Sample.waited)).
  - reflexivity.
  - vm_compute. reflexivity.
Defined.

(** A call that asks for no id takes whatever comes first. *)
Lemma get_result_any (timeout : Z) (w w' : World) (r : Result) (tid : option string) :
  tid = None \/ tid = Some "" ->
  0 < timeout ->
  queue_get 500 w = (Some r, w') ->
  get_result tid timeout w = Some (Some r, w').
Proof.
  intros Htid Hpos Hget. unfold get_result.
  destruct (Z.to_nat timeout) as [|n] eqn:Hn; [lia|].
  cbn [get_result_loop].
  destruct (now w <? now w + timeout) eqn:Hlt; [|lia].
  rewrite Hget. now destruct Htid as [-> | ->].
Qed.

(** C2 as stated fails for a call without an id.  With [task_id] empty
    (or [None], the default of the signature) the guard of the loop accepts
    the first result whatever id it carries: the call returns the result of
    the task [id-9], which is not the id asked for, and takes it away from
    the caller that waits for [id-9]. *)
Lemma call_without_id_takes_any :
  let r9 := Sample.answer 3 "id-9" in
  let w := {| now := 0; op_cost := 1; inflight := [];
              pool := set_result_queue Sample.one_worker_pool [r9] |} in
  task_id r9 = Some "id-9" /\
  (exists w', get_result (Some "") 120000 w = Some (Some r9, w') /\
              task_id r9 <> Some "" /\
              pending w = [r9] /\ pending w' = [] /\
              filter (fun x => task_id x <> Some "") (pending w)
              <> filter (fun x => task_id x <> Some "") (pending w')) /\
  (exists w', get_result None 120000 w = Some (Some r9, w') /\ pending w' = []).
Proof.
  intros r9 w. split; [reflexivity|]. split.
  - eexists. split; [vm_compute; reflexivity|].
    split; [discriminate|]. split; [reflexivity|]. split; [reflexivity|].
    vm_compute. discriminate.
  - eexists. split; [vm_compute; reflexivity|]. reflexivity.
Qed.

(** *** Several callers at once *)

Lemma in_hand_insert (cs : list (option string * Interleaving.Caller)) (i : nat)
    (old new : option string * Interleaving.Caller) :
  cs !! i = Some old ->
  exists rest,
    concat (map Interleaving.in_hand cs) ≡ₚ (Interleaving.in_hand old ++ rest)%list /\
    concat (map Interleaving.in_hand (<[i := new]> cs))
      ≡ₚ (Interleaving.in_hand new ++ rest)%list.
Proof.
  intros Hi.
  exists (concat (map Interleaving.in_hand (take i cs))
          ++ concat (map Interleaving.in_hand (drop (S i) cs)))%list.
  rewrite <- (take_drop_middle cs i old Hi) at 1.
  rewrite (insert_take_drop cs i new) by (eapply lookup_lt_Some; eauto).
  rewrite !map_app, !concat_app. cbn [map concat].
  split.
  - rewrite (app_assoc (concat _) (Interleaving.in_hand old)).
    rewrite (Permutation_app_comm (concat _) (Interleaving.in_hand old)).
    now rewrite <- app_assoc.
  - rewrite (app_assoc (concat _) (Interleaving.in_hand new)).
    rewrite (Permutation_app_comm (concat _) (Interleaving.in_hand new)).
    now rewrite <- app_assoc.
Qed.

(** A step neither loses nor copies a result. *)
Lemma wait_step_conserves (s : Interleaving.WaitStep) (st : Interleaving.Waiters) :
  Interleaving.all_results (Interleaving.wait_step s st)
  ≡ₚ (Interleaving.all_results st ++ Interleaving.published [s])%list.
Proof.
  unfold Interleaving.all_results. destruct st as [sh cs].
  destruct s as [i|i|i|r];
    cbn [Interleaving.wait_step Interleaving.published omap list_omap
         Interleaving.shared Interleaving.callers].
  - rewrite app_nil_r.
    destruct (cs !! i) as [[tid [|item|item|]]|] eqn:Hi; try reflexivity.
    destruct sh as [|r q]; [reflexivity|].
    cbn [Interleaving.shared Interleaving.callers].
    destruct (in_hand_insert _ i _ (tid, Interleaving.Holding r) Hi)
      as (rest & H1 & H2).
    rewrite H1, H2. cbn. now rewrite Permutation_middle.
  - rewrite app_nil_r.
    destruct (cs !! i) as [[tid [|item|item|]]|] eqn:Hi; try reflexivity.
    destruct (Pool.wanted tid item); cbn [Interleaving.shared Interleaving.callers].
    + destruct (in_hand_insert _ i _ (tid, Interleaving.Served item) Hi)
        as (rest & H1 & H2).
      now rewrite H1, H2.
    + destruct (in_hand_insert _ i _ (tid, Interleaving.Polling) Hi)
        as (rest & H1 & H2).
      rewrite H1, H2. cbn. rewrite <- app_assoc. cbn.
      now rewrite <- Permutation_middle.
  - rewrite app_nil_r.
    destruct (cs !! i) as [[tid [|item|item|]]|] eqn:Hi; try reflexivity.
    cbn [Interleaving.shared Interleaving.callers].
    destruct (in_hand_insert _ i _ (tid, Interleaving.GaveUp) Hi)
      as (rest & H1 & H2).
    now rewrite H1, H2.
  - cbn. rewrite <- !app_assoc. apply Permutation_app_head.
    apply Permutation_app_comm.
Qed.

Lemma wait_step_served (s : Interleaving.WaitStep) (st : Interleaving.Waiters) :
  Interleaving.served_right st ->
  Interleaving.served_right (Interleaving.wait_step s st).
Proof.
  destruct st as [sh cs]. unfold Interleaving.served_right.
  cbn [Interleaving.callers]. intros Hinv j tid' item'.
  destruct s as [i|i|i|r];
    cbn [Interleaving.wait_step Interleaving.shared Interleaving.callers];
    try apply Hinv.
  - destruct (cs !! i) as [[tid [|item|item|]]|] eqn:Hi; try apply Hinv.
    destruct sh as [|r q]; [apply Hinv|].
    cbn [Interleaving.callers]. destruct (decide (i = j)) as [->|Hne].
    + rewrite list_lookup_insert_eq by (eapply lookup_lt_Some; eauto). discriminate.
    + rewrite list_lookup_insert_ne by exact Hne. apply Hinv.
  - destruct (cs !! i) as [[tid [|item|item|]]|] eqn:Hi; try apply Hinv.
    destruct (Pool.wanted tid item) eqn:Hw; cbn [Interleaving.callers];
      (destruct (decide (i = j)) as [->|Hne];
       [rewrite list_lookup_insert_eq by (eapply lookup_lt_Some; eauto)
       |rewrite list_lookup_insert_ne by exact Hne; apply Hinv]).
    + now intros [= <- <-].
    + discriminate.
  - destruct (cs !! i) as [[tid [|item|item|]]|] eqn:Hi; try apply Hinv.
    cbn [Interleaving.callers]. destruct (decide (i = j)) as [->|Hne].
    + rewrite list_lookup_insert_eq by (eapply lookup_lt_Some; eauto). discriminate.
    + rewrite list_lookup_insert_ne by exact Hne. apply Hinv.
Qed.

(** Whatever the interleaving of the callers and of the executors: no
    result is lost or delivered twice, and a caller that asked for an id
    is served a result of that id only. *)
Lemma waiters_never_cross (steps : list Interleaving.WaitStep) :
  forall st : Interleaving.Waiters,
    Interleaving.served_right st ->
    Interleaving.all_results (Interleaving.run_waiters steps st)
      ≡ₚ (Interleaving.all_results st ++ Interleaving.published steps)%list /\
    forall i tid item,
      PyStr.truthy tid = true ->
      Interleaving.callers (Interleaving.run_waiters steps st) !! i
        = Some (Some tid, Interleaving.Served item) ->
      task_id item = Some tid.
Proof.
  induction steps as [|s steps IH]; intros st Hinv.
  - cbn. rewrite app_nil_r. split; [reflexivity|].
    intros i tid item Htid Hi. apply wanted_task_id; [exact Htid|]. eapply Hinv, Hi.
  - unfold Interleaving.run_waiters. cbn [fold_left].
    fold (Interleaving.run_waiters steps (Interleaving.wait_step s st)).
    destruct (IH (Interleaving.wait_step s st) (wait_step_served s st Hinv))
      as [Hcons Hserved].
    split; [|exact Hserved].
    rewrite Hcons, wait_step_conserves, <- app_assoc.
    apply Permutation_app_head.
    unfold Interleaving.published. cbn [omap list_omap].
    destruct s; reflexivity.
Qed.

(** Two callers whose results arrive in the other order: each takes the
    result of the other first, puts it back, and is served its own. *)
Example two_callers_cross :
  let ra := Sample.answer 2 "id-1" in
  let rb := Sample.answer 3 "id-9" in
  let st0 := {| Interleaving.shared := [rb; ra];
                Interleaving.callers := [(Some "id-1", Interleaving.Polling);
                                         (Some "id-9", Interleaving.Polling)] |} in
  Interleaving.run_waiters
    [Interleaving.WGet 0; Interleaving.WGet 1; Interleaving.WJudge 0;
     Interleaving.WJudge 1; Interleaving.WGet 1; Interleaving.WJudge 1;
     Interleaving.WGet 0; Interleaving.WJudge 0] st0
  = {| Interleaving.shared := [];
       Interleaving.callers := [(Some "id-1", Interleaving.Served ra);
                                (Some "id-9", Interleaving.Served rb)] |}.
Proof. vm_compute. reflexivity. Qed.

End GetResult.

(** ** The single-process gateway *)
Section GatewayDispatch.
Import Pool Gateway.



(** A result for the task put on the queue one millisecond after the
    deadline of 120 s is not delivered: the answer is the time-out, given
    at the deadline, and the late result is still on its way. *)
Example late_result_not_delivered :
  let late := Sample.answer 2 "id-7" in
  let w := {| now := 0; op_cost := 1; inflight := [(120001, late)];
              pool := Sample.one_worker_pool |} in
  let s := Gateway.set_world Sample.silent_server w in
  exists s' w',
    search "id-7" (Sample.request "2") s = (Timeout504 120000, s') /\
    worker_pool s' = Some w' /\ inflight w' = [(120001, late)].
Proof. eexists _, _. split; [vm_compute; reflexivity|]. split; reflexivity. Qed.

Example silent_server_times_out :
  fst (search "id-7" (Sample.request "2") Sample.silent_server) = Timeout504 120000.
Proof. vm_compute. reflexivity. Qed.

End GatewayDispatch.

(** ** Retries of the executor: [SeleniumWorker.search] and [_worker_loop] *)
Section Retries.
Import Pool.

(** [_perform_search] reads the identity of the worker only. *)
Lemma perform_search_counters (w : Worker) busy tot suc fai lim b :
  perform_search (set_counters w busy tot suc fai) lim b = perform_search w lim b.
Proof. reflexivity. Qed.

(** The loop makes at most [n] further calls and always resets [is_busy]. *)
Lemma search_attempts_calls (n : nat) :
  forall k last w lim session,
    let '(_, w', calls) := search_attempts n k last w lim session in
    (k <= calls <= k + n)%nat /\ is_busy w' = false /\
    total_searches w' = total_searches w /\ wid w' = wid w.
Proof.
  induction n as [|n IH]; intros k last w lim session; cbn.
  - repeat split; lia.
  - destruct (perform_search w lim (session k)) as [e|r]; cbn.
    + specialize (IH (S k) (Some e) w lim session).
      destruct (search_attempts n (S k) (Some e) w lim session) as [[r' w'] calls].
      destruct IH as (? & ? & ? & ?). repeat split; auto; lia.
    + repeat split; lia.
Qed.

(** C6 as the code has it.  A worker that takes a task from the queue
    with [max_retries = 2] calls the collaborator once or twice, the second
    time only after a failure of the first; it always puts one result
    tagged with the id of the task on the result queue; when both calls
    fail this result is an error that carries the message of the second
    failure, and the counter [failed_searches] of the worker, which counts
    tasks, grows by one. *)
Theorem two_attempts_then_error (i : nat) (p : WorkerPool) (w : Worker)
    (t : Task) (q : list (option Task)) (session : nat -> Browser) :
  workers p !! i = Some w ->
  looping w = true ->
  is_running p = true ->
  task_queue p = Some t :: q ->
  max_retries p = 2 ->
  let lim := default (default_limit p) (limit t) in
  let '(r, w', calls) := search w lim 2 session in
  worker_turn i session p =
    (set_result_queue (set_task_queue (set_workers p (<[i := w']> (workers p))) q)
                      (result_queue p ++ [tag r (id t)])%list,
     Some t) /\
  (1 <= calls <= 2)%nat /\
  total_searches w' = total_searches w + 1 /\
  (forall r0, perform_search w lim (session 0%nat) = inr r0 ->
     calls = 1%nat /\ r = r0 /\
     successful_searches w' = successful_searches w + 1 /\
     failed_searches w' = failed_searches w) /\
  (forall e1 e2,
     perform_search w lim (session 0%nat) = inl e1 ->
     perform_search w lim (session 1%nat) = inl e2 ->
     calls = 2%nat /\ status r = StError /\ error r = Some e2 /\
     failed_searches w' = failed_searches w + 1 /\
     successful_searches w' = successful_searches w).
Proof.
  intros Hw Hloop Hrun Hq Hmax lim.
  unfold worker_turn. rewrite Hw, Hloop, Hrun, Hq, Hmax. cbn [negb]. fold lim.
  unfold search. change (Z.to_nat 2) with 2%nat. cbn [search_attempts].
  rewrite !perform_search_counters.
  destruct (perform_search w lim (session 0%nat)) as [e1|r0] eqn:H0.
  - destruct (perform_search w lim (session 1%nat)) as [e2|r1] eqn:H1; cbn.
    + split; [reflexivity|]. split; [lia|]. split; [reflexivity|].
      split; [discriminate|].
      intros ? ? [= <-] [= <-]. repeat split; reflexivity.
    + split; [reflexivity|]. split; [lia|]. split; [reflexivity|].
      split; discriminate.
  - cbn. split; [reflexivity|]. split; [lia|]. split; [reflexivity|].
    split; [|discriminate].
    intros ? [= <-]. repeat split; reflexivity.
Qed.

Lemma two_attempts_then_error_witness :
  let p := submit_task "pizza" "Boston" "id-3" (Some 10) Sample.one_worker_pool in
  let session := fun _ : nat => Sample.broken_page "net::ERR_TIMED_OUT" in
  let '(r, w', calls) := search Sample.fresh_worker 10 2 session in
  worker_turn 0 session p =
    (set_result_queue (set_task_queue (set_workers p (<[0%nat := w']> (workers p))) [])
                      (result_queue p ++ [tag r "id-3"])%list,
     Some {| id := "id-3"; query := "pizza"; location := "Boston"; limit := Some 10 |}) /\
  (1 <= calls <= 2)%nat /\
  total_searches w' = total_searches Sample.fresh_worker + 1 /\
  (forall r0, perform_search Sample.fresh_worker 10 (session 0%nat) = inr r0 ->
     calls = 1%nat /\ r = r0 /\
     successful_searches w' = successful_searches Sample.fresh_worker + 1 /\
     failed_searches w' = failed_searches Sample.fresh_worker) /\
  (forall e1 e2,
     perform_search Sample.fresh_worker 10 (session 0%nat) = inl e1 ->
     perform_search Sample.fresh_worker 10 (session 1%nat) = inl e2 ->
     calls = 2%nat /\ status r = StError /\ error r = Some e2 /\
     failed_searches w' = failed_searches Sample.fresh_worker + 1 /\
     successful_searches w' = successful_searches Sample.fresh_worker).
Proof.
  intros p session.
  apply (two_attempts_then_error 0
           (submit_task "pizza" "Boston" "id-3" (Some 10) Sample.one_worker_pool)
           Sample.fresh_worker
           {| id := "id-3"; query := "pizza"; location := "Boston"; limit := Some 10 |}
           [] (fun _ : nat => Sample.broken_page "net::ERR_TIMED_OUT"));
    reflexivity.
Defined.

(** C6 as stated fails on the counter, and on the number of calls when
    the first one succeeds.  A fresh worker whose two page loads fail ends
    with [failed_searches = 1], not 2; a worker whose first call succeeds
    makes one call, not two. *)
Lemma failed_counter_counts_tasks :
  (let '(r, w', calls) :=
     search Sample.fresh_worker 10 2 (fun _ => Sample.broken_page "net::ERR_TIMED_OUT") in
   calls = 2%nat /\ status r = StError /\ error r = Some "net::ERR_TIMED_OUT" /\
   failed_searches Sample.fresh_worker = 0 /\
   failed_searches w' = 1 /\ failed_searches w' <> 2) /\
  (let '(r, w', calls) := search Sample.fresh_worker 10 2 (fun _ => Sample.pizza_page) in
   status r = StSuccess /\ calls = 1%nat /\ calls <> 2%nat).
Proof. vm_compute. repeat split; (reflexivity || discriminate). Qed.

End Retries.

(** ** Executors polling one queue: each task is taken once *)
Section ClaimOnce.
Import Interleaving.

Lemma pool_turn_takes_head (i : nat) session (p p1 : Pool.WorkerPool) got :
  Pool.worker_turn i session p = (p1, got) ->
  waiting p = (match got with Some t => [t] | None => [] end ++ waiting p1)%list.
Proof.
  unfold Pool.worker_turn, waiting.
  destruct (Pool.workers p !! i) as [w|]; [|intros [= <- <-]; reflexivity].
  destruct (Pool.looping w); cbn [negb]; [|intros [= <- <-]; reflexivity].
  destruct (Pool.is_running p); cbn [negb]; [|intros [= <- <-]; reflexivity].
  destruct (Pool.task_queue p) as [|[t|] q] eqn:Hq.
  - intros [= <- <-]. cbn. now rewrite Hq.
  - destruct (Pool.search _ _ _ _) as [[r w'] calls].
    intros [= <- <-]. reflexivity.
  - intros [= <- <-]. reflexivity.
Qed.

Lemma pool_submit_waiting q l t lim (p : Pool.WorkerPool) :
  waiting (Pool.submit_task q l t lim p) =
  (waiting p ++ [{| Pool.id := t; Pool.query := q; Pool.location := l;
                    Pool.limit := lim |}])%list.
Proof. unfold waiting, Pool.submit_task; cbn. now rewrite omap_app. Qed.

(** Nothing is lost and nothing is taken twice: the tasks taken, in the
    order of the log, followed by the tasks still waiting, are the tasks
    that were waiting followed by the tasks submitted. *)
Lemma run_pool_conserves (steps : list PoolStep) :
  forall p : Pool.WorkerPool,
    (waiting p ++ submitted steps)%list =
    (map snd (snd (run_pool steps p)) ++ waiting (fst (run_pool steps p)))%list.
Proof.
  induction steps as [|[i session|t] steps IH]; intros p.
  - cbn. now rewrite app_nil_r.
  - change (submitted (Poll i session :: steps)) with (submitted steps).
    cbn [run_pool].
    destruct (Pool.worker_turn i session p) as [p1 got] eqn:Hturn.
    apply pool_turn_takes_head in Hturn.
    specialize (IH p1). destruct (run_pool steps p1) as [p2 log].
    cbn [fst snd] in *.
    rewrite Hturn, <- app_assoc, IH. now destruct got.
  - change (submitted (Submit t :: steps)) with (t :: submitted steps).
    cbn [run_pool]. rewrite <- IH, pool_submit_waiting, <- app_assoc.
    now destruct t.
Qed.

Lemma brpop_takes_oldest (key : string) (r r1 : Cluster.Store) got :
  Redis.brpop key r = (got, r1) ->
  rev (default [] (Redis.lists r !! key)) =
  (match got with Some x => [x] | None => [] end
   ++ rev (default [] (Redis.lists r1 !! key)))%list.
Proof.
  unfold Redis.brpop.
  destruct (default [] (Redis.lists r !! key)) as [|x l] eqn:Hl using rev_ind.
  - cbn. intros [= <- <-]. now rewrite Hl.
  - rewrite last_snoc. intros [= <- <-]. cbn.
    rewrite lookup_insert_eq. cbn.
    rewrite removelast_last, rev_app_distr. reflexivity.
Qed.

Lemma cluster_turn_takes_oldest me key n site (r r1 : Cluster.Store) got :
  Cluster.worker_turn me key n site r = (r1, got) ->
  cwaiting key r =
  (match got with Some t => [t] | None => [] end ++ cwaiting key r1)%list.
Proof.
  unfold Cluster.worker_turn, cwaiting.
  destruct (Redis.brpop key r) as [[[t|g]|] r0] eqn:Hpop;
    apply brpop_takes_oldest in Hpop; rewrite Hpop; intros [= <- <-].
  - cbn. unfold Redis.setex. reflexivity.
  - reflexivity.
  - reflexivity.
Qed.

Lemma lpush_waiting key t (r : Cluster.Store) :
  cwaiting key (Redis.lpush key (Cluster.Json t) r) = (cwaiting key r ++ [t])%list.
Proof.
  unfold cwaiting, Redis.lpush; cbn.
  rewrite lookup_insert_eq. cbn. now rewrite omap_app.
Qed.

Lemma run_cluster_conserves key n (steps : list ClusterStep) :
  forall r : Cluster.Store,
    (cwaiting key r ++ pushed steps)%list =
    (map snd (snd (run_cluster key n steps r))
     ++ cwaiting key (fst (run_cluster key n steps r)))%list.
Proof.
  induction steps as [|[me site|t] steps IH]; intros r.
  - cbn. now rewrite app_nil_r.
  - change (pushed (CPoll me site :: steps)) with (pushed steps).
    cbn [run_cluster].
    destruct (Cluster.worker_turn me key n site r) as [r1 got] eqn:Hturn.
    apply cluster_turn_takes_oldest in Hturn.
    specialize (IH r1). destruct (run_cluster key n steps r1) as [r2 log].
    cbn [fst snd] in *.
    rewrite Hturn, <- app_assoc, IH. now destruct got.
  - change (pushed (CPush t :: steps)) with (t :: pushed steps).
    cbn [run_cluster]. rewrite <- IH, lpush_waiting, <- app_assoc.
    reflexivity.
Qed.

(** In a log whose tasks are pairwise distinct a task has one taker. *)
Lemma one_taker {W T : Type} (log : list (W * T)) (i j : W) (t : T) :
  NoDup (map snd log) -> (i, t) ∈ log -> (j, t) ∈ log -> i = j.
Proof.
  induction log as [|[k u] log IH]; cbn; intros Hnd Hi Hj.
  - inversion Hi.
  - apply NoDup_cons in Hnd as [Hnotin Hnd].
    assert (Hfresh : forall w, (w, u) ∉ log).
    { intros w Hin. apply Hnotin, list_elem_of_In, in_map_iff.
      exists (w, u). split; [reflexivity|]. now apply list_elem_of_In. }
    apply elem_of_cons in Hi as [Hi|Hi]; apply elem_of_cons in Hj as [Hj|Hj].
    + congruence.
    + injection Hi as -> ->. destruct (Hfresh j Hj).
    + injection Hj as -> ->. destruct (Hfresh i Hi).
    + auto.
Qed.

(** A poll of a live worker takes the oldest task when there is one. *)
Lemma pool_poll_takes (i : nat) session (p : Pool.WorkerPool) w t q :
  Pool.workers p !! i = Some w -> Pool.looping w = true ->
  Pool.is_running p = true -> Pool.task_queue p = Some t :: q ->
  snd (Pool.worker_turn i session p) = Some t.
Proof.
  intros Hw Hl Hr Hq. unfold Pool.worker_turn. rewrite Hw, Hl, Hr, Hq. cbn.
  now destruct (Pool.search _ _ _ _) as [[r w'] calls].
Qed.

Lemma cluster_poll_takes me key n site (r : Cluster.Store) l t :
  Redis.lists r !! key = Some (l ++ [Cluster.Json t])%list ->
  snd (Cluster.worker_turn me key n site r) = Some t.
Proof.
  intros Hl. unfold Cluster.worker_turn, Redis.brpop. rewrite Hl. cbn.
  now rewrite last_snoc.
Qed.

(** *** The threads of the pool, step by step *)

Lemma take_task_head (i : nat) (st st1 : Pool.Threads) got :
  Pool.take_task i st = (st1, got) ->
  waiting (Pool.tpool st)
  = (match got with Some t => [t] | None => [] end ++ waiting (Pool.tpool st1))%list.
Proof.
  unfold Pool.take_task, waiting.
  destruct (Pool.workers (Pool.tpool st) !! i) as [w|]; [|intros [= <- <-]; reflexivity].
  destruct (Pool.hands st !! i) as [[|t|t]|]; try (intros [= <- <-]; reflexivity).
  destruct (Pool.looping w); cbn [negb]; [|intros [= <- <-]; reflexivity].
  destruct (Pool.is_running (Pool.tpool st)); cbn [negb];
    [|intros [= <- <-]; reflexivity].
  destruct (Pool.task_queue (Pool.tpool st)) as [|[t|] q] eqn:Hq.
  - intros [= <- <-]. cbn. now rewrite Hq.
  - intros [= <- <-]. reflexivity.
  - intros [= <- <-]. reflexivity.
Qed.

Lemma begin_search_queue (i : nat) (st : Pool.Threads) :
  Pool.task_queue (Pool.tpool (Pool.begin_search i st))
  = Pool.task_queue (Pool.tpool st).
Proof.
  unfold Pool.begin_search.
  destruct (Pool.workers (Pool.tpool st) !! i) as [w|]; [|reflexivity].
  now destruct (Pool.hands st !! i) as [[|t|t]|].
Qed.

Lemma end_search_queue (i : nat) session (st : Pool.Threads) :
  Pool.task_queue (Pool.tpool (Pool.end_search i session st))
  = Pool.task_queue (Pool.tpool st).
Proof.
  unfold Pool.end_search.
  destruct (Pool.workers (Pool.tpool st) !! i) as [w|]; [|reflexivity].
  destruct (Pool.hands st !! i) as [[|t|t]|]; try reflexivity.
  now destruct (Pool.search_attempts _ _ _ _ _ _) as [[r w'] calls].
Qed.

Lemma run_threads_conserves (steps : list ThreadStep) :
  forall st : Pool.Threads,
    (waiting (Pool.tpool st) ++ tsubmitted steps)%list =
    (map snd (snd (run_threads steps st))
     ++ waiting (Pool.tpool (fst (run_threads steps st))))%list.
Proof.
  induction steps as [|[i|i|i session|t] steps IH]; intros st.
  - cbn. now rewrite app_nil_r.
  - change (tsubmitted (TTake i :: steps)) with (tsubmitted steps).
    cbn [run_threads].
    destruct (Pool.take_task i st) as [st1 got] eqn:Hturn.
    apply take_task_head in Hturn.
    specialize (IH st1). destruct (run_threads steps st1) as [st2 log].
    cbn [fst snd] in *.
    rewrite Hturn, <- app_assoc, IH. now destruct got.
  - change (tsubmitted (TBegin i :: steps)) with (tsubmitted steps).
    cbn [run_threads]. rewrite <- IH. unfold waiting. now rewrite begin_search_queue.
  - change (tsubmitted (TEnd i session :: steps)) with (tsubmitted steps).
    cbn [run_threads]. rewrite <- IH. unfold waiting. now rewrite end_search_queue.
  - change (tsubmitted (TSubmit t :: steps)) with (t :: tsubmitted steps).
    cbn [run_threads]. rewrite <- IH. cbn [Pool.tpool].
    rewrite pool_submit_waiting, <- app_assoc. now destruct t.
Qed.

(** A thread at the head of its loop takes the oldest task when there is
    one, and holds it. *)
Lemma take_task_takes (i : nat) (st : Pool.Threads) w t q :
  Pool.workers (Pool.tpool st) !! i = Some w ->
  Pool.hands st !! i = Some Pool.Idle ->
  Pool.looping w = true ->
  Pool.is_running (Pool.tpool st) = true ->
  Pool.task_queue (Pool.tpool st) = Some t :: q ->
  Pool.take_task i st
  = ({| Pool.tpool := Pool.set_task_queue (Pool.tpool st) q;
        Pool.hands := <[i := Pool.Holding t]> (Pool.hands st) |}, Some t).
Proof.
  intros Hw Hh Hl Hr Hq. unfold Pool.take_task. now rewrite Hw, Hh, Hl, Hr, Hq.
Qed.

(** The turn of [worker_turn] is the three steps of a thread in a row. *)
Lemma worker_turn_steps (i : nat) (session : nat -> Pool.Browser)
    (st : Pool.Threads) :
  Pool.hands st !! i = Some Pool.Idle ->
  Pool.worker_turn i session (Pool.tpool st)
  = (Pool.tpool (Pool.end_search i session
                   (Pool.begin_search i (fst (Pool.take_task i st)))),
     snd (Pool.take_task i st)).
Proof.
  intros Hh. destruct st as [p hs]. cbn [Pool.tpool Pool.hands] in *.
  assert (Hlt : (i < length hs)%nat) by (eapply lookup_lt_Some; eauto).
  assert (Hidle : forall p', Pool.tpool
            (Pool.end_search i session
               (Pool.begin_search i {| Pool.tpool := p'; Pool.hands := hs |})) = p').
  { intros p'.
    assert (Hb : Pool.begin_search i {| Pool.tpool := p'; Pool.hands := hs |}
                 = {| Pool.tpool := p'; Pool.hands := hs |}).
    { unfold Pool.begin_search. cbn [Pool.tpool Pool.hands]. rewrite Hh.
      now destruct (Pool.workers p' !! i). }
    rewrite Hb. unfold Pool.end_search. cbn [Pool.tpool Pool.hands]. rewrite Hh.
    now destruct (Pool.workers p' !! i). }
  unfold Pool.worker_turn, Pool.take_task. cbn [Pool.tpool Pool.hands]. rewrite Hh.
  destruct (Pool.workers p !! i) as [w|] eqn:Hw.
  2:{ cbn [fst snd]. now rewrite Hidle. }
  assert (Hwl : (i < length (Pool.workers p))%nat) by (eapply lookup_lt_Some; eauto).
  destruct (Pool.looping w) eqn:Hl; cbn [negb fst snd]; [|now rewrite Hidle].
  destruct (Pool.is_running p) eqn:Hr; cbn [negb fst snd]; [|now rewrite Hidle].
  destruct (Pool.task_queue p) as [|[t|] q] eqn:Hq; cbn [fst snd];
    [now rewrite Hidle| |now rewrite Hidle].
  unfold Pool.begin_search. cbn [Pool.tpool Pool.hands Pool.set_task_queue Pool.workers].
  rewrite Hw, list_lookup_insert_eq by exact Hlt.
  unfold Pool.end_search.
  cbn [Pool.tpool Pool.hands Pool.set_workers Pool.workers Pool.max_retries
       Pool.default_limit Pool.result_queue].
  rewrite !list_lookup_insert_eq by (rewrite ?length_insert; assumption).
  unfold Pool.search.
  destruct (Pool.search_attempts _ _ _ _ _ _) as [[r w'] calls].
  cbn [Pool.tpool]. rewrite list_insert_insert_eq. reflexivity.
Qed.

(** C3.  Whatever the number of executors and the order in which their
    operations interleave, in the thread pool and on the Redis list alike.
    An executor that asks the queue for work when a task is at its head
    takes that task, which leaves the queue into the hand of this executor.
    The tasks taken, in the order of the log, followed by the tasks still
    waiting are exactly the tasks enqueued, in the order of their arrival;
    hence no task is lost when it is taken, a task has at most one taker,
    and once the queue is drained every task has been taken. *)
Theorem each_task_claimed_once :
  (forall (i : nat) (st : Pool.Threads) w t q,
     Pool.workers (Pool.tpool st) !! i = Some w ->
     Pool.hands st !! i = Some Pool.Idle ->
     Pool.looping w = true ->
     Pool.is_running (Pool.tpool st) = true ->
     Pool.task_queue (Pool.tpool st) = Some t :: q ->
     snd (run_threads [TTake i] st) = [(i, t)] /\
     Pool.task_queue (Pool.tpool (fst (run_threads [TTake i] st))) = q /\
     Pool.hands (fst (run_threads [TTake i] st)) !! i = Some (Pool.Holding t)) /\
  (forall (steps : list ThreadStep) (st : Pool.Threads),
     let enqueued := (waiting (Pool.tpool st) ++ tsubmitted steps)%list in
     let '(st', log) := run_threads steps st in
     enqueued = (map snd log ++ waiting (Pool.tpool st'))%list /\
     (NoDup enqueued ->
        NoDup (map snd log) /\
        forall i j t, (i, t) ∈ log -> (j, t) ∈ log -> i = j) /\
     (waiting (Pool.tpool st') = [] ->
        forall t, t ∈ enqueued -> exists i, (i, t) ∈ log)) /\
  (forall (me key : string) (n : nat) (site : Cluster.Site) (r : Cluster.Store)
          (older : list Cluster.Raw) (t : Cluster.Task),
     Redis.lists r !! key = Some (older ++ [Cluster.Json t])%list ->
     snd (run_cluster key n [CPoll me site] r) = [(me, t)] /\
     Redis.lists (fst (run_cluster key n [CPoll me site] r)) !! key = Some older) /\
  (forall (key : string) (n : nat) (steps : list ClusterStep) (r : Cluster.Store),
     let enqueued := (cwaiting key r ++ pushed steps)%list in
     let '(r', log) := run_cluster key n steps r in
     enqueued = (map snd log ++ cwaiting key r')%list /\
     (NoDup enqueued ->
        NoDup (map snd log) /\
        forall i j t, (i, t) ∈ log -> (j, t) ∈ log -> i = j) /\
     (cwaiting key r' = [] -> forall t, t ∈ enqueued -> exists i, (i, t) ∈ log)).
Proof.
  assert (Hgen : forall (W T : Type) (enq rest : list T) (log : list (W * T)),
             enq = (map snd log ++ rest)%list ->
             (NoDup enq ->
                NoDup (map snd log) /\
                forall i j t, (i, t) ∈ log -> (j, t) ∈ log -> i = j) /\
             (rest = [] -> forall t, t ∈ enq -> exists i, (i, t) ∈ log)).
  { intros W T enq rest log ->. split.
    - intros Hnd. apply NoDup_app in Hnd as (Hnd & _).
      split; [exact Hnd|]. intros i j t. now apply one_taker.
    - intros -> t. rewrite app_nil_r. intros Hin.
      apply list_elem_of_In, in_map_iff in Hin as ([i u] & <- & Hin).
      exists i. now apply list_elem_of_In. }
  split; [|split; [|split]].
  - intros i st w t q Hw Hh Hl Hr Hq. cbn [run_threads].
    rewrite (take_task_takes i st w t q Hw Hh Hl Hr Hq). cbn.
    split; [reflexivity|]. split; [reflexivity|].
    apply list_lookup_insert_eq. eapply lookup_lt_Some; eauto.
  - intros steps st enqueued.
    pose proof (run_threads_conserves steps st) as Hc.
    destruct (run_threads steps st) as [st' log]; cbn [fst snd] in Hc.
    split; [exact Hc|]. now apply Hgen.
  - intros me key n site r older t Hl. cbn [run_cluster].
    unfold Cluster.worker_turn, Redis.brpop. rewrite Hl.
    change (default [] (Some (older ++ [Cluster.Json t])%list))
      with (older ++ [Cluster.Json t])%list.
    rewrite last_snoc, removelast_last. cbn [fst snd]. split; [reflexivity|].
    unfold Redis.setex. cbn [Z.ltb Z.compare default Redis.lists].
    apply lookup_insert_eq.
  - intros key n steps r enqueued.
    pose proof (run_cluster_conserves key n steps r) as Hc.
    destruct (run_cluster key n steps r) as [r' log]; cbn [fst snd] in Hc.
    split; [exact Hc|]. now apply Hgen.
Qed.

Lemma each_task_claimed_once_witness :
  let t := {| Pool.id := "a"; Pool.query := "pizza"; Pool.location := "Boston";
              Pool.limit := Some 2 |} in
  let st := Pool.idle_threads
              (Pool.submit_task "pizza" "Boston" "a" (Some 2) Sample.one_worker_pool) in
  snd (run_threads [TTake 0] st) = [(0%nat, t)] /\
  Pool.task_queue (Pool.tpool (fst (run_threads [TTake 0] st))) = [] /\
  Pool.hands (fst (run_threads [TTake 0] st)) !! 0%nat = Some (Pool.Holding t).
Proof.
  intros t st.
  apply (proj1 each_task_claimed_once 0%nat st Sample.fresh_worker t []);
    reflexivity.
Defined.

(** Two threads side by side: worker 1 takes the second task while the
    search of worker 0 for the first is still running, and ends first. *)
Example two_threads_interleaved :
  let t := fun n => {| Pool.id := n; Pool.query := "pizza";
                       Pool.location := "Boston"; Pool.limit := Some 2 |} in
  let see := fun _ : nat => Sample.pizza_page in
  let p0 := Pool.set_workers Sample.one_worker_pool
                             [Sample.fresh_worker; Sample.fresh_worker] in
  let out := run_threads [TSubmit (t "a"); TSubmit (t "b"); TTake 0; TBegin 0;
                          TTake 1; TTake 0; TBegin 1; TEnd 1 see; TEnd 0 see]
                         (Pool.idle_threads p0) in
  snd out = [(0%nat, t "a"); (1%nat, t "b")] /\
  map Pool.task_id (Pool.result_queue (Pool.tpool (fst out)))
  = [Some "b"; Some "a"] /\
  Pool.hands (fst out) = [Pool.Idle; Pool.Idle].
Proof. vm_compute. repeat split; reflexivity. Qed.

(** Three tasks, two workers polling in turn: worker 0 takes the first
    and the third, worker 1 the second. *)
Example three_tasks_two_workers :
  let t := fun n => {| Pool.id := n; Pool.query := "pizza";
                       Pool.location := "Boston"; Pool.limit := Some 2 |} in
  let see := fun _ : nat => Sample.pizza_page in
  let p0 := Pool.set_workers Sample.one_worker_pool
                             [Sample.fresh_worker; Sample.fresh_worker] in
  snd (run_pool [Submit (t "a"); Submit (t "b"); Poll 0 see; Submit (t "c");
                 Poll 1 see; Poll 0 see; Poll 1 see] p0)
  = [(0%nat, t "a"); (1%nat, t "b"); (0%nat, t "c")].
Proof. vm_compute. reflexivity. Qed.

End ClaimOnce.

(** ** The multi-host gateway *)
Section MasterSearch.
Import Cluster Master.

Lemma get_elapse_none (key : string) (dt : Z) (r : Store) :
  0 <= dt -> Redis.get key r = None -> Redis.get key (Redis.elapse dt r) = None.
Proof.
  unfold Redis.get, Redis.lookup_live, Redis.elapse, Redis.alive; cbn.
  intros Hdt. destruct (Redis.strings r !! key) as [e|]; [|reflexivity].
  destruct (Redis.expires e) as [t|]; [|discriminate].
  destruct (Redis.clock r <? t) eqn:H1; [discriminate|].
  destruct (Redis.clock r + dt <? t) eqn:H2; [lia|reflexivity].
Qed.

(** A wait during which nobody publishes under the result key uses up
    its time. *)
Lemma await_quiet (n : nat) (key : string) (meanwhile : Store -> Store) :
  (forall r, Redis.clock (meanwhile r) = Redis.clock r) ->
  (forall r, Redis.get key r = None -> Redis.get key (meanwhile r) = None) ->
  forall (k : nat) (r : Store),
    Redis.get key r = None ->
    fst (await n k None meanwhile key r) = Expired /\
    Redis.clock (snd (await n k None meanwhile key r)) = Redis.clock r + Z.of_nat n.
Proof.
  intros Hclock Hquiet.
  induction n as [|n IH]; intros k r Hget.
  - cbn. split; [reflexivity|lia].
  - cbn [await raises]. rewrite Hget.
    destruct (IH (S k) (Redis.elapse 1 (meanwhile r))) as [Hout Hc].
    { apply get_elapse_none; [lia|]. now apply Hquiet. }
    split; [exact Hout|]. rewrite Hc. cbn. rewrite Hclock. lia.
Qed.

(** Whatever it finds, a wait during which nobody touches the lists
    leaves them alone. *)
Lemma await_lists (n : nat) (key : string) (fault : option Call)
    (meanwhile : Store -> Store) :
  (forall r, Redis.lists (meanwhile r) = Redis.lists r) ->
  forall (k : nat) (r : Store),
    Redis.lists (snd (await n k fault meanwhile key r)) = Redis.lists r.
Proof.
  intros Hlists.
  induction n as [|n IH]; intros k r; cbn [await]; [reflexivity|].
  destruct (raises fault (Poll k)); [reflexivity|].
  destruct (Redis.get key r) as [[s0|res]|].
  - destruct (PyStr.truthy s0); [reflexivity|]. rewrite IH. cbn. apply Hlists.
  - now destruct (raises fault Delete).
  - rewrite IH. cbn. apply Hlists.
Qed.

(** What the gateway makes of limits that [int] rejects. *)
Example normalize_limit_edges :
  _normalize_limit (PyText (String (ascii_of_nat 28) "7")) = 10 /\
  _normalize_limit (PyText (PyStr.times 4301 "9")) = 10 /\
  _normalize_limit (PyText (PyStr.times 4300 "9")) = 50 /\
  _normalize_limit (PyText " 7 ") = 7.
Proof. vm_compute. repeat split; reflexivity. Qed.

Lemma normalize_limit_range (raw : PyVal) : 1 <= _normalize_limit raw <= 50.
Proof. unfold _normalize_limit. destruct (py_int raw); lia. Qed.

(** A request that reaches the queue is pushed on it, whether or not any
    executor is alive; as long as nobody takes it, it stays at the head of
    the list, and when nobody publishes a result for it the gateway gives
    up after 120 s and counts a failure. *)
Lemma master_pushes_quiet (md5_hex : string -> string) (clock_ms : Z)
    (meanwhile : Store -> Store) (a : Args) (st : State) (q l : string) :
  Master.reaches_queue md5_hex a st q l ->
  (forall r, Redis.lists (meanwhile r) = Redis.lists r) ->
  let lim := _normalize_limit (match arg_limit a with
                               | Some v => PyText v
                               | None => PyInt 10
                               end) in
  let task := new_task clock_ms q l lim in
  let out := search md5_hex None clock_ms meanwhile a st in
  Redis.lists (redis (snd out)) !! tasks_key
    = Some (Json task :: default [] (Redis.lists (redis st) !! tasks_key)) /\
  ((forall r, Redis.clock (meanwhile r) = Redis.clock r) ->
   (forall r, Redis.get (result_key (id task)) r = None ->
              Redis.get (result_key (id task)) (meanwhile r) = None) ->
   Redis.get (result_key (id task)) (redis st) = None ->
   fst out = Timeout504 /\
   Redis.clock (redis (snd out)) = Redis.clock (redis st) + 120 /\
   failed (stats (snd out)) = failed (stats st) + 1).
Proof.
  intros (Hq & Hl & Htq & Htl & Hmiss) Hlists lim task out.
  unfold out, search. cbn [raises]. rewrite Hq, Hl, Htq, Htl, andb_false_r.
  cbn [negb orb]. fold lim.
  set (st1 := {| redis := redis st; stats := bump_total (stats st) |}).
  assert (Hc : (if String.eqb (PyStr.lower (default "true" (arg_use_cache a))) "true"
                then get_cached_result md5_hex q l lim st1 else (Miss, st1))
               = (Miss, st1)).
  { destruct Hmiss as [-> | Hget]; [reflexivity|].
    destruct (String.eqb _ _); [|reflexivity].
    unfold get_cached_result. cbn [redis st1]. fold lim in Hget. now rewrite Hget. }
  rewrite Hc. fold task.
  set (r1 := Redis.lpush tasks_key (Json task) (redis st1)).
  assert (Hl1 : Redis.lists r1 !! tasks_key
                = Some (Json task :: default [] (Redis.lists (redis st) !! tasks_key))).
  { unfold r1, Redis.lpush; cbn. now rewrite lookup_insert_eq. }
  split.
  - pose proof (await_lists 120 (result_key (id task)) None meanwhile Hlists 0 r1)
      as Hkeep.
    destruct (await 120 0 None meanwhile (result_key (id task)) r1)
      as [[[s0|res]| |] r2];
      cbn [snd] in Hkeep; cbn [fst snd redis].
    + now rewrite Hkeep.
    + destruct (status res); cbn [snd redis].
      * unfold set_cached_result, Redis.setex. cbn. now rewrite Hkeep.
      * now rewrite Hkeep.
    + now rewrite Hkeep.
    + now rewrite Hkeep.
  - intros Hclock Hquiet Hnone.
    destruct (await_quiet 120 (result_key (id task)) meanwhile Hclock Hquiet 0 r1)
      as [Hout Hclk]; [exact Hnone|].
    destruct (await 120 0 None meanwhile (result_key (id task)) r1) as [wt r2].
    cbn [fst snd] in Hout, Hclk. subst wt. cbn [fst snd redis stats].
    split; [reflexivity|]. split; [rewrite Hclk; cbn; lia|reflexivity].
Qed.


End MasterSearch.

Section Dispatch.
Import Pool.

(** C4 as the code has it.  The single-process gateway answers a valid
    request that misses the cache with the no-worker error when its pool
    has no registered worker, and changes nothing: no task is enqueued.
    The multi-host gateway has no such test: a request that reaches the
    queue is pushed whatever heartbeats there are; as long as no executor
    takes it the task stays at the head of the list, and when no result is
    published for it the gateway answers with the time-out error after the
    wait of 120 seconds and counts a failure. *)
Theorem dispatch_without_executor
    (uuid : string) (a : Gateway.Args) (s : Gateway.Server) (w : World) (lim : Z)
    (md5_hex : string -> string) (clock_ms : Z)
    (meanwhile : Cluster.Store -> Cluster.Store) (ma : Master.Args)
    (st : Master.State) (q l : string) :
  Gateway.read_limit a s = Some lim ->
  PyStr.truthy (PyStr.strip (default "" (Gateway.arg_query a))) = true ->
  PyStr.truthy (PyStr.strip (default "" (Gateway.arg_location a))) = true ->
  Gateway.cache_memory s
    !! Gateway.get_cache_key (PyStr.strip (default "" (Gateway.arg_query a)))
                             (PyStr.strip (default "" (Gateway.arg_location a))) = None ->
  Gateway.worker_pool s = Some w ->
  workers (pool w) = [] ->
  Master.reaches_queue md5_hex ma st q l ->
  let task := Master.new_task clock_ms q l
                (Master._normalize_limit (match Master.arg_limit ma with
                                          | Some v => Master.PyText v
                                          | None => Master.PyInt 10
                                          end)) in
  let key := Cluster.result_key (Cluster.id task) in
  (forall r, Redis.lists (meanwhile r) = Redis.lists r) ->
  (forall r, Redis.clock (meanwhile r) = Redis.clock r) ->
  (forall r, Redis.get key r = None -> Redis.get key (meanwhile r) = None) ->
  Redis.get key (Master.redis st) = None ->
  let out := Master.search md5_hex None clock_ms meanwhile ma st in
  Gateway.search uuid a s = (Gateway.NoWorker503, s) /\
  fst out = Master.Timeout504 /\
  Redis.clock (Master.redis (snd out)) = Redis.clock (Master.redis st) + 120 /\
  Master.failed (Master.stats (snd out)) = Master.failed (Master.stats st) + 1 /\
  Redis.lists (Master.redis (snd out)) !! Master.tasks_key
  = Some (Cluster.Json task
          :: default [] (Redis.lists (Master.redis st) !! Master.tasks_key)).
Proof.
  intros Hlim Hq Hl Hmiss Hpool Hws Hreach task key Hlists Hclock Hquiet Hnone out.
  split.
  - unfold Gateway.search. rewrite Hlim, Hq, Hl. cbn [negb orb].
    rewrite Hmiss, Hpool.
    unfold available_workers, busy_workers, total_workers. now rewrite Hws.
  - destruct (master_pushes_quiet md5_hex clock_ms meanwhile ma st q l Hreach Hlists)
      as [Hlist Hout].
    destruct (Hout Hclock Hquiet Hnone) as (Hresp & Hclk & Hfail).
    repeat split; assumption.
Qed.

Lemma dispatch_without_executor_witness :
  let task := Master.new_task 1700000000123 "pizza" "Boston" 10 in
  let out := Master.search Sample.plain_digest None 1700000000123 (fun r => r)
               (Sample.ask "pizza" "Boston" None) Sample.idle_master in
  Gateway.search "id-5" (Sample.request "2") Sample.unstaffed_server
    = (Gateway.NoWorker503, Sample.unstaffed_server) /\
  fst out = Master.Timeout504 /\
  Redis.clock (Master.redis (snd out))
    = Redis.clock (Master.redis Sample.idle_master) + 120 /\
  Master.failed (Master.stats (snd out))
    = Master.failed (Master.stats Sample.idle_master) + 1 /\
  Redis.lists (Master.redis (snd out)) !! Master.tasks_key
  = Some (Cluster.Json task
          :: default [] (Redis.lists (Master.redis Sample.idle_master)
                           !! Master.tasks_key)).
Proof.
  apply (dispatch_without_executor "id-5" (Sample.request "2")
           Sample.unstaffed_server Sample.unstaffed_world 2
           Sample.plain_digest 1700000000123 (fun r => r)
           (Sample.ask "pizza" "Boston" None)
           Sample.idle_master "pizza" "Boston").
  - reflexivity.
  - reflexivity.
  - reflexivity.
  - vm_compute. reflexivity.
  - reflexivity.
  - reflexivity.
  - repeat split. right. vm_compute. reflexivity.
  - reflexivity.
  - reflexivity.
  - intros r Hr. exact Hr.
  - vm_compute. reflexivity.
Defined.

(** C4 as stated fails in three ways.  In the multi-host gateway no
    worker has a heartbeat key, yet the search pushes its task, waits the
    120 seconds, answers with the time-out error and leaves one task on the
    queue.  In the single-process gateway a request that hits the cache is
    answered from it although the pool has no worker; and with a pool whose
    only worker has left its loop, so that no executor is active, the
    request is enqueued and answered with the time-out, the task still on
    the queue. *)
Lemma dispatch_despite_no_executor :
  (Master.active_workers Sample.twice Sample.empty_store = 0 /\
   Master.queue_size Sample.empty_store = 0 /\
   let '(resp, st') :=
     Master.search Sample.plain_digest None 1700000000123 (fun r => r)
                   (Sample.ask "pizza" "Boston" None) Sample.idle_master in
   resp = Master.Timeout504 /\
   Redis.clock (Master.redis st') = Redis.clock Sample.empty_store + 120 /\
   Master.queue_size (Master.redis st') = 1 /\
   Master.queue_size (Master.redis st') <> 0) /\
  (let hit := Gateway.set_from_cache (Sample.answer 2 "id-1") false in
   let s := Gateway.set_cache Sample.unstaffed_server {[ "pizza|boston" := hit ]} in
   total_workers Sample.empty_pool = 0 /\
   fst (Gateway.search "id-5" (Sample.request "2") s)
   = Gateway.Ok200 (Gateway.set_from_cache hit true) /\
   fst (Gateway.search "id-5" (Sample.request "2") s) <> Gateway.NoWorker503) /\
  (let stopped := set_workers Sample.one_worker_pool [leave_loop Sample.fresh_worker] in
   let s := Gateway.set_world Sample.silent_server
              (Gateway.set_pool Sample.silent_world stopped) in
   map looping (workers stopped) = [false] /\
   exists s' w',
     Gateway.search "id-5" (Sample.request "2") s = (Gateway.Timeout504 120000, s') /\
     Gateway.worker_pool s' = Some w' /\
     task_queue (pool w')
     = [Some {| id := "id-5"; query := "pizza"; location := "Boston";
                limit := Some 2 |}]).
Proof.
  split; [|split].
  - vm_compute. repeat split; (reflexivity || discriminate).
  - intros hit s. split; [reflexivity|].
    assert (H : fst (Gateway.search "id-5" (Sample.request "2") s)
                = Gateway.Ok200 (Gateway.set_from_cache hit true)).
    { unfold Gateway.search, s, hit. cbn [Gateway.read_limit Sample.request
        Gateway.arg_limit Gateway.arg_query Gateway.arg_location].
      vm_compute PyStr.int_of_str. vm_compute (PyStr.strip _).
      vm_compute (Gateway.get_cache_key _ _).
      cbn [default PyStr.truthy negb orb Gateway.cache_memory Gateway.set_cache].
      rewrite lookup_singleton_eq. reflexivity. }
    split; [exact H|]. rewrite H. discriminate.
  - intros stopped s. split; [reflexivity|].
    eexists _, _. split; [vm_compute; reflexivity|]. split; reflexivity.
Qed.

End Dispatch.

Section TaskIds.
Import Cluster Master.

(** The id of a task is the clock reading and nothing else. *)
Lemma new_task_id (t : Z) (q l : string) (n : Z) :
  id (new_task t q l n) = "task:" ++ PyStr.str_of_int t.
Proof. reflexivity. Qed.

(** C5 (defect of the multi-host gateway).  Two requests that arrive in
    the same millisecond get the same task id.  Here the second caller
    asks for sushi in Recife while the task of the first, pizza in Boston,
    is still queued under the same id: the worker serves the older task,
    publishes its result under the shared key, and the second caller
    receives the answer to the first caller's question. *)
Theorem same_millisecond_same_id :
  id (new_task 1700000000123 "pizza" "Boston" 10)
    = id (new_task 1700000000123 "sushi" "Recife" 10) /\
  exists r,
    fst (search Sample.plain_digest None 1700000000123 Sample.one_worker
                (Sample.ask "sushi" "Recife" None) Sample.first_caller_waiting)
      = Ok200 r /\
    task_id r = Some "task:1700000000123" /\
    search_q r = Some "pizza Boston".
Proof.
  split; [reflexivity|].
  eexists. split; [vm_compute; reflexivity|]. split; reflexivity.
Qed.



Example normalize_limit_demo :
  _normalize_limit (PyText "7") = 7 /\ _normalize_limit (PyText "0") = 1 /\
  _normalize_limit (PyText "-3") = 1 /\ _normalize_limit (PyText "500") = 50 /\
  _normalize_limit (PyText "abc") = 10 /\ _normalize_limit (PyText "") = 10 /\
  _normalize_limit (PyText "3.5") = 10 /\ _normalize_limit (PyInt 10) = 10.
Proof. repeat split; reflexivity. Qed.

End TaskIds.

(** ** Heartbeat leases *)
Section Leases.
Import Cluster Master.

(** *** Strings: reversal, prefixes, [split] and [join] *)

Lemma append_cons (c : ascii) (a b : string) : String c a ++ b = String c (a ++ b).
Proof. reflexivity. Qed.

Lemma append_nil_l (b : string) : "" ++ b = b.
Proof. reflexivity. Qed.

Lemma append_assoc (a b c : string) : (a ++ b) ++ c = a ++ (b ++ c).
Proof.
  induction a as [|x a IH]; [reflexivity|].
  rewrite !append_cons. now rewrite IH.
Qed.

Lemma append_nil_r (a : string) : a ++ "" = a.
Proof.
  induction a as [|x a IH]; [reflexivity|].
  rewrite append_cons. now rewrite IH.
Qed.

Lemma rev_app_spec (s t : string) : String.rev_app s t = String.rev s ++ t.
Proof.
  unfold String.rev. revert t.
  induction s as [|c s IH]; intros t; cbn; [reflexivity|].
  rewrite (IH (String c t)), (IH (String c "")), append_assoc. reflexivity.
Qed.

Lemma rev_cons (c : ascii) (s : string) :
  String.rev (String c s) = String.rev s ++ String c "".
Proof. unfold String.rev at 1. cbn. apply rev_app_spec. Qed.

Lemma rev_append (s t : string) : String.rev (s ++ t) = String.rev t ++ String.rev s.
Proof.
  induction s as [|c s IH].
  - cbn. change (String.rev "") with "". now rewrite append_nil_r.
  - change (String c s ++ t) with (String c (s ++ t)).
    rewrite !rev_cons, IH, append_assoc. reflexivity.
Qed.

Lemma rev_involutive (s : string) : String.rev (String.rev s) = s.
Proof.
  induction s as [|c s IH]; [reflexivity|].
  rewrite rev_cons, rev_append, IH. reflexivity.
Qed.

Lemma prefix_drop (p s : string) :
  String.prefix p s = true -> s = p ++ PyStr.drop (String.length p) s.
Proof.
  revert s. induction p as [|c p IH]; intros s H.
  - now destruct s.
  - destruct s as [|d s]; [discriminate|].
    cbn in H. destruct (ascii_dec c d) as [->|]; [|discriminate].
    rewrite append_cons. cbn [String.length PyStr.drop]. f_equal. now apply IH.
Qed.

Lemma prefix_append (p s : string) : String.prefix p (p ++ s) = true.
Proof.
  induction p as [|c p IH]; [now destruct s|].
  rewrite append_cons. cbn. destruct (ascii_dec c c); [exact IH|contradiction].
Qed.

Lemma split_colon_nonempty (s : string) : split_colon s <> [].
Proof.
  induction s as [|c s IH]; cbn; [discriminate|].
  destruct (Ascii.eqb c ":"); [discriminate|].
  destruct (split_colon s); discriminate.
Qed.

Lemma split_colon_append (a b : string) :
  split_colon (a ++ ":" ++ b) = (split_colon a ++ split_colon b)%list.
Proof.
  induction a as [|c a IH]; [reflexivity|].
  rewrite append_cons. cbn [split_colon].
  rewrite IH. destruct (Ascii.eqb c ":"); [reflexivity|].
  pose proof (split_colon_nonempty a).
  destruct (split_colon a); [contradiction|reflexivity].
Qed.

Lemma join_split_colon (s : string) : join_colon (split_colon s) = s.
Proof.
  induction s as [|c s IH]; [reflexivity|].
  cbn [split_colon].
  pose proof (split_colon_nonempty s) as Hne.
  destruct (Ascii.eqb c ":") eqn:Hc.
  - apply Ascii.eqb_eq in Hc as ->.
    destruct (split_colon s) as [|x xs]; [contradiction|].
    change (join_colon ("" :: x :: xs)) with ("" ++ ":" ++ join_colon (x :: xs)).
    now rewrite IH.
  - destruct (split_colon s) as [|x xs]; [contradiction|].
    destruct xs as [|y ys].
    + cbn [join_colon] in *. now rewrite IH.
    + change (join_colon (String c x :: y :: ys))
        with (String c x ++ ":" ++ join_colon (y :: ys)).
      change (join_colon (x :: y :: ys))
        with (x ++ ":" ++ join_colon (y :: ys)) in IH.
      rewrite append_cons. now rewrite IH.
Qed.

(** The id shown for the heartbeat key of an executor is its id. *)
Lemma info_id_heartbeat_key (r : Store) (me : string) :
  info_id (worker_info r (heartbeat_key me)) = me.
Proof.
  unfold worker_info, heartbeat_key; cbn [info_id].
  change ("worker:" ++ me ++ ":heartbeat")
    with ("worker" ++ ":" ++ (me ++ ":" ++ "heartbeat")).
  rewrite !split_colon_append.
  change (split_colon "worker") with ["worker"].
  change (split_colon "heartbeat") with ["heartbeat"].
  cbn [app tail].
  rewrite removelast_last, join_split_colon.
  rewrite length_cons, length_app, Nat.add_comm.
  pose proof (split_colon_nonempty me).
  destruct (split_colon me); [contradiction|]. reflexivity.
Qed.

(** The yields of a scan are the live keys of the pattern, whatever
    the repetitions. *)
Lemma scan_iter_In {V T : Type} (prefix suffix : string) (again : string -> nat)
    (r : Redis.Store V T) (k : string) :
  In k (Redis.scan_iter prefix suffix again r) <-> In k (Redis.scan_keys prefix suffix r).
Proof.
  unfold Redis.scan_iter. rewrite in_flat_map. split.
  - intros (x & Hx & Hk).
    apply list_elem_of_In, elem_of_replicate in Hk as [-> _]. exact Hx.
  - intros Hk. exists k. split; [exact Hk|]. cbn [replicate]. now left.
Qed.

(** A key that [SCAN] lists for the heartbeat pattern is the heartbeat
    key of some executor. *)
Lemma scan_heartbeat_key (again : string -> nat) (r : Store) (key : string) :
  In key (Redis.scan_iter "worker:" ":heartbeat" again r) ->
  exists me, key = heartbeat_key me /\ is_Some (Redis.lookup_live key r).
Proof.
  rewrite scan_iter_In. unfold Redis.scan_keys. intros Hin.
  apply filter_In in Hin as [_ Htest].
  apply andb_prop in Htest as [Htest Hlive].
  apply andb_prop in Htest as [Hpre Hsuf].
  apply bool_decide_eq_true in Hlive.
  apply prefix_drop in Hpre. apply prefix_drop in Hsuf.
  apply (f_equal String.rev) in Hsuf.
  rewrite rev_involutive, rev_append, rev_involutive in Hsuf.
  exists (String.rev (PyStr.drop (String.length (String.rev ":heartbeat"))
                                 (String.rev (PyStr.drop (String.length "worker:") key)))).
  split; [|exact Hlive].
  unfold heartbeat_key. rewrite <- Hsuf. exact Hpre.
Qed.

Lemma heartbeat_key_scanned (again : string -> nat) (r : Store) (me : string) :
  is_Some (Redis.lookup_live (heartbeat_key me) r) ->
  In (heartbeat_key me) (Redis.scan_iter "worker:" ":heartbeat" again r).
Proof.
  intros Hlive. apply scan_iter_In. unfold Redis.scan_keys. apply filter_In. split.
  - destruct Hlive as [e He]. unfold Redis.lookup_live in He.
    destruct (Redis.strings r !! heartbeat_key me) as [e'|] eqn:Hlook; [|discriminate].
    apply in_map_iff. exists (heartbeat_key me, e'). split; [reflexivity|].
    apply list_elem_of_In, elem_of_map_to_list. exact Hlook.
  - apply andb_true_intro. split; [apply andb_true_intro; split|].
    + apply (prefix_append "worker:").
    + change (PyStr.drop (String.length "worker:") (heartbeat_key me))
        with (me ++ ":heartbeat").
      rewrite rev_append. apply prefix_append.
    + now apply bool_decide_eq_true.
Qed.

Lemma ttl_positive_live (key : string) (r : Store) :
  0 < Redis.ttl key r -> is_Some (Redis.lookup_live key r).
Proof.
  unfold Redis.ttl. destruct (Redis.lookup_live key r); [eauto|lia].
Qed.

Lemma active_iff_ttl (key : string) (r : Store) :
  active (worker_info r key) = true <-> 0 < Redis.ttl key r.
Proof.
  unfold worker_info; cbn [active].
  rewrite andb_true_iff, negb_true_iff, Z.eqb_neq, Z.ltb_lt. lia.
Qed.

(** [is_active] is "the time to live of the heartbeat key is positive". *)
Lemma is_active_iff_ttl (again : string -> nat) (me : string) (r : Store) :
  is_active again me r = true <-> 0 < Redis.ttl (heartbeat_key me) r.
Proof.
  unfold is_active, get_workers. rewrite existsb_exists. split.
  - intros (info & Hin & Hid).
    apply filter_In in Hin as [Hin Hact].
    apply in_map_iff in Hin as (key & <- & Hscan).
    apply scan_heartbeat_key in Hscan as (who & -> & _).
    rewrite info_id_heartbeat_key in Hid. apply String.eqb_eq in Hid as ->.
    now apply active_iff_ttl.
  - intros Httl. exists (worker_info r (heartbeat_key me)). split.
    + apply filter_In. split; [|now apply active_iff_ttl].
      apply in_map, heartbeat_key_scanned, ttl_positive_live, Httl.
    + rewrite info_id_heartbeat_key. apply String.eqb_refl.
Qed.

(** The time to live of a lease [dt] seconds after a refresh. *)
Lemma ttl_after_heartbeat (me stamp : string) (hb_ttl dt : Z) (r : Store) :
  0 < hb_ttl -> 0 <= dt ->
  Redis.ttl (heartbeat_key me) (Redis.elapse dt (heartbeat me hb_ttl stamp r))
  = if dt <? hb_ttl then hb_ttl - dt else -2.
Proof.
  intros Hpos Hdt.
  unfold heartbeat, Redis.setex. destruct (0 <? hb_ttl) eqn:Hlt; [|lia].
  unfold Redis.ttl, Redis.lookup_live, Redis.elapse, Redis.alive; cbn.
  rewrite lookup_insert_eq. cbn.
  destruct (dt <? hb_ttl) eqn:Hdtl.
  - destruct (Redis.clock r + dt <? Redis.clock r + hb_ttl) eqn:H; [cbn; lia|lia].
  - destruct (Redis.clock r + dt <? Redis.clock r + hb_ttl) eqn:H; [lia|reflexivity].
Qed.

(** C8.  For every executor, [is_active] holds exactly when the time to
    live of its heartbeat lease is positive.  After a refresh it holds for
    the length of the lease and fails from then on as long as no refresh
    comes; the next refresh, before or after the expiry, makes it hold
    again. *)
Theorem lease_liveness (again : string -> nat) (me : string) (r : Store) :
  (is_active again me r = true <-> 0 < Redis.ttl (heartbeat_key me) r) /\
  (forall hb_ttl stamp dt, 0 < hb_ttl -> 0 <= dt ->
     (is_active again me (Redis.elapse dt (heartbeat me hb_ttl stamp r)) = true
      <-> dt < hb_ttl)) /\
  (forall hb_ttl stamp1 stamp2 gap dt, 0 < hb_ttl -> 0 <= gap -> 0 <= dt ->
     (is_active again me
        (Redis.elapse dt
           (heartbeat me hb_ttl stamp2
              (Redis.elapse gap (heartbeat me hb_ttl stamp1 r)))) = true
      <-> dt < hb_ttl)).
Proof.
  assert (Hfresh : forall hb_ttl stamp dt (r0 : Store), 0 < hb_ttl -> 0 <= dt ->
            (is_active again me (Redis.elapse dt (heartbeat me hb_ttl stamp r0)) = true
             <-> dt < hb_ttl)).
  { intros hb_ttl stamp dt r0 Hpos Hdt.
    rewrite is_active_iff_ttl, ttl_after_heartbeat by assumption.
    destruct (dt <? hb_ttl) eqn:H; lia. }
  split; [apply is_active_iff_ttl|]. split.
  - intros. now apply Hfresh.
  - intros. now apply Hfresh.
Qed.

(** A lease of 60 seconds refreshed at second 0: alive at second 59, dead
    at second 60, alive again after a refresh at second 75. *)
Example lease_run :
  let r0 := heartbeat "node-a:worker-0" 60 "t0" Sample.empty_store in
  is_active Sample.twice "node-a:worker-0" Sample.empty_store = false /\
  is_active Sample.twice "node-a:worker-0" (Redis.elapse 59 r0) = true /\
  is_active Sample.twice "node-a:worker-0" (Redis.elapse 60 r0) = false /\
  is_active Sample.twice "node-a:worker-0"
    (heartbeat "node-a:worker-0" 60 "t75" (Redis.elapse 75 r0)) = true /\
  is_active Sample.twice "node-b:worker-0" (Redis.elapse 59 r0) = false.
Proof. vm_compute. repeat split; reflexivity. Qed.

End Leases.

(** ** Payloads *)
Section Payloads.
Import Payload.

(** *** The thread pool: [_extract_local_results_*] and [_perform_search] *)

Lemma extract_place_data_pos (a : Pool.Anchor) (pos : Z) :
  Pool.extract_place_data a pos =
  (fun rec => {| Pool.position := pos; Pool.title := fst rec;
                 Pool.maps_url := snd rec |}) <$> record_of a.
Proof.
  unfold record_of, Pool.extract_place_data.
  destruct (Pool.stale a); [reflexivity|].
  destruct (PyStr.truthy _); reflexivity.
Qed.

Lemma records_cons (a : Pool.Anchor) (rest : list Pool.Anchor) :
  records (a :: rest) = match record_of a with
                        | Some rec => rec :: records rest
                        | None => records rest
                        end.
Proof. reflexivity. Qed.

Lemma extract_from_spec (anchors : list Pool.Anchor) :
  forall lim pos,
    Pool.extract_from lim pos anchors =
    numbered pos (take (Z.to_nat (lim - pos + 1)) (records anchors)).
Proof.
  induction anchors as [|a rest IH]; intros lim pos; cbn [Pool.extract_from].
  - unfold records. cbn. now rewrite firstn_nil.
  - destruct (lim <? pos) eqn:Hlt.
    + apply Z.ltb_lt in Hlt.
      replace (Z.to_nat (lim - pos + 1)) with 0%nat by lia. reflexivity.
    + apply Z.ltb_ge in Hlt.
      rewrite extract_place_data_pos, records_cons.
      destruct (record_of a) as [[t u]|]; cbn [fmap option_fmap option_map fst snd].
      * replace (Z.to_nat (lim - pos + 1))
          with (S (Z.to_nat (lim - (pos + 1) + 1))) by lia.
        cbn [take firstn numbered]. now rewrite IH.
      * apply IH.
Qed.

Lemma extract_local_results_spec (lim : Z) (anchors : list Pool.Anchor) :
  Pool.extract_local_results lim anchors =
  numbered 1 (take (Z.to_nat lim) (records anchors)).
Proof.
  unfold Pool.extract_local_results. rewrite extract_from_spec.
  now replace (lim - 1 + 1) with lim by lia.
Qed.

Lemma numbered_length (recs : list (string * option string)) :
  forall pos, length (numbered pos recs) = length recs.
Proof.
  induction recs as [|[t u] recs IH]; intros pos; cbn; [reflexivity|].
  now rewrite IH.
Qed.

Lemma numbered_positions (recs : list (string * option string)) :
  forall k : nat,
    map Pool.position (numbered (Z.of_nat k) recs) = map Z.of_nat (seq k (length recs)).
Proof.
  induction recs as [|[t u] recs IH]; intros k; cbn; [reflexivity|].
  f_equal. replace (Z.of_nat k + 1) with (Z.of_nat (S k)) by lia. apply IH.
Qed.

Lemma numbered_titles (recs : list (string * option string)) :
  forall pos, map Pool.title (numbered pos recs) = map fst recs.
Proof.
  induction recs as [|[t u] recs IH]; intros pos; cbn; [reflexivity|].
  now rewrite IH.
Qed.

Lemma numbered_empty (recs : list (string * option string)) (pos : Z) :
  Pool.is_empty (numbered pos recs) = Pool.is_empty recs.
Proof. now destruct recs as [|[t u] recs]. Qed.

(** The slice [places[:limit]] cuts nothing off a list the loops built. *)
Lemma py_slice_to_prefix {A} (lim : Z) (l : list A) :
  Pool.py_slice_to lim (take (Z.to_nat lim) l) = take (Z.to_nat lim) l.
Proof.
  unfold Pool.py_slice_to. destruct (0 <=? lim) eqn:H.
  - apply firstn_all2. rewrite length_firstn. lia.
  - apply Z.leb_gt in H.
    replace (Z.to_nat lim) with 0%nat by lia. reflexivity.
Qed.

Lemma py_slice_to_numbered (lim : Z) (recs : list (string * option string)) :
  Pool.py_slice_to lim (numbered 1 (take (Z.to_nat lim) recs))
  = numbered 1 (take (Z.to_nat lim) recs).
Proof.
  unfold Pool.py_slice_to. destruct (0 <=? lim) eqn:H.
  - apply firstn_all2. rewrite numbered_length, length_firstn. lia.
  - apply Z.leb_gt in H.
    replace (Z.to_nat lim) with 0%nat by lia. reflexivity.
Qed.

Lemma perform_search_payload (w : Pool.Worker) (lim : Z) (b : Pool.Browser)
    (r : Pool.Result) :
  Pool.perform_search w lim b = inr r ->
  Pool.places r = numbered 1 (take (Z.to_nat lim) (records (answering_stage lim b))).
Proof.
  unfold Pool.perform_search, answering_stage.
  rewrite !extract_local_results_spec, !numbered_empty.
  destruct (Pool.nav_error b); [discriminate|].
  destruct (Pool.lcl_captcha_ok b); cbn [negb]; [|discriminate].
  destruct (Pool.is_empty (take (Z.to_nat lim) (records (Pool.lcl_anchors b)))) eqn:E1;
    cbn [negb].
  2:{ intros [= <-]. cbn [Pool.places]. apply py_slice_to_numbered. }
  destruct (Pool.serp_captcha_ok b); cbn [negb]; [|discriminate].
  destruct (Pool.is_empty (take (Z.to_nat lim) (records (Pool.serp_anchors b)))) eqn:E2;
    cbn [negb].
  2:{ intros [= <-]. cbn [Pool.places]. apply py_slice_to_numbered. }
  destruct (Pool.maps_captcha_ok b); cbn [negb]; [|discriminate].
  intros [= <-]. cbn [Pool.places].
  destruct (take (Z.to_nat lim) (records (Pool.serp_anchors b))); [|discriminate].
  cbn [numbered app]. apply py_slice_to_numbered.
Qed.

(** *** The cluster worker: the scroll loop of [google_local_search] *)

Lemma keys_cons (c : Cluster.Card) (cards : list Cluster.Card) :
  keys (c :: cards) = {[card_key c]} ∪ keys cards.
Proof. reflexivity. Qed.

Lemma union_swap (a b c : gset string) : a ∪ b ∪ c = b ∪ (a ∪ c).
Proof. now rewrite (union_comm_L a b), union_assoc_L. Qed.

Lemma first_by_title_app (l1 : list Cluster.Card) :
  forall (seen : gset string) (l2 : list Cluster.Card),
    first_by_title seen (l1 ++ l2) =
    (first_by_title seen l1
     ++ first_by_title (seen ∪ keys (first_by_title seen l1)) l2)%list.
Proof.
  induction l1 as [|c l1 IH]; intros seen l2.
  - cbn. unfold keys; cbn. now rewrite union_empty_r_L.
  - cbn [app first_by_title].
    destruct (negb (PyStr.truthy (card_key c)) || bool_decide (card_key c ∈ seen)).
    + apply IH.
    + rewrite IH, keys_cons. cbn [app]. do 3 f_equal. apply union_swap.
Qed.

(** One pass over the cards in the page. *)
Lemma absorb_spec (lim : Z) (current : list Cluster.Card) :
  forall (seen : gset string) (collected : list Cluster.Card),
    Z.of_nat (length collected) < lim ->
    snd (Cluster.absorb lim current seen collected) =
      (collected ++ take (Z.to_nat lim - length collected)
                         (first_by_title seen current))%list /\
    (Z.of_nat (length (snd (Cluster.absorb lim current seen collected))) < lim ->
     fst (Cluster.absorb lim current seen collected)
       = seen ∪ keys (first_by_title seen current)).
Proof.
  induction current as [|c rest IH]; intros seen collected Hlen.
  - cbn. rewrite firstn_nil, app_nil_r. split; [reflexivity|].
    intros _. unfold keys; cbn. now rewrite union_empty_r_L.
  - cbn [Cluster.absorb first_by_title]. fold (card_key c).
    destruct (PyStr.truthy (card_key c)); cbn [negb orb]; [|now apply IH].
    destruct (bool_decide (card_key c ∈ seen)); [now apply IH|].
    assert (Hn : (Z.to_nat lim - length collected
                  = S (Z.to_nat lim - length (collected ++ [c])))%nat).
    { rewrite length_app. cbn. lia. }
    destruct (lim <=? Z.of_nat (length (collected ++ [c]))) eqn:Hfull.
    + cbn [fst snd]. split.
      * apply Z.leb_le in Hfull.
        replace (Z.to_nat lim - length collected)%nat with 1%nat
          by (rewrite length_app in Hfull; cbn in Hfull; lia).
        cbn. now rewrite firstn_O.
      * apply Z.leb_le in Hfull. lia.
    + apply Z.leb_gt in Hfull.
      destruct (IH ({[card_key c]} ∪ seen) (collected ++ [c])%list Hfull) as [Hs Hf].
      split.
      * rewrite Hs, Hn. cbn [take firstn]. now rewrite <- app_assoc.
      * intros Hlt. rewrite (Hf Hlt), keys_cons. apply union_swap.
Qed.

Lemma scroll_loop_spec (lim : Z) (page : nat -> list Cluster.Card) (left : nat) :
  forall (k : nat) (seen : gset string) (collected : list Cluster.Card),
    Cluster.scroll_loop left k lim page seen collected =
    (collected ++ take (Z.to_nat lim - length collected)
                       (first_by_title seen (concat (map page (seq k left)))))%list.
Proof.
  induction left as [|left IH]; intros k seen collected; cbn [Cluster.scroll_loop].
  - cbn. rewrite firstn_nil, app_nil_r. now destruct (_ <? _).
  - destruct (Z.of_nat (length collected) <? lim) eqn:Hlen.
    2:{ apply Z.ltb_ge in Hlen.
        replace (Z.to_nat lim - length collected)%nat with 0%nat by lia.
        now rewrite app_nil_r. }
    apply Z.ltb_lt in Hlen.
    destruct (absorb_spec lim (page k) seen collected Hlen) as [Hs Hf].
    destruct (Cluster.absorb lim (page k) seen collected) as [seen' collected'].
    cbn [fst snd] in Hs, Hf.
    cbn [seq map concat]. rewrite first_by_title_app, firstn_app.
    remember (first_by_title seen (page k)) as here eqn:Hhere.
    remember (Z.to_nat lim - length collected)%nat as n eqn:Hn.
    destruct (lim <=? Z.of_nat (length collected')) eqn:Hfull.
    + apply Z.leb_le in Hfull.
      assert (Hge : (n <= length here)%nat).
      { rewrite Hs, length_app, length_firstn in Hfull. lia. }
      replace (n - length here)%nat with 0%nat by lia.
      cbn. now rewrite app_nil_r.
    + apply Z.leb_gt in Hfull.
      assert (Hall : take n here = here).
      { apply firstn_all2.
        rewrite Hs, length_app, length_firstn in Hfull. lia. }
      rewrite IH, (Hf Hfull), Hs, Hall, <- app_assoc.
      do 3 f_equal. rewrite length_app. lia.
Qed.

Lemma number_from_length (cards : list Cluster.Card) :
  forall pos, length (Cluster.number_from pos cards) = length cards.
Proof.
  induction cards as [|c cards IH]; intros pos; cbn; [reflexivity|].
  now rewrite IH.
Qed.

Lemma number_from_positions (cards : list Cluster.Card) :
  forall k : nat,
    map Cluster.position (Cluster.number_from (Z.of_nat k) cards)
    = map Z.of_nat (seq k (length cards)).
Proof.
  induction cards as [|c cards IH]; intros k; cbn; [reflexivity|].
  f_equal. replace (Z.of_nat k + 1) with (Z.of_nat (S k)) by lia. apply IH.
Qed.

Lemma number_from_titles (cards : list Cluster.Card) :
  forall pos,
    map Cluster.title (Cluster.number_from pos cards) = map Cluster.card_title cards.
Proof.
  induction cards as [|c cards IH]; intros pos; cbn; [reflexivity|].
  now rewrite IH.
Qed.

Lemma google_local_search_payload (me : string) (passes : nat)
    (site : Cluster.Site) (q l : string) (lim : Z) (r : Cluster.Result) :
  Cluster.google_local_search me passes site q l lim = inr r ->
  Cluster.places r =
  Cluster.number_from 1
    (take (Z.to_nat lim) (first_by_title ∅ (shown passes (Cluster.dom site)))).
Proof.
  unfold Cluster.google_local_search.
  rewrite scroll_loop_spec. cbn [app length]. rewrite Nat.sub_0_r.
  fold (shown passes (Cluster.dom site)). rewrite py_slice_to_prefix.
  destruct (Cluster.first_get site) as [[e|e]|].
  - destruct (Cluster.reinit site); [discriminate|].
    destruct (Cluster.retry_get site) as [[e'|e']|]; try discriminate.
    destruct (Cluster.blocked site); [discriminate|]. now intros [= <-].
  - discriminate.
  - destruct (Cluster.blocked site); [discriminate|]. now intros [= <-].
Qed.

(** C9 as the code has it.  The payload of a successful search is the
    first [limit] records the collaborator yields, in its order, numbered
    from 1 without gaps; hence it has [min k limit] entries for [k]
    records and a limit that is not negative.  In the thread pool the
    records are the anchors with a title of the stage that answers; in the
    cluster worker they are the cards with a title seen in the passes of
    the scroll loop, each title counted once. *)
Theorem payload_is_prefix
    (w : Pool.Worker) (lim : Z) (b : Pool.Browser) (r : Pool.Result)
    (me : string) (passes : nat) (site : Cluster.Site) (q l : string)
    (clim : Z) (cr : Cluster.Result) :
  Pool.perform_search w lim b = inr r ->
  Cluster.google_local_search me passes site q l clim = inr cr ->
  let recs := records (answering_stage lim b) in
  let cards := first_by_title ∅ (shown passes (Cluster.dom site)) in
  (Pool.places r = numbered 1 (take (Z.to_nat lim) recs) /\
   length (Pool.places r) = Nat.min (length recs) (Z.to_nat lim) /\
   map Pool.title (Pool.places r) = map fst (take (Z.to_nat lim) recs) /\
   map Pool.position (Pool.places r)
     = map Z.of_nat (seq 1 (length (Pool.places r)))) /\
  (Cluster.places cr = Cluster.number_from 1 (take (Z.to_nat clim) cards) /\
   length (Cluster.places cr) = Nat.min (length cards) (Z.to_nat clim) /\
   map Cluster.title (Cluster.places cr)
     = map Cluster.card_title (take (Z.to_nat clim) cards) /\
   map Cluster.position (Cluster.places cr)
     = map Z.of_nat (seq 1 (length (Cluster.places cr)))).
Proof.
  intros Hpool Hcluster recs cards.
  apply perform_search_payload in Hpool. fold recs in Hpool.
  apply google_local_search_payload in Hcluster. fold cards in Hcluster.
  split.
  - rewrite Hpool. split; [reflexivity|]. split; [|split].
    + rewrite numbered_length, length_firstn. apply Nat.min_comm.
    + apply numbered_titles.
    + rewrite numbered_length. apply (numbered_positions _ 1).
  - rewrite Hcluster. split; [reflexivity|]. split; [|split].
    + rewrite number_from_length, length_firstn. apply Nat.min_comm.
    + apply number_from_titles.
    + rewrite number_from_length. apply (number_from_positions _ 1).
Qed.

Lemma payload_is_prefix_witness :
  let recs := records (answering_stage 10 Sample.pizza_page) in
  let cards := first_by_title ∅ (shown 30 (Cluster.dom Sample.chain_site)) in
  (Pool.places Sample.pizza_answer = numbered 1 (take (Z.to_nat 10) recs) /\
   length (Pool.places Sample.pizza_answer) = Nat.min (length recs) (Z.to_nat 10) /\
   map Pool.title (Pool.places Sample.pizza_answer)
     = map fst (take (Z.to_nat 10) recs) /\
   map Pool.position (Pool.places Sample.pizza_answer)
     = map Z.of_nat (seq 1 (length (Pool.places Sample.pizza_answer)))) /\
  (Cluster.places Sample.chain_answer
     = Cluster.number_from 1 (take (Z.to_nat 10) cards) /\
   length (Cluster.places Sample.chain_answer)
     = Nat.min (length cards) (Z.to_nat 10) /\
   map Cluster.title (Cluster.places Sample.chain_answer)
     = map Cluster.card_title (take (Z.to_nat 10) cards) /\
   map Cluster.position (Cluster.places Sample.chain_answer)
     = map Z.of_nat (seq 1 (length (Cluster.places Sample.chain_answer)))).
Proof.
  apply (payload_is_prefix Sample.fresh_worker 10 Sample.pizza_page
           Sample.pizza_answer "node-a:worker-0" 30 Sample.chain_site
           "pizza" "Boston" 10 Sample.chain_answer).
  - reflexivity.
  - vm_compute. reflexivity.
Defined.

(** C9 as stated fails in the cluster worker.  The page shows eight
    cards, two of them under the same title; with a limit of 10 the
    payload has seven entries, not eight: the second card of that title is
    dropped.  It also fails for a negative limit, which the single-process
    gateway passes on as it is: the payload is empty while the minimum of
    the number of records and the limit is negative. *)
Lemma same_title_counted_once :
  (length (Cluster.dom Sample.chain_site 0) = 8%nat /\
   Cluster.google_local_search "node-a:worker-0" 30 Sample.chain_site
                               "pizza" "Boston" 10 = inr Sample.chain_answer /\
   length (Cluster.places Sample.chain_answer) = 7%nat /\
   length (Cluster.places Sample.chain_answer) <> Nat.min 8 (Z.to_nat 10) /\
   map Cluster.title (Cluster.places Sample.chain_answer)
     = [Some "Pizza A"; Some "Pizza Hut"; Some "Pizza B"; Some "Pizza C";
        Some "Pizza D"; Some "Pizza E"; Some "Pizza F"]) /\
  (length (records (Pool.lcl_anchors Sample.pizza_page)) = 4%nat /\
   exists r, Pool.perform_search Sample.fresh_worker (-1) Sample.pizza_page = inr r /\
             Pool.places r = [] /\
             Z.of_nat (length (Pool.places r)) <> Z.min 4 (-1)).
Proof.
  split.
  - vm_compute. repeat split; (reflexivity || discriminate).
  - split; [reflexivity|]. eexists. split; [reflexivity|].
    split; [reflexivity|discriminate].
Qed.

End Payloads.

(** ** More on the multi-host gateway: cache, statistics, worker list *)
Section MasterMore.
Import Cluster Master.

Lemma set_cached_result_store (md5_hex : string -> string) (q l : string)
    (lim : Z) (result : Result) (r : Store) :
  set_cached_result md5_hex q l lim result r
  = {| Redis.clock := Redis.clock r;
       Redis.strings :=
         <[generate_cache_key md5_hex q l lim :=
             {| Redis.value := Res result;
                Redis.expires := Some (Redis.clock r + 86400) |}]> (Redis.strings r);
       Redis.lists := Redis.lists r |}.
Proof. reflexivity. Qed.

(** X1.  What [set_cached_result] stores, [get_cached_result] finds, for
    24 hours and no longer; each hit is counted. *)
Theorem cache_round_trip (md5_hex : string -> string) (q l : string) (lim : Z)
    (result : Result) (r : Store) (counters : Stats) (dt : Z) :
  0 <= dt ->
  get_cached_result md5_hex q l lim
    {| redis := Redis.elapse dt (set_cached_result md5_hex q l lim result r);
       stats := counters |}
  = if dt <? 86400
    then (Hit result,
          {| redis := Redis.elapse dt (set_cached_result md5_hex q l lim result r);
             stats := bump_hits counters |})
    else (Miss,
          {| redis := Redis.elapse dt (set_cached_result md5_hex q l lim result r);
             stats := counters |}).
Proof.
  intros Hdt. rewrite set_cached_result_store. unfold get_cached_result.
  cbn [redis].
  unfold Redis.get, Redis.lookup_live, Redis.elapse, Redis.alive.
  cbn [Redis.strings Redis.clock]. rewrite lookup_insert_eq.
  cbn [Redis.expires Redis.value].
  destruct (dt <? 86400) eqn:Hlt.
  - apply Z.ltb_lt in Hlt.
    destruct (Redis.clock r + dt <? Redis.clock r + 86400) eqn:H; [reflexivity|].
    apply Z.ltb_ge in H. lia.
  - apply Z.ltb_ge in Hlt.
    destruct (Redis.clock r + dt <? Redis.clock r + 86400) eqn:H; [|reflexivity].
    apply Z.ltb_lt in H. lia.
Qed.

Lemma cache_round_trip_witness :
  get_cached_result Sample.plain_digest "pizza" "Boston" 10
    {| redis := Redis.elapse 3600
                  (set_cached_result Sample.plain_digest "pizza" "Boston" 10
                     Sample.chain_answer Sample.empty_store);
       stats := stats Sample.idle_master |}
  = if 3600 <? 86400
    then (Hit Sample.chain_answer,
          {| redis := Redis.elapse 3600
                        (set_cached_result Sample.plain_digest "pizza" "Boston" 10
                           Sample.chain_answer Sample.empty_store);
             stats := bump_hits (stats Sample.idle_master) |})
    else (Miss,
          {| redis := Redis.elapse 3600
                        (set_cached_result Sample.plain_digest "pizza" "Boston" 10
                           Sample.chain_answer Sample.empty_store);
             stats := stats Sample.idle_master |}).
Proof.
  apply (cache_round_trip Sample.plain_digest "pizza" "Boston" 10
           Sample.chain_answer Sample.empty_store (stats Sample.idle_master) 3600).
  lia.
Defined.

(** *** [clear_cache] *)

Lemma del_all_strings (found : list string) :
  forall (r : Store) (key : string),
    Redis.strings (fold_left (fun acc k => Redis.del k acc) found r) !! key
    = if bool_decide (key ∈ found) then None else Redis.strings r !! key.
Proof.
  induction found as [|k found IH]; intros r key; cbn [fold_left].
  - reflexivity.
  - rewrite IH. unfold Redis.del at 1. cbn [Redis.strings].
    destruct (decide (key = k)) as [->|Hne].
    + rewrite lookup_delete_eq.
      rewrite (bool_decide_eq_true_2 (k ∈ k :: found)) by left.
      now destruct (bool_decide (k ∈ found)).
    + rewrite lookup_delete_ne by congruence.
      destruct (bool_decide (key ∈ found)) eqn:Hin.
      * apply bool_decide_eq_true in Hin.
        now rewrite (bool_decide_eq_true_2 (key ∈ k :: found)) by (now right).
      * apply bool_decide_eq_false in Hin.
        rewrite (bool_decide_eq_false_2 (key ∈ k :: found)); [reflexivity|].
        intros Hc. apply elem_of_cons in Hc as [?|?]; contradiction.
Qed.

Lemma del_all_rest (found : list string) :
  forall r : Store,
    Redis.clock (fold_left (fun acc k => Redis.del k acc) found r) = Redis.clock r /\
    Redis.lists (fold_left (fun acc k => Redis.del k acc) found r) = Redis.lists r.
Proof.
  induction found as [|k found IH]; intros r; cbn [fold_left]; [auto|].
  destruct (IH (Redis.del k r)) as [-> ->]. auto.
Qed.

(** A live key that begins with the prefix is listed by the scan. *)
Lemma scan_prefix_complete (prefix key : string) (again : string -> nat)
    (r : Store) :
  String.prefix prefix key = true ->
  is_Some (Redis.lookup_live key r) ->
  In key (Redis.scan_iter prefix "" again r).
Proof.
  intros Hpre Hlive. apply scan_iter_In. unfold Redis.scan_keys.
  apply filter_In. split.
  - destruct Hlive as [e He]. unfold Redis.lookup_live in He.
    destruct (Redis.strings r !! key) as [e'|] eqn:Hlook; [|discriminate].
    apply in_map_iff. exists (key, e'). split; [reflexivity|].
    apply list_elem_of_In, elem_of_map_to_list. exact Hlook.
  - rewrite Hpre. cbn [andb].
    change (String.rev "") with "".
    replace (String.prefix "" (String.rev (PyStr.drop (String.length prefix) key)))
      with true by (now destruct (String.rev _)).
    now apply bool_decide_eq_true.
Qed.

Lemma scan_prefix_sound (prefix suffix key : string) (again : string -> nat)
    (r : Store) :
  In key (Redis.scan_iter prefix suffix again r) -> String.prefix prefix key = true.
Proof.
  rewrite scan_iter_In. unfold Redis.scan_keys.
  intros Hin. apply filter_In in Hin as [_ Htest].
  apply andb_prop in Htest as [Htest _]. now apply andb_prop in Htest as [? _].
Qed.

(** The number of yields of a scan: every key once, and its repetitions. *)
Lemma scan_iter_length {V T : Type} (prefix suffix : string) (again : string -> nat)
    (r : Redis.Store V T) :
  (length (Redis.scan_keys prefix suffix r)
   <= length (Redis.scan_iter prefix suffix again r))%nat /\
  ((forall k, again k = 0%nat) ->
   Redis.scan_iter prefix suffix again r = Redis.scan_keys prefix suffix r).
Proof.
  unfold Redis.scan_iter. cbn [replicate].
  induction (Redis.scan_keys prefix suffix r) as [|k l [IH1 IH2]]; [now split|].
  cbn [flat_map app length]. split.
  - rewrite length_app. lia.
  - intros Hz. rewrite (Hz k), (IH2 Hz). reflexivity.
Qed.

(** X2.  After [clear_cache] no request is answered from the cache,
    whatever its parameters and whatever keys the scan yields twice; the
    keys that do not begin with [cache:] (the heartbeats, the results) and
    the task list are as before.  The number reported counts the yields of
    the scan: it is the number of live cache keys when no key is yielded
    twice, and at least that number in any case. *)
Theorem clear_cache_clears (md5_hex : string -> string) (again : string -> nat)
    (r : Store) :
  let '(deleted, r') := clear_cache again r in
  (forall q l lim counters,
     get_cached_result md5_hex q l lim {| redis := r'; stats := counters |}
     = (Miss, {| redis := r'; stats := counters |})) /\
  (forall key, String.prefix "cache:" key = true -> Redis.get key r' = None) /\
  Z.of_nat (length (Redis.scan_keys "cache:" "" r)) <= deleted /\
  ((forall k, again k = 0%nat) ->
   deleted = Z.of_nat (length (Redis.scan_keys "cache:" "" r))) /\
  (forall key, String.prefix "cache:" key = false ->
     Redis.get key r' = Redis.get key r /\ Redis.ttl key r' = Redis.ttl key r) /\
  Redis.lists r' = Redis.lists r /\ Redis.clock r' = Redis.clock r.
Proof.
  unfold clear_cache.
  set (found := Redis.scan_iter "cache:" "" again r).
  set (r' := fold_left (fun acc k => Redis.del k acc) found r).
  destruct (del_all_rest found r) as [Hclock Hlists]. fold r' in Hclock, Hlists.
  pose proof (del_all_strings found r) as Hstr. fold r' in Hstr.
  destruct (scan_iter_length "cache:" "" again r) as [Hle Heq]. fold found in Hle, Heq.
  assert (Hgone : forall key, String.prefix "cache:" key = true ->
                              Redis.get key r' = None).
  { intros key Hpre. unfold Redis.get, Redis.lookup_live. rewrite Hstr, Hclock.
    destruct (bool_decide (key ∈ found)) eqn:Hin; [reflexivity|].
    apply bool_decide_eq_false in Hin.
    destruct (Redis.strings r !! key) as [e|] eqn:Hlook; [|reflexivity].
    destruct (Redis.alive (Redis.clock r) e) eqn:Halive; [|reflexivity].
    exfalso. apply Hin, list_elem_of_In. apply scan_prefix_complete; [exact Hpre|].
    unfold Redis.lookup_live. rewrite Hlook, Halive. eauto. }
  split; [|split; [exact Hgone|split; [lia|split; [|split; [|split; assumption]]]]].
  - intros q l lim counters. unfold get_cached_result. cbn [redis].
    rewrite Hgone; [reflexivity|].
    unfold generate_cache_key. apply (prefix_append "cache:").
  - intros Hz. now rewrite (Heq Hz).
  - intros key Hpre.
    assert (Hsame : Redis.lookup_live key r' = Redis.lookup_live key r).
    { unfold Redis.lookup_live. rewrite Hstr, Hclock.
      destruct (bool_decide (key ∈ found)) eqn:Hin; [|reflexivity].
      apply bool_decide_eq_true, list_elem_of_In, scan_prefix_sound in Hin.
      congruence. }
    unfold Redis.get, Redis.ttl. now rewrite Hsame, Hclock.
Qed.

(** One cached answer and one heartbeat: the cache key is deleted, the
    heartbeat stays; a scan that yields the key twice reports two
    deletions. *)
Example clear_cache_run :
  let r := set_cached_result Sample.plain_digest "pizza" "Boston" 10
             Sample.chain_answer
             (heartbeat "node-a:worker-0" 60 "t0" Sample.empty_store) in
  fst (clear_cache Sample.once r) = 1 /\
  fst (clear_cache Sample.twice r) = 2 /\
  Redis.get (generate_cache_key Sample.plain_digest "pizza" "Boston" 10)
            (snd (clear_cache Sample.twice r)) = None /\
  is_active Sample.twice "node-a:worker-0" (snd (clear_cache Sample.twice r)) = true.
Proof. vm_compute. repeat split; reflexivity. Qed.

(** *** Statistics *)




(** A worker answers with a success and the [SETEX] of the cache raises:
    the request is counted as a success and as a failure. *)
Example search_counted_twice :
  let out := search Sample.plain_digest (Some CacheSet) 1700000000123
               Sample.one_worker (Sample.ask "pizza" "Boston" None)
               Sample.idle_master in
  balanced (stats Sample.idle_master) /\
  fst out = Error500 /\
  (total_requests (stats (snd out)), successful (stats (snd out)),
   failed (stats (snd out)), cache_hits (stats (snd out))) = (1, 1, 1, 0) /\
  ~ balanced (stats (snd out)).
Proof. vm_compute. repeat split; try reflexivity. discriminate. Qed.

(** *** The list of workers *)

Lemma filter_map_length {A B} (f : A -> B) (test : B -> bool) (l : list A) :
  length (List.filter test (map f l)) = length (List.filter (fun x => test (f x)) l).
Proof.
  induction l as [|x l IH]; cbn; [reflexivity|].
  destruct (test (f x)); cbn; now rewrite IH.
Qed.

Lemma filter_map_swap {A B} (f : A -> B) (test : B -> bool) (l : list A) :
  List.filter test (map f l) = map f (List.filter (fun x => test (f x)) l).
Proof.
  induction l as [|x l IH]; cbn; [reflexivity|].
  destruct (test (f x)); cbn; now rewrite IH.
Qed.

Lemma map_is_fmap {A B} (f : A -> B) (l : list A) : map f l = f <$> l.
Proof. induction l as [|x l IH]; cbn; [reflexivity|now rewrite IH]. Qed.

Lemma NoDup_map_on {A B} (f : A -> B) (l : list A) :
  NoDup l ->
  (forall x y, In x l -> In y l -> f x = f y -> x = y) ->
  NoDup (map f l).
Proof.
  induction l as [|x l IH]; intros Hnd Hinj; cbn; [constructor|].
  apply NoDup_cons in Hnd as [Hx Hnd]. apply NoDup_cons. split.
  - intros Hin. apply list_elem_of_In, in_map_iff in Hin as (y & Hy & Hin).
    apply Hx, list_elem_of_In.
    rewrite (Hinj x y); [exact Hin|now left|now right|now symmetry].
  - apply IH; [exact Hnd|]. intros a b Ha Hb. apply Hinj; now right.
Qed.

Lemma scan_keys_NoDup (prefix suffix : string) (r : Store) :
  NoDup (Redis.scan_keys prefix suffix r).
Proof.
  unfold Redis.scan_keys. apply NoDup_ListNoDup, List.NoDup_filter, NoDup_ListNoDup.
  rewrite map_is_fmap. apply NoDup_fst_map_to_list.
Qed.

Lemma stats_agree_with_workers (again : string -> nat) (r : Store) :
  active_workers again r = Z.of_nat (length (get_workers again r)).
Proof.
  unfold active_workers, get_workers. now rewrite filter_map_length.
Qed.

(** X4.  [get_workers] lists the executors whose heartbeat key has a
    positive time to live, and no other: every entry is the entry of such a
    key, and every such executor has an entry.  The code does not remove
    repetitions: an executor is listed as often as the scan yields its key.
    When the scans yield no key twice, no executor is listed twice and the
    number of entries is the number of active workers that [get_stats]
    reports. *)
Theorem workers_listed_by_lease (again : string -> nat) (r : Store) :
  (forall w, In w (get_workers again r) ->
     w = worker_info r (heartbeat_key (info_id w)) /\ 0 < ttl_seconds w /\
     active w = true) /\
  (forall me, 0 < Redis.ttl (heartbeat_key me) r ->
     In (worker_info r (heartbeat_key me)) (get_workers again r)) /\
  (forall w, In w (get_workers again r) ->
     count_occ string_dec (map info_id (get_workers again r)) (info_id w)
     = S (again (heartbeat_key (info_id w)))) /\
  ((forall k, again k = 0%nat) ->
   NoDup (map info_id (get_workers again r)) /\
   forall again', (forall k, again' k = 0%nat) ->
     active_workers again' r = Z.of_nat (length (get_workers again r))).
Proof.
  assert (Hsound : forall w, In w (get_workers again r) ->
            exists me, w = worker_info r (heartbeat_key me) /\ info_id w = me /\
                       active w = true /\
                       In (heartbeat_key me) (Redis.scan_keys "worker:" ":heartbeat" r)).
  { intros w Hin. unfold get_workers in Hin. apply filter_In in Hin as [Hin Hact].
    apply in_map_iff in Hin as (key & <- & Hscan).
    pose proof Hscan as Hkeys. apply scan_iter_In in Hkeys.
    apply scan_heartbeat_key in Hscan as (me & -> & _).
    exists me. rewrite info_id_heartbeat_key. auto. }
  assert (Hnd : NoDup (map info_id
                  (List.filter active
                     (map (worker_info r) (Redis.scan_keys "worker:" ":heartbeat" r))))).
  { rewrite filter_map_swap, map_map. apply NoDup_map_on.
    - apply NoDup_ListNoDup, List.NoDup_filter, NoDup_ListNoDup, scan_keys_NoDup.
    - intros x y Hx Hy Heq.
      apply filter_In in Hx as [Hx _]. apply filter_In in Hy as [Hy _].
      apply (scan_iter_In _ _ (fun _ => 0%nat)) in Hx, Hy.
      apply scan_heartbeat_key in Hx as (mx & -> & _).
      apply scan_heartbeat_key in Hy as (my & -> & _).
      rewrite !info_id_heartbeat_key in Heq. now subst. }
  split; [|split; [|split]].
  - intros w Hin. destruct (Hsound w Hin) as (me & -> & Hid & Hact & _).
    rewrite info_id_heartbeat_key. split; [reflexivity|]. split; [|exact Hact].
    now apply active_iff_ttl in Hact.
  - intros me Httl. unfold get_workers. apply filter_In.
    split; [|now apply active_iff_ttl].
    apply in_map, heartbeat_key_scanned, ttl_positive_live, Httl.
  - intros w Hin. destruct (Hsound w Hin) as (me & -> & _ & Hact & Hkey).
    rewrite info_id_heartbeat_key. clear Hin Hsound Hnd.
    unfold get_workers, Redis.scan_iter.
    pose proof (scan_keys_NoDup "worker:" ":heartbeat" r) as Hkeys.
    assert (Hall : forall k, In k (Redis.scan_keys "worker:" ":heartbeat" r) ->
                             exists who, k = heartbeat_key who).
    { intros k Hk. apply (scan_iter_In _ _ (fun _ => 0%nat)) in Hk.
      apply scan_heartbeat_key in Hk as (who & -> & _). eauto. }
    induction (Redis.scan_keys "worker:" ":heartbeat" r) as [|k l IH];
      [destruct Hkey|].
    apply NoDup_cons in Hkeys as [Hk Hl].
    cbn [flat_map]. rewrite map_app, List.filter_app, map_app, count_occ_app.
    assert (Hrep : forall (n : nat) (who : string),
              count_occ string_dec
                (map info_id
                   (List.filter active
                      (map (worker_info r) (replicate n (heartbeat_key who))))) me
              = if decide (who = me)
                then (if active (worker_info r (heartbeat_key who)) then n else 0%nat)
                else 0%nat).
    { intros n who. induction n as [|n IHn].
      - cbn [replicate map List.filter count_occ].
        destruct (decide (who = me)); [|reflexivity].
        now destruct (active (worker_info r (heartbeat_key who))).
      - cbn [replicate map List.filter].
        destruct (active (worker_info r (heartbeat_key who))) eqn:Hw.
        + cbn [map count_occ]. rewrite info_id_heartbeat_key, IHn.
          destruct (string_dec who me) as [->|Hne].
          * now rewrite !decide_True by reflexivity.
          * now rewrite !decide_False by assumption.
        + rewrite IHn. now destruct (decide (who = me)). }
    destruct (Hall k (or_introl eq_refl)) as (who & ->).
    rewrite Hrep.
    destruct Hkey as [Hkey|Hkey].
    + assert (who = me) as ->.
      { apply (f_equal (fun k => info_id (worker_info r k))) in Hkey.
        now rewrite !info_id_heartbeat_key in Hkey. }
      rewrite decide_True, Hact by reflexivity.
      assert (Hzero : forall l' : list string,
                ~ In (heartbeat_key me) l' ->
                (forall k, In k l' -> exists who, k = heartbeat_key who) ->
                count_occ string_dec
                  (map info_id
                     (List.filter active
                        (map (worker_info r)
                           (flat_map (fun k => replicate (S (again k)) k) l')))) me
                = 0%nat).
      { induction l' as [|k' l' IH']; intros Hnot Hall'; [reflexivity|].
        cbn [flat_map]. rewrite map_app, List.filter_app, map_app, count_occ_app.
        destruct (Hall' k' (or_introl eq_refl)) as (who' & ->).
        rewrite Hrep, decide_False.
        - apply IH'; [intros H; apply Hnot; now right|].
          intros k0 Hk0. apply Hall'. now right.
        - intros ->. apply Hnot. now left. }
      rewrite Hzero; [lia| |].
      * intros Hin. apply Hk, list_elem_of_In, Hin.
      * intros k0 Hk0. apply Hall. now right.
    + rewrite decide_False.
      * apply IH; [exact Hkey|exact Hl|]. intros k0 Hk0. apply Hall. now right.
      * intros ->. apply Hk, list_elem_of_In, Hkey.
  - intros Hz.
    destruct (scan_iter_length "worker:" ":heartbeat" again r) as [_ Heq].
    unfold get_workers. rewrite (Heq Hz). split; [exact Hnd|].
    intros again' Hz'. rewrite stats_agree_with_workers. unfold get_workers.
    destruct (scan_iter_length "worker:" ":heartbeat" again' r) as [_ Heq'].
    now rewrite (Heq' Hz').
Qed.

(** One worker, a scan that yields its key twice: two entries. *)
Example workers_listed_twice :
  let r := heartbeat "node-a:worker-0" 60 "t0" Sample.empty_store in
  map info_id (get_workers Sample.twice r) = ["node-a:worker-0"; "node-a:worker-0"] /\
  map info_id (get_workers Sample.once r) = ["node-a:worker-0"] /\
  active_workers Sample.twice r = 2.
Proof. vm_compute. repeat split; reflexivity. Qed.

(** *** The executor's answer and the gateway's wait *)

(** A worker that finds a task at the tail of the list takes it and
    stores its result for 180 seconds. *)
Lemma worker_turn_publishes (me key : string) (passes : nat) (site : Site)
    (r : Store) (older : list Raw) (t : Task) :
  Redis.lists r !! key = Some (older ++ [Json t])%list ->
  worker_turn me key passes site r
  = ({| Redis.clock := Redis.clock r;
        Redis.strings :=
          <[result_key (id t) :=
              {| Redis.value := Res (published_for me passes site t);
                 Redis.expires := Some (Redis.clock r + 180) |}]> (Redis.strings r);
        Redis.lists := <[key := older]> (Redis.lists r) |},
     Some t).
Proof.
  intros Hl. unfold worker_turn, Redis.brpop. rewrite Hl.
  change (default [] (Some (older ++ [Json t])%list)) with (older ++ [Json t])%list.
  rewrite last_snoc, removelast_last. reflexivity.
Qed.



Lemma await_found (n : nat) (meanwhile : Store -> Store) (key : string)
    (r : Store) (res : Result) :
  Redis.get key r = None ->
  Redis.get key (Redis.elapse 1 (meanwhile r)) = Some (Res res) ->
  await (S (S n)) 0 None meanwhile key r
  = (Found (Res res), Redis.del key (Redis.elapse 1 (meanwhile r))).
Proof. intros H0 H1. cbn [await raises]. now rewrite H0, H1. Qed.

(** X6.  A request that reaches an empty queue while one worker polls it
    is answered, one second later, with the result this worker publishes
    for the task of the request, tagged as not from the cache; the task and
    the result key are consumed; a success is then in the cache under the
    parameters of the request, an error is not. *)
Theorem master_round_trip (md5_hex : string -> string) (clock_ms : Z) (a : Args)
    (st : State) (q l me : string) (passes : nat) (site : Site) :
  reaches_queue md5_hex a st q l ->
  default [] (Redis.lists (redis st) !! tasks_key) = [] ->
  let lim := _normalize_limit (match arg_limit a with
                               | Some v => PyText v
                               | None => PyInt 10
                               end) in
  let task := new_task clock_ms q l lim in
  Redis.get (result_key (id task)) (redis st) = None ->
  let res := published_for me passes site task in
  let out := search md5_hex None clock_ms
               (fun r => fst (worker_turn me tasks_key passes site r)) a st in
  fst out = Ok200 (set_from_cache res false) /\
  Redis.lists (redis (snd out)) !! tasks_key = Some [] /\
  Redis.get (result_key (id task)) (redis (snd out)) = None /\
  Redis.clock (redis (snd out)) = Redis.clock (redis st) + 1 /\
  Redis.get (generate_cache_key md5_hex q l lim) (redis (snd out))
    = match status res with
      | StSuccess => Some (Res res)
      | StError => Redis.get (generate_cache_key md5_hex q l lim)
                             (Redis.elapse 1 (redis st))
      end.
Proof.
  intros Hreach Hempty lim task Hnone res out.
  destruct Hreach as (Hq & Hl & Htq & Htl & Hmiss).
  unfold out, search. cbn [raises]. rewrite Hq, Hl, Htq, Htl, andb_false_r.
  cbn [negb orb]. fold lim.
  set (st1 := {| redis := redis st; stats := bump_total (stats st) |}).
  assert (Hc : (if String.eqb (PyStr.lower (default "true" (arg_use_cache a))) "true"
                then get_cached_result md5_hex q l lim st1 else (Miss, st1))
               = (Miss, st1)).
  { destruct Hmiss as [-> | Hget]; [reflexivity|].
    destruct (String.eqb _ _); [|reflexivity].
    unfold get_cached_result. cbn [redis st1]. fold lim in Hget. now rewrite Hget. }
  rewrite Hc. fold task. cbn [redis st1].
  set (r1 := Redis.lpush tasks_key (Json task) (redis st)).
  assert (Hl1 : Redis.lists r1 !! tasks_key = Some ([] ++ [Json task])%list).
  { unfold r1, Redis.lpush; cbn [Redis.lists].
    rewrite lookup_insert_eq, Hempty. reflexivity. }
  pose proof (worker_turn_publishes me tasks_key passes site r1 [] task Hl1) as Hturn.
  fold res in Hturn.
  set (r2 := Redis.elapse 1 (fst (worker_turn me tasks_key passes site r1))).
  assert (Hget2 : Redis.get (result_key (id task)) r2 = Some (Res res)).
  { unfold r2. rewrite Hturn. cbn [fst].
    unfold Redis.get, Redis.lookup_live, Redis.elapse, Redis.alive.
    cbn [Redis.strings Redis.clock]. rewrite lookup_insert_eq.
    cbn [Redis.expires Redis.value].
    destruct (Redis.clock r1 + 1 <? Redis.clock r1 + 180) eqn:H; [reflexivity|].
    apply Z.ltb_ge in H. lia. }
  rewrite (await_found 118 _ (result_key (id task)) r1 res Hnone Hget2).
  fold r2.
  assert (Hstr2 : forall key, key <> result_key (id task) ->
            Redis.get key (Redis.del (result_key (id task)) r2)
            = Redis.get key (Redis.elapse 1 (redis st))).
  { intros key Hne. unfold r2. rewrite Hturn. cbn [fst].
    unfold Redis.get, Redis.lookup_live, Redis.del, Redis.elapse.
    cbn [Redis.strings Redis.clock].
    now rewrite lookup_delete_ne, lookup_insert_ne by congruence. }
  assert (Hgone : Redis.get (result_key (id task)) (Redis.del (result_key (id task)) r2)
                  = None).
  { unfold Redis.get, Redis.lookup_live, Redis.del. cbn [Redis.strings].
    now rewrite lookup_delete_eq. }
  assert (Hlist2 : Redis.lists (Redis.del (result_key (id task)) r2) !! tasks_key
                   = Some []).
  { unfold r2. rewrite Hturn. cbn [fst Redis.del Redis.elapse Redis.lists].
    apply lookup_insert_eq. }
  assert (Hclock2 : Redis.clock (Redis.del (result_key (id task)) r2)
                    = Redis.clock (redis st) + 1).
  { unfold r2. rewrite Hturn. reflexivity. }
  assert (Hkeys : generate_cache_key md5_hex q l lim <> result_key (id task)).
  { unfold generate_cache_key, result_key. discriminate. }
  destruct (status res) eqn:Hstatus; cbn [fst snd redis].
  - split; [reflexivity|]. rewrite set_cached_result_store.
    cbn [Redis.lists Redis.clock]. split; [exact Hlist2|]. split; [|split].
    + unfold Redis.get, Redis.lookup_live. cbn [Redis.strings Redis.clock].
      rewrite lookup_insert_ne by exact Hkeys. exact Hgone.
    + exact Hclock2.
    + unfold Redis.get, Redis.lookup_live, Redis.alive.
      cbn [Redis.strings Redis.clock]. rewrite lookup_insert_eq.
      cbn [Redis.expires Redis.value].
      destruct (_ <? _) eqn:H; [reflexivity|]. apply Z.ltb_ge in H. lia.
  - split; [reflexivity|]. split; [exact Hlist2|]. split; [exact Hgone|].
    split; [exact Hclock2|]. now apply Hstr2.
Qed.

Lemma master_round_trip_witness :
  let task := new_task 1700000000123 "pizza" "Boston" 10 in
  let res := published_for "node-a:worker-0" 30 Sample.pizza_site task in
  let out := search Sample.plain_digest None 1700000000123
               (fun r => fst (worker_turn "node-a:worker-0" tasks_key 30
                                Sample.pizza_site r))
               (Sample.ask "pizza" "Boston" None) Sample.idle_master in
  fst out = Ok200 (set_from_cache res false) /\
  Redis.lists (redis (snd out)) !! tasks_key = Some [] /\
  Redis.get (result_key (id task)) (redis (snd out)) = None /\
  Redis.clock (redis (snd out)) = Redis.clock (redis Sample.idle_master) + 1 /\
  Redis.get (generate_cache_key Sample.plain_digest "pizza" "Boston" 10)
            (redis (snd out))
    = match status res with
      | StSuccess => Some (Res res)
      | StError => Redis.get (generate_cache_key Sample.plain_digest "pizza" "Boston" 10)
                             (Redis.elapse 1 (redis Sample.idle_master))
      end.
Proof.
  apply (master_round_trip Sample.plain_digest 1700000000123
           (Sample.ask "pizza" "Boston" None) Sample.idle_master
           "pizza" "Boston" "node-a:worker-0" 30 Sample.pizza_site).
  - repeat split. right. vm_compute. reflexivity.
  - reflexivity.
  - vm_compute. reflexivity.
Defined.

(** A request whose cache entry is alive is answered from it. *)
Lemma search_hit (md5_hex : string -> string) (clock_ms : Z)
    (meanwhile : Store -> Store) (a : Args) (st : State) (q l : string)
    (hit : Result) :
  arg_query a = Some q -> arg_location a = Some l ->
  PyStr.truthy q = true -> PyStr.truthy l = true ->
  String.eqb (PyStr.lower (default "true" (arg_use_cache a))) "true" = true ->
  Redis.get (generate_cache_key md5_hex q l
               (_normalize_limit (match arg_limit a with
                                  | Some v => PyText v
                                  | None => PyInt 10
                                  end))) (redis st) = Some (Res hit) ->
  search md5_hex None clock_ms meanwhile a st
  = (Ok200 (set_from_cache hit true),
     {| redis := redis st; stats := bump_hits (bump_total (stats st)) |}).
Proof.
  intros Hq Hl Htq Htl Huse Hget. unfold search. cbn [raises].
  rewrite Hq, Hl, Htq, Htl, Huse. cbn [negb orb andb].
  unfold get_cached_result. cbn [redis]. now rewrite Hget.
Qed.

(** After a success the cache entry of the request is alive and holds
    the result returned, up to the tag. *)
Lemma search_success_entry (md5_hex : string -> string) (clock_ms : Z)
    (meanwhile : Store -> Store) (a : Args) (st : State) (r : Result) :
  String.eqb (PyStr.lower (default "true" (arg_use_cache a))) "true" = true ->
  fst (search md5_hex None clock_ms meanwhile a st) = Ok200 r ->
  status r = StSuccess ->
  exists q l hit,
    arg_query a = Some q /\ arg_location a = Some l /\
    PyStr.truthy q = true /\ PyStr.truthy l = true /\
    set_from_cache hit true = set_from_cache r true /\
    Redis.get (generate_cache_key md5_hex q l
                 (_normalize_limit (match arg_limit a with
                                    | Some v => PyText v
                                    | None => PyInt 10
                                    end)))
              (redis (snd (search md5_hex None clock_ms meanwhile a st)))
    = Some (Res hit).
Proof.
  intros Huse. unfold search. cbn [raises].
  destruct (arg_query a) as [q|]; [|discriminate].
  destruct (arg_location a) as [l|]; [|discriminate].
  destruct (PyStr.truthy q) eqn:Htq; [|discriminate].
  destruct (PyStr.truthy l) eqn:Htl; [|discriminate].
  cbn [negb orb]. rewrite Huse. cbn [andb].
  set (lim := _normalize_limit _).
  unfold get_cached_result. cbn [redis].
  destruct (Redis.get (generate_cache_key md5_hex q l lim) (redis st))
    as [[t|hit]|] eqn:Hfirst.
  2:{ cbn [fst snd redis]. intros [= <-] _.
      exists q, l, hit. repeat split; auto. }
  1: destruct (PyStr.truthy t); [discriminate|].
  all: destruct (await 120 0 None meanwhile _ _) as [[[t'|res]| |] r2];
    try discriminate.
  all: destruct (status res) eqn:Hres; cbn [fst snd redis]; intros [= <-];
    cbn [status set_from_cache]; intros Hst; try congruence.
  all: exists q, l, res; repeat split; auto.
  all: rewrite set_cached_result_store;
    unfold Redis.get, Redis.lookup_live, Redis.alive;
    cbn [Redis.strings Redis.clock]; rewrite lookup_insert_eq;
    cbn [Redis.expires Redis.value];
    destruct (_ <? _) eqn:H; [reflexivity|apply Z.ltb_ge in H; lia].
Qed.

(** X7.  A success that [search] returns is in the cache: the same
    request, made again at once with the cache in use, is answered with
    the same result tagged as from the cache, whatever the executors do,
    and pushes nothing on the task list. *)
Theorem success_is_cached (md5_hex : string -> string) (clock_ms clock_ms' : Z)
    (meanwhile meanwhile' : Store -> Store) (a : Args) (st : State) (r : Result) :
  String.eqb (PyStr.lower (default "true" (arg_use_cache a))) "true" = true ->
  fst (search md5_hex None clock_ms meanwhile a st) = Ok200 r ->
  status r = StSuccess ->
  let st' := snd (search md5_hex None clock_ms meanwhile a st) in
  fst (search md5_hex None clock_ms' meanwhile' a st') = Ok200 (set_from_cache r true) /\
  Redis.lists (redis (snd (search md5_hex None clock_ms' meanwhile' a st')))
    = Redis.lists (redis st') /\
  cache_hits (stats (snd (search md5_hex None clock_ms' meanwhile' a st')))
    = cache_hits (stats st') + 1.
Proof.
  intros Huse Hfirst Hstatus st'.
  destruct (search_success_entry md5_hex clock_ms meanwhile a st r Huse Hfirst Hstatus)
    as (q & l & hit & Hq & Hl & Htq & Htl & Htag & Hget).
  fold st' in Hget.
  rewrite (search_hit md5_hex clock_ms' meanwhile' a st' q l hit Hq Hl Htq Htl Huse Hget).
  cbn [fst snd redis stats]. rewrite Htag. repeat split.
Qed.

Lemma success_is_cached_witness :
  let worker := fun r : Store =>
    fst (worker_turn "node-a:worker-0" tasks_key 30 Sample.pizza_site r) in
  let a := Sample.ask "pizza" "Boston" None in
  let r := set_from_cache
             (published_for "node-a:worker-0" 30 Sample.pizza_site
                (new_task 1700000000123 "pizza" "Boston" 10)) false in
  let st' := snd (search Sample.plain_digest None 1700000000123 worker a Sample.idle_master) in
  fst (search Sample.plain_digest None 1700000009999 (fun r => r) a st')
    = Ok200 (set_from_cache r true) /\
  Redis.lists (redis (snd (search Sample.plain_digest None 1700000009999 (fun r => r) a st')))
    = Redis.lists (redis st') /\
  cache_hits (stats (snd (search Sample.plain_digest None 1700000009999 (fun r => r) a st')))
    = cache_hits (stats st') + 1.
Proof.
  intros worker a r.
  apply (success_is_cached Sample.plain_digest 1700000000123 1700000009999
           worker (fun r => r) a Sample.idle_master r).
  - reflexivity.
  - vm_compute. reflexivity.
  - reflexivity.
Defined.

End MasterMore.

(** ** More on the cluster worker *)
Section WorkerMore.
Import Cluster Master Payload.





(** *** The payload of the cluster worker *)

Lemma first_by_title_keys (cards : list Card) :
  forall seen : gset string,
    NoDup (map card_key (first_by_title seen cards)) /\
    Forall (fun c => (card_key c ∉ seen) /\ PyStr.truthy (card_key c) = true)
           (first_by_title seen cards).
Proof.
  induction cards as [|c cards IH]; intros seen; cbn [first_by_title].
  - split; constructor.
  - destruct (PyStr.truthy (card_key c)) eqn:Ht; cbn [negb orb]; [|apply IH].
    destruct (bool_decide (card_key c ∈ seen)) eqn:Hin; [apply IH|].
    apply bool_decide_eq_false in Hin.
    destruct (IH ({[card_key c]} ∪ seen)) as [Hnd Hall]. split.
    + cbn [map]. apply NoDup_cons. split; [|exact Hnd].
      intros Hc. apply list_elem_of_In, in_map_iff in Hc as (d & Hd & Hdin).
      rewrite Forall_forall in Hall.
      destruct (Hall d (proj2 (list_elem_of_In _ _) Hdin)) as [Hnot _].
      apply Hnot. rewrite Hd. apply elem_of_union_l, elem_of_singleton. reflexivity.
    + constructor; [split; assumption|].
      eapply Forall_impl; [exact Hall|]. intros d [Hd1 Hd2]. split; [|exact Hd2].
      intros Hc. apply Hd1. now apply elem_of_union_r.
Qed.

Lemma NoDup_take {A} (n : nat) (l : list A) : NoDup l -> NoDup (take n l).
Proof.
  intros Hnd. rewrite <- (take_drop n l) in Hnd.
  now apply NoDup_app in Hnd as [? _].
Qed.

(** X9.  The payload a cluster worker returns for a task has at most
    [limit] entries, hence at most 50 for a task that the master built; no
    entry has an empty title, and no two entries have the same title (up to
    surrounding white space). *)
Theorem cluster_payload_shape (me : string) (passes : nat) (site : Site)
    (clock_ms : Z) (q l : string) (raw : PyVal) (r : Result) :
  handle_task me passes site (new_task clock_ms q l (_normalize_limit raw)) = inr r ->
  (length (places r) <= Z.to_nat (_normalize_limit raw) <= 50)%nat /\
  Forall (fun p => PyStr.truthy (PyStr.strip (default "" (title p))) = true)
         (places r) /\
  NoDup (map (fun p => PyStr.strip (default "" (title p))) (places r)) /\
  task_id r = Some ("task:" ++ PyStr.str_of_int clock_ms).
Proof.
  unfold handle_task. cbn [query location limit id new_task].
  destruct (negb (PyStr.truthy _) || negb (PyStr.truthy _)); [discriminate|].
  destruct (google_local_search _ _ _ _ _ _) as [e|res] eqn:Hsearch; [discriminate|].
  intros [= <-]. cbn [places task_id].
  apply google_local_search_payload in Hsearch. rewrite Hsearch.
  set (cards := first_by_title ∅ (shown passes (dom site))).
  destruct (first_by_title_keys (shown passes (dom site)) ∅) as [Hnd Hall].
  fold cards in Hnd, Hall.
  pose proof (normalize_limit_range raw) as Hrange.
  split; [|split; [|split; [|reflexivity]]].
  - rewrite number_from_length, length_firstn. lia.
  - assert (Hgen : forall pos cs,
              Forall (fun c => PyStr.truthy (card_key c) = true) cs ->
              Forall (fun p => PyStr.truthy (PyStr.strip (default "" (title p))) = true)
                     (number_from pos cs)).
    { intros pos cs. revert pos.
      induction cs as [|c cs IH]; intros pos Hcs; cbn; constructor.
      - now inversion Hcs.
      - apply IH. now inversion Hcs. }
    apply Hgen. apply Forall_take. eapply Forall_impl; [exact Hall|]. now intros c [_ ?].
  - assert (Hmap : forall pos cs,
              map (fun p => PyStr.strip (default "" (title p))) (number_from pos cs)
              = map card_key cs).
    { intros pos cs. revert pos.
      induction cs as [|c cs IH]; intros pos; cbn; [reflexivity|]. now rewrite IH. }
    rewrite Hmap, <- firstn_map. now apply NoDup_take.
Qed.

Lemma cluster_payload_shape_witness :
  let r := {| status := StSuccess; task_id := Some "task:1700000000123";
              places := places Sample.chain_answer; error := None;
              search_q := Some "pizza Boston"; worker_id := "node-a:worker-0";
              captchas_solved := 0; from_cache := false |} in
  (length (places r) <= Z.to_nat (_normalize_limit (PyText "500")) <= 50)%nat /\
  Forall (fun p => PyStr.truthy (PyStr.strip (default "" (title p))) = true)
         (places r) /\
  NoDup (map (fun p => PyStr.strip (default "" (title p))) (places r)) /\
  task_id r = Some ("task:" ++ PyStr.str_of_int 1700000000123).
Proof.
  intros r.
  apply (cluster_payload_shape "node-a:worker-0" 30 Sample.chain_site
           1700000000123 "pizza" "Boston" (PyText "500") r).
  vm_compute. reflexivity.
Defined.

(** *** [safe_get] *)

Lemma safe_get_tries_spec (left : nat) (backoff : Z) (attempt : nat -> GetOutcome) :
  forall (k : nat) (last_err : option string) (slept : Z),
    (forall i, (i < k)%nat -> exists e, attempt i = Caught e) ->
    2 * slept = backoff * Z.of_nat k * (Z.of_nat k + 1) ->
    match k with
    | O => last_err = None
    | S m => attempt m = Caught (default "" last_err) /\ is_Some last_err
    end ->
    let '(out, calls, slept') := safe_get_tries left k last_err backoff slept attempt in
    (calls <= k + left)%nat /\
    match out with
    | Returned =>
        exists j, calls = S j /\ attempt j = Loaded /\
                  (forall i, (i < j)%nat -> exists e, attempt i = Caught e) /\
                  2 * slept' = backoff * Z.of_nat j * (Z.of_nat j + 1)
    | Raised e =>
        (exists j, calls = S j /\ attempt j = Uncaught e /\
                   (forall i, (i < j)%nat -> exists e', attempt i = Caught e') /\
                   2 * slept' = backoff * Z.of_nat j * (Z.of_nat j + 1)) \/
        (calls = (k + left)%nat /\
         (forall i, (i < calls)%nat -> exists e', attempt i = Caught e') /\
         2 * slept' = backoff * Z.of_nat calls * (Z.of_nat calls + 1) /\
         match calls with
         | O => e = "Falha desconhecida no safe_get"
         | S m => attempt m = Caught e
         end)
    end.
Proof.
  induction left as [|left IH]; intros k last_err slept Hcaught Hslept Hlast;
    cbn [safe_get_tries].
  - rewrite Nat.add_0_r. split; [lia|]. right. split; [reflexivity|].
    split; [exact Hcaught|]. split; [exact Hslept|].
    destruct k as [|m]; [now rewrite Hlast|].
    destruct Hlast as [Hm [e ->]]. exact Hm.
  - destruct (attempt k) as [|e|e] eqn:Hk.
    + split; [lia|]. exists k. auto.
    + specialize (IH (S k) (Some e) (slept + backoff * Z.of_nat (S k))).
      destruct (safe_get_tries left (S k) (Some e) backoff
                  (slept + backoff * Z.of_nat (S k)) attempt) as [[out calls] slept'].
      destruct IH as [Hcalls Hout].
      * intros i Hi. destruct (decide (i = k)) as [->|Hne]; [eauto|].
        apply Hcaught. lia.
      * lia.
      * cbn. split; [exact Hk|eauto].
      * split; [lia|]. destruct out as [|e0]; [exact Hout|].
        destruct Hout as [Hout|(Hc & Hrest)]; [now left|].
        right. split; [lia|exact Hrest].
    + split; [lia|]. left. exists k. auto.
Qed.

(** X10.  [safe_get] tries at most [tries] times and stops at the first
    page load that succeeds or that raises an exception it does not catch;
    when every try raises a caught exception it raises the last one, and
    with no try at all the error "Falha desconhecida no safe_get".  The
    time slept is [backoff] times 1 + 2 + ... over the caught failures,
    the last one included. *)
Theorem safe_get_policy (tries backoff : Z) (attempt : nat -> GetOutcome) :
  let '(out, calls, slept) := safe_get tries backoff attempt in
  (calls <= Z.to_nat tries)%nat /\
  match out with
  | Returned =>
      exists j, calls = S j /\ attempt j = Loaded /\
                (forall i, (i < j)%nat -> exists e, attempt i = Caught e) /\
                2 * slept = backoff * Z.of_nat j * (Z.of_nat j + 1)
  | Raised e =>
      (exists j, calls = S j /\ attempt j = Uncaught e /\
                 (forall i, (i < j)%nat -> exists e', attempt i = Caught e') /\
                 2 * slept = backoff * Z.of_nat j * (Z.of_nat j + 1)) \/
      (calls = Z.to_nat tries /\
       (forall i, (i < calls)%nat -> exists e', attempt i = Caught e') /\
       2 * slept = backoff * Z.of_nat calls * (Z.of_nat calls + 1) /\
       match calls with
       | O => e = "Falha desconhecida no safe_get"
       | S m => attempt m = Caught e
       end)
  end.
Proof.
  unfold safe_get.
  apply (safe_get_tries_spec (Z.to_nat tries) backoff attempt 0 None 0).
  - intros i Hi. lia.
  - lia.
  - reflexivity.
Qed.

Example safe_get_run :
  safe_get 3 2 (fun k => match k with
                         | O => Caught "timeout"
                         | 1%nat => Caught "disconnected"
                         | _ => Loaded
                         end) = (Returned, 3%nat, 6) /\
  safe_get 3 2 (fun _ => Caught "timeout") = (Raised "timeout", 3%nat, 12) /\
  safe_get 0 2 (fun _ => Loaded)
    = (Raised "Falha desconhecida no safe_get", 0%nat, 0).
Proof. repeat split; reflexivity. Qed.

End WorkerMore.

(** ** The rotation of the Wit.ai keys *)
Section KeyRotation.
Import Solver.

(** X11.  From a valid index, [n] calls of [_get_next_wit_key] never
    fail and hand out the keys in order, cyclically: call number [j] returns
    the key at index [(i + j) mod len], and the index ends at
    [(i + n) mod len]. *)
Theorem wit_keys_rotate (n : nat) :
  forall s : FreeCaptchaSolver,
    (current_key_index s < length (wit_api_keys s))%nat ->
    draw n s
    = Some (map (fun j => nth ((current_key_index s + j) mod length (wit_api_keys s))
                              (wit_api_keys s) "")
                (seq 0 n),
            {| wit_api_keys := wit_api_keys s;
               current_key_index :=
                 (current_key_index s + n) mod length (wit_api_keys s) |}).
Proof.
  induction n as [|n IH]; intros [keys i] Hi; cbn [wit_api_keys current_key_index] in *.
  - cbn. rewrite Nat.add_0_r, Nat.mod_small by exact Hi. reflexivity.
  - cbn [draw]. unfold _get_next_wit_key. cbn [wit_api_keys current_key_index].
    destruct (keys !! i) as [key|] eqn:Hlook.
    2:{ apply lookup_ge_None in Hlook. lia. }
    rewrite IH; cbn [wit_api_keys current_key_index].
    2:{ apply Nat.mod_upper_bound. lia. }
    f_equal. f_equal.
    + cbn [seq map]. f_equal.
      * rewrite Nat.add_0_r, Nat.mod_small by exact Hi.
        symmetry. apply nth_lookup_Some with (d := ""). exact Hlook.
      * rewrite <- seq_shift, map_map. apply map_ext. intros j.
        rewrite Nat.Div0.add_mod_idemp_l. do 2 f_equal. lia.
    + f_equal. rewrite Nat.Div0.add_mod_idemp_l. f_equal. lia.
Qed.

Lemma wit_keys_rotate_witness :
  draw 5 {| wit_api_keys := ["k0"; "k1"; "k2"]; current_key_index := 1 |}
  = Some (map (fun j => nth ((1 + j) mod 3) ["k0"; "k1"; "k2"] "") (seq 0 5),
          {| wit_api_keys := ["k0"; "k1"; "k2"];
             current_key_index := (1 + 5) mod 3 |}).
Proof.
  apply (wit_keys_rotate 5 {| wit_api_keys := ["k0"; "k1"; "k2"];
                              current_key_index := 1 |}).
  cbn. lia.
Defined.

End KeyRotation.

(** ** The life of the thread pool: [start], [_worker_loop], [stop] *)
Section PoolLife.
Import Pool Interleaving.

Lemma started_workers (n : nat) (init_ok : nat -> bool) (p : WorkerPool) :
  workers p = [] ->
  workers (start n init_ok p) = map new_worker (List.filter init_ok (seq 0 n)).
Proof. intros H. unfold start. cbn [workers]. now rewrite H. Qed.

(** X12.  [start] on a pool that has no worker yet: the pool is running,
    it has one worker for each [initialize] that succeeded and no other,
    each with a number of its own between 1 and [num_workers], at rest with
    its counters at zero and its thread in the loop; it has no worker at
    all exactly when every [initialize] failed; the queues are untouched. *)
Theorem start_spawns (n : nat) (init_ok : nat -> bool) (p : WorkerPool) :
  workers p = [] ->
  let p' := start n init_ok p in
  is_running p' = true /\
  NoDup (map wid (workers p')) /\
  total_workers p' = Z.of_nat (length (List.filter init_ok (seq 0 n))) /\
  0 <= total_workers p' <= Z.of_nat n /\
  available_workers p' = total_workers p' /\
  (forall w, w ∈ workers p' <->
             exists i, (i < n)%nat /\ init_ok i = true /\ w = new_worker i) /\
  (forall w, w ∈ workers p' ->
             1 <= wid w <= Z.of_nat n /\ settled w /\ looping w = true /\
             total_searches w = 0) /\
  (total_workers p' = 0 <-> forall i, (i < n)%nat -> init_ok i = false) /\
  task_queue p' = task_queue p /\ result_queue p' = result_queue p.
Proof.
  intros Hnone p'.
  pose proof (started_workers n init_ok p Hnone) as Hws. fold p' in Hws.
  assert (Hmem : forall w, w ∈ workers p' <->
             exists i, (i < n)%nat /\ init_ok i = true /\ w = new_worker i).
  { intros w. rewrite Hws, list_elem_of_In, in_map_iff. split.
    - intros (i & <- & Hin). apply filter_In in Hin as [Hin Hok].
      apply in_seq in Hin. exists i. repeat split; [lia|exact Hok].
    - intros (i & Hi & Hok & ->). exists i. split; [reflexivity|].
      apply filter_In. split; [apply in_seq; lia|exact Hok]. }
  split; [reflexivity|]. split.
  { rewrite Hws, map_map. apply NoDup_map_on.
    - apply NoDup_ListNoDup, List.NoDup_filter, List.seq_NoDup.
    - intros x y _ _. cbn. lia. }
  split; [unfold total_workers; now rewrite Hws, length_map|].
  split.
  { unfold total_workers. rewrite Hws, length_map.
    pose proof (List.filter_length_le init_ok (seq 0 n)) as Hle.
    rewrite length_seq in Hle. lia. }
  split.
  { unfold available_workers, busy_workers. rewrite Hws.
    assert (Hidle : forall l : list nat,
               filter (fun w => is_busy w = true) (map new_worker l) = []).
    { induction l as [|i l IH]; [reflexivity|].
      cbn [map]. rewrite filter_cons_False by (cbn; discriminate). exact IH. }
    rewrite Hidle. cbn. lia. }
  split; [exact Hmem|]. split.
  { intros w Hw. apply Hmem in Hw as (i & Hi & _ & ->). cbn.
    repeat split; lia. }
  split; [|split; reflexivity].
  unfold total_workers. rewrite Hws, length_map. split.
  - intros Hzero i Hi. destruct (init_ok i) eqn:Hok; [|reflexivity].
    assert (Hin : In i (List.filter init_ok (seq 0 n))).
    { apply filter_In. split; [apply in_seq; lia|exact Hok]. }
    destruct (List.filter init_ok (seq 0 n)); [destruct Hin|cbn in Hzero; lia].
  - intros Hall.
    destruct (List.filter init_ok (seq 0 n)) as [|i l] eqn:Hf; [reflexivity|].
    assert (Hin : In i (List.filter init_ok (seq 0 n))) by (rewrite Hf; now left).
    apply filter_In in Hin as [Hin Hok]. apply in_seq in Hin.
    rewrite Hall in Hok by lia. discriminate.
Qed.

Lemma start_spawns_witness :
  let p' := start 3 (fun i => negb (Nat.eqb i 1)) Sample.empty_pool in
  is_running p' = true /\
  NoDup (map wid (workers p')) /\
  total_workers p'
    = Z.of_nat (length (List.filter (fun i => negb (Nat.eqb i 1)) (seq 0 3))) /\
  0 <= total_workers p' <= Z.of_nat 3 /\
  available_workers p' = total_workers p' /\
  (forall w, w ∈ workers p' <->
             exists i, (i < 3)%nat /\ negb (Nat.eqb i 1) = true /\ w = new_worker i) /\
  (forall w, w ∈ workers p' ->
             1 <= wid w <= Z.of_nat 3 /\ settled w /\ looping w = true /\
             total_searches w = 0) /\
  (total_workers p' = 0 <-> forall i, (i < 3)%nat -> negb (Nat.eqb i 1) = false) /\
  task_queue p' = task_queue Sample.empty_pool /\
  result_queue p' = result_queue Sample.empty_pool.
Proof.
  apply (start_spawns 3 (fun i => negb (Nat.eqb i 1)) Sample.empty_pool).
  reflexivity.
Defined.

Example start_run :
  map wid (workers (start 3 (fun i => negb (Nat.eqb i 1)) Sample.empty_pool)) = [1; 3].
Proof. reflexivity. Qed.

(** *** After [stop] *)

Lemma stopped_turn (i : nat) (session : nat -> Browser) (p : WorkerPool) :
  is_running p = false ->
  snd (worker_turn i session p) = None /\
  is_running (fst (worker_turn i session p)) = false /\
  task_queue (fst (worker_turn i session p)) = task_queue p /\
  result_queue (fst (worker_turn i session p)) = result_queue p /\
  forall w, workers (fst (worker_turn i session p)) !! i = Some w -> looping w = false.
Proof.
  intros Hstop. unfold worker_turn.
  destruct (workers p !! i) as [w|] eqn:Hw.
  2:{ cbn. rewrite Hw. repeat split; auto. discriminate. }
  destruct (looping w) eqn:Hl; cbn [negb].
  2:{ cbn. rewrite Hw. repeat split; auto. now intros ? [= <-]. }
  rewrite Hstop. cbn. repeat split; auto.
  intros w'. rewrite list_lookup_insert_eq by (eapply lookup_lt_Some; eauto).
  now intros [= <-].
Qed.

Lemma stopped_run (steps : list PoolStep) :
  forall p : WorkerPool,
    is_running p = false ->
    snd (run_pool steps p) = [] /\
    is_running (fst (run_pool steps p)) = false /\
    task_queue (fst (run_pool steps p))
      = (task_queue p ++ map Some (submitted steps))%list /\
    result_queue (fst (run_pool steps p)) = result_queue p.
Proof.
  induction steps as [|[i session|t] steps IH]; intros p Hstop.
  - cbn. now rewrite app_nil_r.
  - change (submitted (Poll i session :: steps)) with (submitted steps).
    cbn [run_pool].
    destruct (stopped_turn i session p Hstop) as (Hgot & Hrun & Hq & Hr & _).
    destruct (worker_turn i session p) as [p1 got]. cbn [fst snd] in *.
    destruct (IH p1 Hrun) as (Hlog & Hrun' & Hq' & Hr').
    destruct (run_pool steps p1) as [p2 log]. cbn [fst snd] in *.
    subst got. rewrite Hq', Hr', Hq, Hr. auto.
  - change (submitted (Submit t :: steps)) with (t :: submitted steps).
    cbn [run_pool].
    destruct (IH (submit_task (query t) (location t) (id t) (limit t) p) Hstop)
      as (Hlog & Hrun' & Hq' & Hr').
    rewrite Hlog, Hrun', Hq', Hr'. cbn [submit_task set_task_queue task_queue
                                        result_queue map].
    rewrite <- app_assoc. cbn [app]. now destruct t.
Qed.

(** X13.  Once [stop] has run, the turns of [_worker_loop] that begin
    take no task, whatever the schedule: the tasks that were waiting and
    the ones submitted later stay on the queue behind one sentinel per
    worker, no result is produced, and a worker that makes a turn has left
    its loop. *)
Theorem stopped_pool_serves_nothing (steps : list PoolStep) (p : WorkerPool) :
  let out := run_pool steps (stop p) in
  snd out = [] /\
  is_running (fst out) = false /\
  task_queue (fst out)
    = (task_queue p ++ map (fun _ => None) (workers p)
       ++ map Some (submitted steps))%list /\
  waiting (fst out) = (waiting p ++ submitted steps)%list /\
  result_queue (fst out) = result_queue p /\
  forall i session w,
    workers (fst (worker_turn i session (stop p))) !! i = Some w ->
    looping w = false.
Proof.
  intros out.
  destruct (stopped_run steps (stop p) eq_refl) as (Hlog & Hrun & Hq & Hr).
  fold out in Hlog, Hrun, Hq, Hr.
  split; [exact Hlog|]. split; [exact Hrun|]. split.
  { rewrite Hq. cbn [stop task_queue]. now rewrite <- app_assoc. }
  split.
  { unfold waiting. rewrite Hq. cbn [stop task_queue].
    assert (Hnone : forall ws : list Worker,
               omap (fun x : option Task => x) (map (fun _ => None) ws) = []).
    { induction ws as [|w ws IH]; [reflexivity|exact IH]. }
    assert (Hsome : forall ts : list Task,
               omap (fun x : option Task => x) (map Some ts) = ts).
    { induction ts as [|t ts IH]; [reflexivity|]. cbn. now rewrite IH. }
    now rewrite !omap_app, Hnone, Hsome, app_nil_r. }
  split; [exact Hr|].
  intros i session w. apply (stopped_turn i session (stop p) eq_refl).
Qed.

Example stop_run :
  let t := {| id := "a"; query := "pizza"; location := "Boston"; limit := Some 2 |} in
  let see := fun _ : nat => Sample.pizza_page in
  let out := run_pool [Submit t; Poll 0 see; Poll 0 see] (stop Sample.one_worker_pool) in
  snd out = [] /\ task_queue (fst out) = [None; Some t] /\
  map looping (workers (fst out)) = [false].
Proof. vm_compute. repeat split; reflexivity. Qed.

(** *** The counters *)





Lemma filter_insert_length {A : Type} (test : A -> bool) (l : list A) :
  forall (i : nat) (old new : A),
    l !! i = Some old ->
    Z.of_nat (length (List.filter test (<[i := new]> l)))
    = Z.of_nat (length (List.filter test l))
      + (if test new then 1 else 0) - (if test old then 1 else 0).
Proof.
  induction l as [|x l IH]; intros [|i] old new Hi; try discriminate.
  - injection Hi as ->. cbn. destruct (test new), (test old); cbn; lia.
  - change (<[S i := new]> (x :: l)) with (x :: <[i := new]> l).
    specialize (IH i old new Hi). cbn [List.filter].
    destruct (test x); cbn [length]; lia.
Qed.





(** Two workers, the second ends its search while the first is still
    inside: one worker is busy, two searches are counted, one of them as a
    success, and the only result on the queue is the one of the task that
    was taken second. *)
Example counters_mid_search :
  let t := fun n => {| id := n; query := "pizza"; location := "Boston";
                       limit := Some 2 |} in
  let see := fun _ : nat => Sample.pizza_page in
  let st := idle_threads (set_workers Sample.one_worker_pool
                            [Sample.fresh_worker; Sample.fresh_worker]) in
  let st' := fst (run_threads [TSubmit (t "a"); TSubmit (t "b"); TTake 0; TBegin 0;
                               TTake 1; TBegin 1; TEnd 1 see] st) in
  busy_workers (tpool st') = 1 /\
  (sum_of total_searches (tpool st'), sum_of successful_searches (tpool st'),
   sum_of failed_searches (tpool st')) = (2, 1, 0) /\
  map task_id (result_queue (tpool st')) = [Some "b"] /\
  in_hands st' = [t "a"].
Proof. vm_compute. repeat split; reflexivity. Qed.

End PoolLife.

(** ** [get_result] and the order of the result queue *)
Section ResultOrder.
Import Pool.

Lemma get_result_loop_rotates (tid : string) (x : Result) (pre : list Result) :
  forall (fuel : nat) (end_time : Z) (w : World) (post : list Result),
    PyStr.truthy tid = true ->
    inflight w = [] ->
    result_queue (pool w) = (pre ++ x :: post)%list ->
    task_id x = Some tid ->
    Forall (fun r => task_id r <> Some tid) pre ->
    now w + Z.of_nat (length pre) * Z.pos (op_cost w) < end_time ->
    (length pre < fuel)%nat ->
    get_result_loop fuel (Some tid) end_time w
    = Some (Some x,
            {| now := now w + (Z.of_nat (length pre) + 1) * Z.pos (op_cost w);
               op_cost := op_cost w; inflight := [];
               pool := set_result_queue (pool w) (post ++ pre)%list |}).
Proof.
  induction pre as [|r pre IH];
    intros fuel end_time w post Htid Hfl Hq Hx Hpre Htime Hfuel.
  - destruct fuel as [|fuel]; [cbn in Hfuel; lia|]. cbn [get_result_loop].
    cbn [length] in Htime.
    destruct (now w <? end_time) eqn:Hnow; [|apply Z.ltb_ge in Hnow; lia].
    unfold queue_get. rewrite Hfl. cbn [land]. rewrite Hq. cbn [app].
    unfold wanted. rewrite Htid, Hx. cbn [negb orb].
    rewrite bool_decide_eq_true_2 by reflexivity.
    rewrite app_nil_r. cbn [length]. do 3 f_equal; lia.
  - destruct fuel as [|fuel]; [cbn in Hfuel; lia|]. cbn [get_result_loop].
    cbn [length] in Htime, Hfuel.
    apply Forall_cons in Hpre as [Hr Hpre].
    destruct (now w <? end_time) eqn:Hnow; [|apply Z.ltb_ge in Hnow; lia].
    unfold queue_get. rewrite Hfl. cbn [land]. rewrite Hq. cbn [app].
    unfold wanted. rewrite Htid. cbn [negb orb].
    rewrite bool_decide_eq_false_2 by exact Hr.
    rewrite (IH fuel end_time _ (post ++ [r])%list Htid); cbn; try assumption.
    + do 3 f_equal; [lia|]. unfold set_result_queue. cbn.
      now rewrite <- app_assoc.
    + reflexivity.
    + now rewrite app_nil_r, <- app_assoc.
    + lia.
    + lia.
Qed.

(** X15.  With several results for the caller's id on the queue and no
    put in flight, [get_result] returns the oldest one that carries the id;
    every result it met before is put back behind the others, so the
    results that were ahead of the match end up at the back of the queue;
    the call lasts one [get] per result it took. *)
Theorem get_result_takes_oldest_match (tid : string) (timeout : Z) (w : World)
    (pre post : list Result) (x : Result) :
  PyStr.truthy tid = true ->
  inflight w = [] ->
  result_queue (pool w) = (pre ++ x :: post)%list ->
  task_id x = Some tid ->
  Forall (fun r => task_id r <> Some tid) pre ->
  Z.of_nat (length pre) * Z.pos (op_cost w) < timeout ->
  get_result (Some tid) timeout w
  = Some (Some x,
          {| now := now w + (Z.of_nat (length pre) + 1) * Z.pos (op_cost w);
             op_cost := op_cost w; inflight := [];
             pool := set_result_queue (pool w) (post ++ pre)%list |}).
Proof.
  intros Htid Hfl Hq Hx Hpre Htime. unfold get_result.
  apply get_result_loop_rotates; try assumption; [lia|].
  assert (Z.of_nat (length pre) <= Z.of_nat (length pre) * Z.pos (op_cost w)) by nia.
  lia.
Qed.

Lemma get_result_takes_oldest_match_witness :
  let a := Sample.answer 2 "id-1" in
  let b := Sample.answer 3 "id-9" in
  let c := Sample.answer 4 "id-1" in
  let w := {| now := 0; op_cost := 1; inflight := [];
              pool := set_result_queue Sample.one_worker_pool [b; a; c] |} in
  get_result (Some "id-1") 120000 w
  = Some (Some a,
          {| now := now w + (Z.of_nat (length [b]) + 1) * Z.pos (op_cost w);
             op_cost := op_cost w; inflight := [];
             pool := set_result_queue (pool w) ([c] ++ [b])%list |}).
Proof.
  intros a b c w.
  apply (get_result_takes_oldest_match "id-1" 120000 w [b] [c] a).
  - reflexivity.
  - reflexivity.
  - reflexivity.
  - reflexivity.
  - repeat constructor. discriminate.
  - cbn. lia.
Defined.

End ResultOrder.

(** ** The cache of the single-process gateway *)
Section GatewayCache.
Import Pool Gateway.


(** X16.  The cache of the single-process gateway holds successes only
    and never loses a key: if every entry is a success before a request,
    so it is after; an answer with status 200 is a success and is the entry
    under the key of the request afterwards; a time-out and an error of the
    executor leave the cache as it was; a request that is rejected (400,
    500 on the limit, 503) changes nothing at all. *)
Theorem gateway_cache_holds_successes (uuid : string) (a : Args) (s : Server) :
  (forall k r, cache_memory s !! k = Some r -> status r = StSuccess) ->
  let key := get_cache_key (PyStr.strip (default "" (arg_query a)))
                           (PyStr.strip (default "" (arg_location a))) in
  let '(resp, s') := search uuid a s in
  (forall k r, cache_memory s' !! k = Some r -> status r = StSuccess) /\
  (forall k, is_Some (cache_memory s !! k) -> is_Some (cache_memory s' !! k)) /\
  match resp with
  | Ok200 r => status r = StSuccess /\ cache_memory s' = <[key := r]> (cache_memory s)
  | Error500 r => status r = StError /\ cache_memory s' = cache_memory s
  | Timeout504 _ | NoAnswer => cache_memory s' = cache_memory s
  | BadRequest400 | Unhandled500 | NotInitialised503 | NoWorker503 => s' = s
  end.
Proof.
  intros Hinv key.
  assert (Hins : forall r, status r = StSuccess ->
            (forall k r0, <[key := r]> (cache_memory s) !! k = Some r0 ->
                          status r0 = StSuccess) /\
            (forall k, is_Some (cache_memory s !! k) ->
                       is_Some (<[key := r]> (cache_memory s) !! k))).
  { intros r Hr. split.
    - intros k r0. destruct (decide (k = key)) as [->|Hne].
      + rewrite lookup_insert_eq. now intros [= <-].
      + rewrite lookup_insert_ne by congruence. apply Hinv.
    - intros k Hk. destruct (decide (k = key)) as [->|Hne].
      + rewrite lookup_insert_eq. eauto.
      + now rewrite lookup_insert_ne by congruence. }
  unfold search. fold key.
  destruct (read_limit a s) as [lim|]; [|now repeat split].
  destruct (negb _ || negb _); [now repeat split|].
  destruct (cache_memory s !! key) as [hit|] eqn:Hhit.
  { assert (Hs : status (set_from_cache hit true) = StSuccess)
      by (cbn; eapply Hinv, Hhit).
    destruct (Hins _ Hs) as [H1 H2]. cbn [cache_memory set_cache].
    repeat split; assumption. }
  destruct (worker_pool s) as [w|]; [|now repeat split].
  destruct (_ && _); [now repeat split|].
  destruct (get_result _ _ _) as [[[result|] w2]|]; try (now repeat split).
  destruct (status result) eqn:Hst; [|now repeat split].
  assert (Hs : status (set_from_cache result false) = StSuccess) by exact Hst.
  destruct (Hins _ Hs) as [H1 H2]. cbn [cache_memory set_cache set_world].
  repeat split; assumption.
Qed.

Lemma gateway_cache_holds_successes_witness :
  let key := get_cache_key (PyStr.strip (default "" (arg_query (Sample.request "2"))))
                           (PyStr.strip (default "" (arg_location (Sample.request "2")))) in
  let '(resp, s') := search "id-1" (Sample.request "2") Sample.server0 in
  (forall k r, cache_memory s' !! k = Some r -> status r = StSuccess) /\
  (forall k, is_Some (cache_memory Sample.server0 !! k) -> is_Some (cache_memory s' !! k)) /\
  match resp with
  | Ok200 r => status r = StSuccess /\
               cache_memory s' = <[key := r]> (cache_memory Sample.server0)
  | Error500 r => status r = StError /\ cache_memory s' = cache_memory Sample.server0
  | Timeout504 _ | NoAnswer => cache_memory s' = cache_memory Sample.server0
  | BadRequest400 | Unhandled500 | NotInitialised503 | NoWorker503 => s' = Sample.server0
  end.
Proof.
  apply (gateway_cache_holds_successes "id-1" (Sample.request "2") Sample.server0).
  intros k r. cbn. rewrite lookup_empty. discriminate.
Defined.



End GatewayCache.

(** ** The cache keys as texts *)
Section CacheKeys.

Lemma lower_ascii_idem (c : ascii) :
  PyStr.lower_ascii (PyStr.lower_ascii c) = PyStr.lower_ascii c.
Proof. destruct c as [[] [] [] [] [] [] [] []]; reflexivity. Qed.

Lemma lower_idem (s : string) : PyStr.lower (PyStr.lower s) = PyStr.lower s.
Proof.
  induction s as [|c s IH]; [reflexivity|].
  cbn [PyStr.lower]. now rewrite lower_ascii_idem, IH.
Qed.

Lemma lower_app (a b : string) :
  PyStr.lower (a ++ b) = PyStr.lower a ++ PyStr.lower b.
Proof.
  induction a as [|c a IH]; [reflexivity|].
  rewrite append_cons. cbn [PyStr.lower]. now rewrite append_cons, IH.
Qed.

(** X18.  The key of the single-process cache does not tell letter case
    apart, and neither gateway's key tells where the query ends: a bar (a
    colon in the multi-host gateway) in the query or in the location moves
    the border between the two, so that two different requests share a
    cache entry. *)
Theorem cache_keys_fold :
  (forall q l : string,
     Gateway.get_cache_key (PyStr.lower q) (PyStr.lower l) = Gateway.get_cache_key q l) /\
  (forall a b c : string,
     Gateway.get_cache_key (a ++ "|" ++ b) c = Gateway.get_cache_key a (b ++ "|" ++ c)) /\
  (forall (md5_hex : string -> string) (a b c : string) (n : Z),
     Master.generate_cache_key md5_hex (a ++ ":" ++ b) c n
     = Master.generate_cache_key md5_hex a (b ++ ":" ++ c) n).
Proof.
  split; [|split].
  - intros q l. unfold Gateway.get_cache_key.
    rewrite !lower_app, !lower_idem. reflexivity.
  - intros a b c. unfold Gateway.get_cache_key. now rewrite !append_assoc.
  - intros md5_hex a b c n. unfold Master.generate_cache_key, Master.key_string.
    now rewrite !append_assoc.
Qed.

Example cache_keys_fold_run :
  Gateway.get_cache_key "Pizza" "BOSTON" = Gateway.get_cache_key "pizza" "boston" /\
  Gateway.get_cache_key "a|b" "c" = Gateway.get_cache_key "a" "b|c" /\
  Master.key_string "a:b" "c" 10 = Master.key_string "a" "b:c" 10.
Proof. repeat split; reflexivity. Qed.

(** Texts without the separator are cut apart at its first occurrence. *)
Lemma append_sep_inj (c : ascii) (x : string) :
  forall x' y y' : string,
    PyStr.has_char c x = false -> PyStr.has_char c x' = false ->
    x ++ String c y = x' ++ String c y' -> x = x' /\ y = y'.
Proof.
  induction x as [|d x IH]; intros [|d' x'] y y' Hx Hx' Heq.
  - change (String c y = String c y') in Heq. injection Heq as ->. auto.
  - change (String c y = String d' (x' ++ String c y')) in Heq.
    injection Heq as <- _. cbn in Hx'. now rewrite Ascii.eqb_refl in Hx'.
  - change (String d (x ++ String c y) = String c y') in Heq.
    injection Heq as -> _. cbn in Hx. now rewrite Ascii.eqb_refl in Hx.
  - rewrite !append_cons in Heq. injection Heq as -> Heq.
    cbn in Hx, Hx'. apply orb_false_iff in Hx as [_ Hx].
    apply orb_false_iff in Hx' as [_ Hx'].
    destruct (IH x' y y' Hx Hx' Heq) as [-> ->]. auto.
Qed.

(** X19.  The text that the multi-host gateway hashes for its cache key
    tells any two requests apart as long as neither query nor location
    holds a colon: equal texts then mean the same query, the same location
    and the same limit. *)
Theorem master_key_string_separates (q l q' l' : string) (n n' : Z) :
  PyStr.has_char ":" q = false -> PyStr.has_char ":" l = false ->
  PyStr.has_char ":" q' = false -> PyStr.has_char ":" l' = false ->
  Master.key_string q l n = Master.key_string q' l' n' ->
  q = q' /\ l = l' /\ n = n'.
Proof.
  intros Hq Hl Hq' Hl' Heq. unfold Master.key_string in Heq.
  change (q ++ String ":" (l ++ String ":" (PyStr.str_of_int n))
          = q' ++ String ":" (l' ++ String ":" (PyStr.str_of_int n'))) in Heq.
  apply append_sep_inj in Heq as [-> Heq]; [|assumption..].
  apply append_sep_inj in Heq as [-> Heq]; [|assumption..].
  apply str_of_int_inj in Heq. auto.
Qed.

Lemma master_key_string_separates_witness :
  "pizza" = "pizza" /\ "Boston" = "Boston" /\ 10 = 10.
Proof.
  apply (master_key_string_separates "pizza" "Boston" "pizza" "Boston" 10 10);
    reflexivity.
Defined.

End CacheKeys.

(** ** The results a worker of the thread pool produces *)
Section PoolResults.
Import Pool Payload.

Lemma record_of_titled (a : Anchor) (t : string) (u : option string) :
  record_of a = Some (t, u) -> PyStr.truthy t = true /\ u <> Some "".
Proof.
  unfold record_of, extract_place_data.
  destruct (stale a); [discriminate|].
  destruct (PyStr.truthy (PyStr.strip (default "" (aria_label a)))) eqn:Ht;
    [|discriminate].
  cbn. intros [= <- <-]. split; [exact Ht|].
  destruct (href a) as [h|]; [|discriminate].
  destruct h; cbn; discriminate.
Qed.

Lemma records_titled (anchors : list Anchor) :
  Forall (fun rec => PyStr.truthy (fst rec) = true /\ snd rec <> Some "")
         (records anchors).
Proof.
  induction anchors as [|a rest IH]; [constructor|].
  rewrite records_cons. destruct (record_of a) as [[t u]|] eqn:Ha; [|exact IH].
  constructor; [|exact IH]. now apply record_of_titled with (a := a).
Qed.

Lemma numbered_titled (recs : list (string * option string)) :
  forall pos,
    Forall (fun rec => PyStr.truthy (fst rec) = true /\ snd rec <> Some "") recs ->
    Forall (fun pl => PyStr.truthy (title pl) = true /\ maps_url pl <> Some "")
           (numbered pos recs).
Proof.
  induction recs as [|[t u] recs IH]; intros pos Hall; cbn; [constructor|].
  apply Forall_cons in Hall as [Hrec Hall]. constructor; [exact Hrec|].
  now apply IH.
Qed.

Lemma perform_search_shape (w : Worker) (lim : Z) (b : Browser) (r : Result) :
  perform_search w lim b = inr r ->
  status r = StSuccess /\ error r = None /\ worker_id r = Some (wid w) /\
  task_id r = None /\ from_cache r = false /\
  (length (places r) <= Z.to_nat lim)%nat /\
  Forall (fun pl => PyStr.truthy (title pl) = true /\ maps_url pl <> Some "")
         (places r).
Proof.
  intros Hr. pose proof (perform_search_payload w lim b r Hr) as Hplaces.
  assert (Hfields : status r = StSuccess /\ error r = None /\
                    worker_id r = Some (wid w) /\ task_id r = None /\
                    from_cache r = false).
  { revert Hr. unfold perform_search.
    destruct (nav_error b); [discriminate|].
    destruct (negb (lcl_captcha_ok b)); [discriminate|].
    destruct (negb (is_empty _)); [intros [= <-]; cbn; auto|].
    destruct (negb (serp_captcha_ok b)); [discriminate|].
    destruct (negb (is_empty _)); [intros [= <-]; cbn; auto|].
    destruct (negb (maps_captcha_ok b)); [discriminate|].
    intros [= <-]; cbn; auto. }
  destruct Hfields as (H1 & H2 & H3 & H4 & H5).
  repeat (split; [assumption|]). rewrite Hplaces. split.
  - rewrite numbered_length, length_firstn. lia.
  - apply numbered_titled, Forall_take, records_titled.
Qed.

Lemma search_attempts_shape (lim : Z) (session : nat -> Browser) (n : nat) :
  forall (k : nat) (last : option string) (w : Worker),
    let '(r, _, calls) := search_attempts n k last w lim session in
    worker_id r = Some (wid w) /\ task_id r = None /\ from_cache r = false /\
    match status r with
    | StSuccess =>
        (k < calls <= k + n)%nat /\ error r = None /\
        (length (places r) <= Z.to_nat lim)%nat /\
        Forall (fun pl => PyStr.truthy (title pl) = true /\ maps_url pl <> Some "")
               (places r)
    | StError =>
        calls = (k + n)%nat /\ places r = [] /\
        match n with
        | O => error r = Some (default "erro desconhecido" last)
        | S m => exists e, perform_search w lim (session (k + m)%nat) = inl e /\
                           error r = Some e
        end
    end.
Proof.
  induction n as [|n IH]; intros k last w; cbn [search_attempts].
  - cbn. rewrite Nat.add_0_r. repeat split; auto.
  - destruct (perform_search w lim (session k)) as [e|r] eqn:Hk.
    + specialize (IH (S k) (Some e) w).
      destruct (search_attempts n (S k) (Some e) w lim session) as [[r w'] calls].
      destruct IH as (H1 & H2 & H3 & H4). repeat (split; [assumption|]).
      destruct (status r).
      * destruct H4 as (Hc & Hrest). split; [lia|exact Hrest].
      * destruct H4 as (Hc & Hp & He). split; [lia|]. split; [exact Hp|].
        destruct n as [|m].
        -- exists e. rewrite Nat.add_0_r. split; [exact Hk|exact He].
        -- destruct He as (e' & He' & Herr). exists e'. split; [|exact Herr].
           replace (k + S m)%nat with (S k + m)%nat by lia. exact He'.
    + destruct (perform_search_shape w lim (session k) r Hk)
        as (Hs & He & Hw & Ht & Hf & Hlen & Htitles).
      repeat (split; [assumption|]). rewrite Hs.
      split; [lia|]. auto.
Qed.

(** X20.  What [SeleniumWorker.search] returns, whatever the browser
    shows.  The result names the worker.  A success was obtained by one of
    at most [max_retries] calls, has no error text and at most [limit]
    places, each with a title that is not empty and a link that is absent
    or not empty.  An error has no place, was returned after exactly
    [max_retries] failed calls and carries the text of the last failure;
    with [max_retries] zero or less the search fails with the text
    "erro desconhecido" without a single call. *)
Theorem search_result_shape (w : Worker) (lim mr : Z) (session : nat -> Browser) :
  let '(r, _, calls) := search w lim mr session in
  worker_id r = Some (wid w) /\ task_id r = None /\ from_cache r = false /\
  match status r with
  | StSuccess =>
      (0 < calls <= Z.to_nat mr)%nat /\ error r = None /\
      (length (places r) <= Z.to_nat lim)%nat /\
      Forall (fun pl => PyStr.truthy (title pl) = true /\ maps_url pl <> Some "")
             (places r)
  | StError =>
      calls = Z.to_nat mr /\ places r = [] /\
      match Z.to_nat mr with
      | O => error r = Some "erro desconhecido"
      | S m => exists e, perform_search w lim (session m) = inl e /\
                         error r = Some e
      end
  end.
Proof.
  unfold search.
  pose proof (search_attempts_shape lim session (Z.to_nat mr) 0 None
                (set_counters w true (total_searches w + 1) (successful_searches w)
                              (failed_searches w))) as H.
  destruct (search_attempts _ _ _ _ _ _) as [[r w'] calls].
  exact H.
Qed.

Example search_without_retries :
  let '(r, w', calls) := search Sample.fresh_worker 10 0 (fun _ => Sample.pizza_page) in
  status r = StError /\ error r = Some "erro desconhecido" /\ calls = 0%nat /\
  failed_searches w' = 1.
Proof. vm_compute. repeat split; reflexivity. Qed.

End PoolResults.

(** ** The 2Captcha client *)
Section CaptchaPolling.
Import TwoCaptcha.

Lemma poll_spec (timeout : Z) (latency : nat -> Z) (answer : nat -> PollAnswer)
    (fuel : nat) :
  (forall k, 0 <= latency k) ->
  forall (k : nat) (elapsed : Z),
    timeout - elapsed <= Z.of_nat fuel ->
    5 * Z.of_nat k <= elapsed ->
    5 * Z.of_nat k < Z.max timeout 0 + 5 ->
    (forall i t, (i < k)%nat -> answer i <> Ready (Some t)) ->
    exists out polls,
      poll fuel k elapsed timeout latency answer = Some (out, polls) /\
      5 * Z.of_nat polls < Z.max timeout 0 + 5 /\
      match out with
      | Token t =>
          exists j, polls = S j /\ answer j = Ready (Some t) /\
                    forall i t', (i < j)%nat -> answer i <> Ready (Some t')
      | TimedOut => forall i t', (i < polls)%nat -> answer i <> Ready (Some t')
      | Raises _ => False
      end.
Proof.
  intros Hlat.
  induction fuel as [|fuel IH]; intros k elapsed Hfuel Hk Hbound Hnone;
    cbn [poll].
  - destruct (elapsed <? timeout) eqn:Hlt; [apply Z.ltb_lt in Hlt; lia|].
    exists TimedOut, k. auto.
  - destruct (elapsed <? timeout) eqn:Hlt.
    2:{ exists TimedOut, k. auto. }
    apply Z.ltb_lt in Hlt.
    assert (Hgo : (forall t, answer k <> Ready (Some t)) ->
              exists out polls,
                poll fuel (S k) (elapsed + 5 + latency k) timeout latency answer
                = Some (out, polls) /\
                5 * Z.of_nat polls < Z.max timeout 0 + 5 /\
                match out with
                | Token t =>
                    exists j, polls = S j /\ answer j = Ready (Some t) /\
                              forall i t', (i < j)%nat -> answer i <> Ready (Some t')
                | TimedOut =>
                    forall i t', (i < polls)%nat -> answer i <> Ready (Some t')
                | Raises _ => False
                end).
    { intros Hans. specialize (Hlat k). apply IH; try lia.
      intros i t' Hi. destruct (decide (i = k)) as [->|Hne]; [apply Hans|].
      apply Hnone. lia. }
    destruct (answer k) as [[t|]| |req|e] eqn:Hans.
    + exists (Token t), (S k). split; [reflexivity|]. split; [lia|].
      exists k. auto.
    + apply Hgo. discriminate.
    + apply Hgo. discriminate.
    + apply Hgo. discriminate.
    + apply Hgo. discriminate.
Qed.

(** X21.  [solve_recaptcha_v2] always comes to an end when the requests
    take no negative time.  It raises the error of the submission when the
    captcha is not accepted, without a single poll.  Once the captcha is
    accepted it returns the token of the first poll that answers with
    status 1 and a token, or raises [TimeoutError]: an error answer to a
    poll, an exception of the HTTP client and an answer without a token
    are all swallowed by the loop and polled over.  It makes fewer than
    [timeout / 5 + 1] polls. *)
Theorem solve_recaptcha_v2_outcome (timeout : Z) (submit : SubmitAnswer)
    (latency : nat -> Z) (answer : nat -> PollAnswer) :
  (forall k, 0 <= latency k) ->
  exists out polls,
    solve_recaptcha_v2 timeout submit latency answer = Some (out, polls) /\
    5 * Z.of_nat polls < Z.max timeout 0 + 5 /\
    match out with
    | Token t =>
        (exists id, submit = Accepted id) /\
        exists j, polls = S j /\ answer j = Ready (Some t) /\
                  forall i t', (i < j)%nat -> answer i <> Ready (Some t')
    | TimedOut =>
        (exists id, submit = Accepted id) /\
        forall i t', (i < polls)%nat -> answer i <> Ready (Some t')
    | Raises e =>
        polls = 0%nat /\
        (submit = SubmitRaised e \/
         exists request, submit = Refused request /\
                         e = "2Captcha error: " ++ default "Unknown error" request)
    end.
Proof.
  intros Hlat. unfold solve_recaptcha_v2.
  destruct submit as [id|request|e].
  - destruct (poll_spec timeout latency answer (Z.to_nat timeout) Hlat 0 0)
      as (out & polls & Hrun & Hbound & Hout); try lia.
    exists out, polls. split; [exact Hrun|]. split; [exact Hbound|].
    destruct out as [t|e|]; [split; eauto|destruct Hout|split; eauto].
  - eexists _, _. split; [reflexivity|]. split; [lia|]. split; [reflexivity|].
    right. eauto.
  - eexists _, _. split; [reflexivity|]. split; [lia|]. split; [reflexivity|].
    now left.
Qed.

Lemma solve_recaptcha_v2_outcome_witness :
  exists out polls,
    solve_recaptcha_v2 120 (Accepted (Some "73"))
      (fun _ => 1)
      (fun k => match k with
                | O => NotReady
                | 1%nat => Failed (Some "ERROR_CAPTCHA_UNSOLVABLE")
                | 2%nat => PollRaised "read timed out"
                | _ => Ready (Some "03AGdBq2")
                end) = Some (out, polls) /\
    5 * Z.of_nat polls < Z.max 120 0 + 5 /\
    match out with
    | Token t =>
        (exists id, Accepted (Some "73") = Accepted id) /\
        exists j, polls = S j /\
                  match j with
                  | O => NotReady
                  | 1%nat => Failed (Some "ERROR_CAPTCHA_UNSOLVABLE")
                  | 2%nat => PollRaised "read timed out"
                  | _ => Ready (Some "03AGdBq2")
                  end = Ready (Some t) /\
                  forall i t', (i < j)%nat ->
                    match i with
                    | O => NotReady
                    | 1%nat => Failed (Some "ERROR_CAPTCHA_UNSOLVABLE")
                    | 2%nat => PollRaised "read timed out"
                    | _ => Ready (Some "03AGdBq2")
                    end <> Ready (Some t')
    | TimedOut =>
        (exists id, Accepted (Some "73") = Accepted id) /\
        forall i t', (i < polls)%nat ->
          match i with
          | O => NotReady
          | 1%nat => Failed (Some "ERROR_CAPTCHA_UNSOLVABLE")
          | 2%nat => PollRaised "read timed out"
          | _ => Ready (Some "03AGdBq2")
          end <> Ready (Some t')
    | Raises e =>
        polls = 0%nat /\
        (Accepted (Some "73") = SubmitRaised e \/
         exists request, Accepted (Some "73") = Refused request /\
                         e = "2Captcha error: " ++ default "Unknown error" request)
    end.
Proof.
  apply (solve_recaptcha_v2_outcome 120 (Accepted (Some "73")) (fun _ => 1)
           (fun k => match k with
                     | O => NotReady
                     | 1%nat => Failed (Some "ERROR_CAPTCHA_UNSOLVABLE")
                     | 2%nat => PollRaised "read timed out"
                     | _ => Ready (Some "03AGdBq2")
                     end)).
  intros k. lia.
Defined.

Example solve_recaptcha_v2_run :
  solve_recaptcha_v2 120 (Accepted (Some "73")) (fun _ => 1)
    (fun k => match k with
              | O => NotReady
              | 1%nat => Failed (Some "ERROR_CAPTCHA_UNSOLVABLE")
              | 2%nat => PollRaised "read timed out"
              | _ => Ready (Some "03AGdBq2")
              end) = Some (Token "03AGdBq2", 4%nat) /\
  solve_recaptcha_v2 12 (Accepted (Some "73")) (fun _ => 1)
    (fun _ => Failed (Some "ERROR_CAPTCHA_UNSOLVABLE")) = Some (TimedOut, 2%nat) /\
  solve_recaptcha_v2 120 (Refused None) (fun _ => 1) (fun _ => NotReady)
  = Some (Raises "2Captcha error: Unknown error", 0%nat).
Proof. repeat split; reflexivity. Qed.

End CaptchaPolling.
